(** * citizenx: repositories and post handler

    A shallow embedding of the data-access layer ([package db]: the auth
    repository and the incident-report repository) and of the post
    creation handler ([package server]), with the properties their
    specification states.

    Code that talks to the outside world (the relational store behind the
    ORM, the object store, the HTTP response) is written as a program over
    an event signature; an interpreter runs it against an explicit world
    and records every call that was made together with its answer. *)

From Stdlib Require Import ZArith NArith List String Ascii Bool Lia DecimalString.
From Stdlib Require Import Sorted Permutation.
From Stdlib Require Import PrimFloat Uint63 SpecFloat FloatOps.
From stdpp Require Import base option gmap strings.
Import ListNotations.
Open Scope string_scope.
Open Scope list_scope.

(** ** Programs over an event signature *)

Module Eff.

Inductive Prog (E : Type -> Type) (R : Type) : Type :=
| Ret (r : R)
| Vis (X : Type) (e : E X) (k : X -> Prog E R).

Arguments Ret {E R} r.
Arguments Vis {E R X} e k.

Fixpoint bind {E A B} (m : Prog E A) (f : A -> Prog E B) : Prog E B :=
  match m with
  | Ret a => f a
  | Vis e k => Vis e (fun x => bind (k x) f)
  end.

Definition call {E X} (e : E X) : Prog E X := Vis e Ret.

(** One executed call: the event and the answer it got. *)
Record entry (E : Type -> Type) : Type :=
  Entry { ev_type : Type; ev_call : E ev_type; ev_answer : ev_type }.

Arguments Entry {E ev_type} ev_call ev_answer.
Arguments ev_call {E} e.
Arguments ev_answer {E} e.

Section Run.
Context {E : Type -> Type} {W : Type}.
Variable handler : forall X, E X -> W -> X * W.

  (** [run p w] = (result, final world, calls made in order). *)
Fixpoint run {R} (p : Prog E R) (w : W) : R * W * list (entry E) :=
    match p with
    | Ret r => (r, w, [])
    | Vis e k =>
        let '(x, w1) := handler _ e w in
        let '(r, w2, tr) := run (k x) w1 in
        (r, w2, Entry e x :: tr)
    end.

Definition result_of {R} (p : Prog E R) (w : W) : R := fst (fst (run p w)).
Definition world_of {R} (p : Prog E R) (w : W) : W := snd (fst (run p w)).
Definition trace_of {R} (p : Prog E R) (w : W) : list (entry E) := snd (run p w).
End Run.

End Eff.

Import Eff.

#[global] Instance prog_ret {E} : MRet (Prog E) := fun _ r => Ret r.
#[global] Instance prog_bind {E} : MBind (Prog E) := fun _ _ f m => bind m f.

(** ** Go values *)

(** [error]: the sentinel [gorm.ErrRecordNotFound], [errors.New] /
    driver errors, and [fmt.Errorf] with one error argument under the verb
    [%v] (which does not wrap its cause) or [%w] (which does). *)
Inductive error : Type :=
| ErrRecordNotFound
| New (msg : string)
| Errorf (format : string) (arg : error).

(** The format has the verb [%w]. *)
Fixpoint wraps (format : string) : bool :=
  match format with
  | EmptyString => false
  | String c rest =>
      match rest with
      | String d _ => (Ascii.eqb c "%" && Ascii.eqb d "w")%bool || wraps rest
      | EmptyString => false
      end
  end.

(** [errors.Is]: identity with the target, looked for along the chain of
    wrapped causes; only the sentinel is ever a target here. *)
Fixpoint errors_Is (err target : error) : bool :=
  match err with
  | ErrRecordNotFound =>
      match target with
      | ErrRecordNotFound => true
      | _ => false
      end
  | New _ => false
  | Errorf format arg => wraps format && errors_Is arg target
  end.

(** [err == gorm.ErrRecordNotFound]: identity, without unwrapping. *)
Definition is_ErrRecordNotFound (err : error) : bool :=
  match err with
  | ErrRecordNotFound => true
  | _ => false
  end.

(** The first [%v] or [%w] of a format replaced by its argument. *)
Fixpoint sprintf_v (format arg : string) : string :=
  match format with
  | EmptyString => EmptyString
  | String c rest =>
      match rest with
      | String d rest' =>
          if (Ascii.eqb c "%" && (Ascii.eqb d "v" || Ascii.eqb d "w"))%bool
          then arg +:+ rest'
          else String c (sprintf_v rest arg)
      | EmptyString => format
      end
  end.

(** [err.Error()]. *)
Fixpoint Error (e : error) : string :=
  match e with
  | ErrRecordNotFound => "record not found"
  | New msg => msg
  | Errorf format arg => sprintf_v format (Error arg)
  end.

Inductive result (A : Type) : Type :=
| Ok (a : A)
| Err (e : error).

Arguments Ok {A} a.
Arguments Err {A} e.

(** A call that may panic: it returns, or it unwinds with the value of
    the panic and returns nothing. *)
Inductive outcome (A : Type) : Type :=
| Returned (a : A)
| Panicked (msg : string).

Arguments Returned {A} a.
Arguments Panicked {A} msg.

(** [make([]byte, n)] panics for a negative length; a buffer of any other
    length is taken to be allocated. *)
Definition makeslice_panics (n : Z) : bool := (n <? 0)%Z.

(** Go's [int] on the 64-bit build target: two's complement wrap-around. *)
Definition wrap64 (z : Z) : Z := ((z + 2 ^ 63) mod 2 ^ 64 - 2 ^ 63)%Z.
Definition int_sub (a b : Z) : Z := wrap64 (a - b).
Definition int_mul (a b : Z) : Z := wrap64 (a * b).
Definition is_int (z : Z) : Prop := (- 2 ^ 63 <= z < 2 ^ 63)%Z.

(** [strconv.FormatUint(n, 10)]. *)
Definition FormatUint (n : N) : string := NilZero.string_of_uint (N.to_uint n).

(** The integer part of a finite float64. *)
Definition float64_trunc (f : float) : option Z :=
  match Prim2SF f with
  | S754_zero _ => Some 0%Z
  | S754_finite s m e =>
      let a := if (0 <=? e)%Z then (Z.pos m * 2 ^ e)%Z else (Z.pos m / 2 ^ (- e))%Z in
      Some (if s then (- a)%Z else a)
  | _ => None
  end.

(** [uint(f)]: the fraction is discarded; a value that [uint] cannot hold
    converts to an implementation-dependent result, supplied by [oor]. *)
Definition float64_to_uint (oor : float -> N) (f : float) : N :=
  match float64_trunc f with
  | Some z => if ((0 <=? z) && (z <? 2 ^ 64))%Z then Z.to_N z else oor f
  | None => oor f
  end.

(** [float64(n)] for a row count [n]. *)
Definition float64_of_count (n : Z) : float := of_uint63 (Uint63.of_Z n).

(** ** The models

    Modelled from the spec: package [models] is declared outside the
    reviewed sources.  Each record carries the attributes the data model
    lists for it and the columns the queries name, with the ORM's numeric
    primary key [ID] (zero while the row is not yet stored). *)

Module Reward.
Record t : Type := Build
    { ID : N; UserID : N; RewardType : string; Point : Z; Balance : Z;
      IncidentReportID : string }.
Definition set_ID (v : N) (r : t) : t :=
    Build v (UserID r) (RewardType r) (Point r) (Balance r) (IncidentReportID r).
Definition set_RewardType (v : string) (r : t) : t :=
    Build (ID r) (UserID r) v (Point r) (Balance r) (IncidentReportID r).
Definition set_Point (v : Z) (r : t) : t :=
    Build (ID r) (UserID r) (RewardType r) v (Balance r) (IncidentReportID r).
Definition set_Balance (v : Z) (r : t) : t :=
    Build (ID r) (UserID r) (RewardType r) (Point r) v (IncidentReportID r).
Definition set_IncidentReportID (v : string) (r : t) : t :=
    Build (ID r) (UserID r) (RewardType r) (Point r) (Balance r) v.
End Reward.

Module Blacklist.
Record t : Type := Build { ID : N; Token : string; CreatedAt : Z }.
Definition set_ID (v : N) (r : t) : t := Build v (Token r) (CreatedAt r).
End Blacklist.

Module User.
Record t : Type := Build
    { ID : N; Email : string; Username : string; HashedPassword : string;
      Online : bool; MacAddress : string; LGAName : string }.
Definition set_ID (v : N) (r : t) : t :=
    Build v (Email r) (Username r) (HashedPassword r) (Online r) (MacAddress r)
          (LGAName r).
End User.

Module IncidentReport.
Record t : Type := Build
    { ID : N; UserID : N; StateName : string; LGAName : string;
      ReportType : string; Description : string; Image : string;
      Status : string; TimeofIncidence : Z }.
Definition set_ID (v : N) (r : t) : t :=
    Build v (UserID r) (StateName r) (LGAName r) (ReportType r) (Description r)
          (Image r) (Status r) (TimeofIncidence r).
End IncidentReport.

Module ReportType.
Record t : Type := Build
    { ID : N; Category : string; StateName : string;
      IncidentReportRating : string }.
Definition set_ID (v : N) (r : t) : t :=
    Build v (Category r) (StateName r) (IncidentReportRating r).
End ReportType.

Module SubReport.
Record t : Type := Build
    { ID : N; SubReportType : string; StateName : string; LGAID : string;
      ReportTypeCategory : string }.
Definition set_ID (v : N) (r : t) : t :=
    Build v (SubReportType r) (StateName r) (LGAID r) (ReportTypeCategory r).
End SubReport.

Module LGA.
Record t : Type := Build { ID : N; Name : string }.
Definition set_ID (v : N) (r : t) : t := Build v (Name r).
End LGA.

Module State.
Record t : Type := Build { ID : N; Name : string }.
Definition set_ID (v : N) (r : t) : t := Build v (Name r).
End State.

(** ** The ORM over a relational store *)

Module Gorm.

(** A model has a primary key; the store fills it in on insertion. *)
Class Model (T : Type) : Type :=
  { pk : T -> N;
    with_pk : N -> T -> T;
    pk_with_pk : forall k r, pk (with_pk k r) = k }.

#[global] Instance reward_model : Model Reward.t :=
  {| pk := Reward.ID; with_pk := Reward.set_ID; pk_with_pk := fun _ _ => eq_refl |}.
#[global] Instance blacklist_model : Model Blacklist.t :=
  {| pk := Blacklist.ID; with_pk := Blacklist.set_ID; pk_with_pk := fun _ _ => eq_refl |}.
#[global] Instance user_model : Model User.t :=
  {| pk := User.ID; with_pk := User.set_ID; pk_with_pk := fun _ _ => eq_refl |}.
#[global] Instance incident_report_model : Model IncidentReport.t :=
  {| pk := IncidentReport.ID; with_pk := IncidentReport.set_ID; pk_with_pk := fun _ _ => eq_refl |}.
#[global] Instance report_type_model : Model ReportType.t :=
  {| pk := ReportType.ID; with_pk := ReportType.set_ID; pk_with_pk := fun _ _ => eq_refl |}.
#[global] Instance sub_report_model : Model SubReport.t :=
  {| pk := SubReport.ID; with_pk := SubReport.set_ID; pk_with_pk := fun _ _ => eq_refl |}.
#[global] Instance lga_model : Model LGA.t :=
  {| pk := LGA.ID; with_pk := LGA.set_ID; pk_with_pk := fun _ _ => eq_refl |}.
#[global] Instance state_model : Model State.t :=
  {| pk := State.ID; with_pk := State.set_ID; pk_with_pk := fun _ _ => eq_refl |}.

(** *** One table *)

Section Table.
Context {T : Type} `{Model T}.

Definition max_pk (t : list T) : N := fold_right (fun r m => N.max (pk r) m) 0%N t.
Definition next_id (t : list T) : N := N.succ (max_pk t).
Definition has_pk (k : N) (t : list T) : bool := existsb (fun r => (pk r =? k)%N) t.

(** INSERT: a zero key is assigned by the store, a taken key is refused. *)
Definition insert (r : T) (t : list T) : result (list T) :=
  if (pk r =? 0)%N then Ok (t ++ [with_pk (next_id t) r])
  else if has_pk (pk r) t then Err (New "duplicate key value violates unique constraint")
  else Ok (t ++ [r]).

(** UPDATE ... SET <all columns> WHERE id = pk r. *)
Definition update (r : T) (t : list T) : list T :=
  map (fun x => if (pk x =? pk r)%N then r else x) t.

(** [Save]: insert when the key is zero, else update every column, and
    insert after all when the update touched no row. *)
Definition save (r : T) (t : list T) : result (list T) :=
  if (pk r =? 0)%N then insert r t
  else if has_pk (pk r) t then Ok (update r t)
  else insert r t.

(** WHERE c ORDER BY id LIMIT 1. *)
Definition first_where (c : T -> bool) (t : list T) : option T :=
  fold_right
    (fun r acc =>
       if c r then
         match acc with
         | Some a => if (pk r <=? pk a)%N then Some r else Some a
         | None => Some r
         end
       else acc)
    None t.

Definition count_where (c : T -> bool) (t : list T) : Z :=
  Z.of_nat (length (List.filter c t)).

(** Keys are unique and never zero in a stored table. *)
Definition wf_table (t : list T) : Prop :=
  List.NoDup (map pk t) /\ Forall (fun r => pk r <> 0%N) t.

End Table.

(** *** Queries built by chaining *)

Inductive direction : Type := ASC | DESC.

Record Query (T : Type) : Type :=
  { q_where : list (T -> bool);
    q_order : option ((T -> Z) * direction);
    q_limit : option Z;
    q_offset : Z }.

Arguments q_where {T} q.
Arguments q_order {T} q.
Arguments q_limit {T} q.
Arguments q_offset {T} q.

Section Builder.
Context {T : Type}.

Definition Model_ : Query T :=
  {| q_where := []; q_order := None; q_limit := None; q_offset := 0%Z |}.
Definition Where (c : T -> bool) (q : Query T) : Query T :=
  {| q_where := q_where q ++ [c]; q_order := q_order q;
     q_limit := q_limit q; q_offset := q_offset q |}.
Definition Order (col : T -> Z) (d : direction) (q : Query T) : Query T :=
  {| q_where := q_where q; q_order := Some (col, d);
     q_limit := q_limit q; q_offset := q_offset q |}.
Definition Limit (n : Z) (q : Query T) : Query T :=
  {| q_where := q_where q; q_order := q_order q;
     q_limit := Some n; q_offset := q_offset q |}.
Definition Offset (n : Z) (q : Query T) : Query T :=
  {| q_where := q_where q; q_order := q_order q;
     q_limit := q_limit q; q_offset := n |}.

Definition matches (cs : list (T -> bool)) (r : T) : bool :=
  forallb (fun c => c r) cs.

(** [before col d a b]: row [a] may stay in front of row [b]. *)
Definition before (col : T -> Z) (d : direction) (a b : T) : bool :=
  match d with
  | ASC => (col a <=? col b)%Z
  | DESC => (col b <=? col a)%Z
  end.

Fixpoint place (col : T -> Z) (d : direction) (r : T) (sorted : list T) : list T :=
  match sorted with
  | [] => [r]
  | x :: rest => if before col d r x then r :: sorted else x :: place col d r rest
  end.

(** ORDER BY col d.  Among rows with equal keys SQL leaves the order to
    the store; here they keep their table order, which is one of the
    orders a store may pick.  What is stated below about an ordered result
    holds for every such order, or assumes that no two rows have the same
    key. *)
Definition order_by (col : T -> Z) (d : direction) (rows : list T) : list T :=
  fold_right (place col d) [] rows.

(** SELECT * WHERE ... ORDER BY ... LIMIT ... OFFSET ...: the clauses apply
    in this order whatever the order of the builder calls; OFFSET is
    emitted only when positive, LIMIT only when not negative. *)
Definition select (q : Query T) (t : list T) : list T :=
  let rows := List.filter (matches (q_where q)) t in
  let rows := match q_order q with
              | Some (col, d) => order_by col d rows
              | None => rows
              end in
  let rows := if (0 <? q_offset q)%Z then skipn (Z.to_nat (q_offset q)) rows else rows in
  match q_limit q with
  | Some n => if (0 <=? n)%Z then firstn (Z.to_nat n) rows else rows
  | None => rows
  end.

End Builder.

(** *** The database *)

Inductive table : Type :=
| rewards | blacklists | users | incident_reports
| report_types | sub_reports | lgas | states.

Definition row (t : table) : Type :=
  match t with
  | rewards => Reward.t
  | blacklists => Blacklist.t
  | users => User.t
  | incident_reports => IncidentReport.t
  | report_types => ReportType.t
  | sub_reports => SubReport.t
  | lgas => LGA.t
  | states => State.t
  end.

Definition row_model (t : table) : Model (row t) :=
  match t with
  | rewards => reward_model
  | blacklists => blacklist_model
  | users => user_model
  | incident_reports => incident_report_model
  | report_types => report_type_model
  | sub_reports => sub_report_model
  | lgas => lga_model
  | states => state_model
  end.

Record DB : Type :=
  { t_rewards : list Reward.t;
    t_blacklists : list Blacklist.t;
    t_users : list User.t;
    t_incident_reports : list IncidentReport.t;
    t_report_types : list ReportType.t;
    t_sub_reports : list SubReport.t;
    t_lgas : list LGA.t;
    t_states : list State.t }.

Definition rows (t : table) (d : DB) : list (row t) :=
  match t with
  | rewards => t_rewards d
  | blacklists => t_blacklists d
  | users => t_users d
  | incident_reports => t_incident_reports d
  | report_types => t_report_types d
  | sub_reports => t_sub_reports d
  | lgas => t_lgas d
  | states => t_states d
  end.

Definition set_rows (t : table) : list (row t) -> DB -> DB :=
  match t with
  | rewards => fun l d =>
      Build_DB l (t_blacklists d) (t_users d) (t_incident_reports d)
               (t_report_types d) (t_sub_reports d) (t_lgas d) (t_states d)
  | blacklists => fun l d =>
      Build_DB (t_rewards d) l (t_users d) (t_incident_reports d)
               (t_report_types d) (t_sub_reports d) (t_lgas d) (t_states d)
  | users => fun l d =>
      Build_DB (t_rewards d) (t_blacklists d) l (t_incident_reports d)
               (t_report_types d) (t_sub_reports d) (t_lgas d) (t_states d)
  | incident_reports => fun l d =>
      Build_DB (t_rewards d) (t_blacklists d) (t_users d) l
               (t_report_types d) (t_sub_reports d) (t_lgas d) (t_states d)
  | report_types => fun l d =>
      Build_DB (t_rewards d) (t_blacklists d) (t_users d) (t_incident_reports d)
               l (t_sub_reports d) (t_lgas d) (t_states d)
  | sub_reports => fun l d =>
      Build_DB (t_rewards d) (t_blacklists d) (t_users d) (t_incident_reports d)
               (t_report_types d) l (t_lgas d) (t_states d)
  | lgas => fun l d =>
      Build_DB (t_rewards d) (t_blacklists d) (t_users d) (t_incident_reports d)
               (t_report_types d) (t_sub_reports d) l (t_states d)
  | states => fun l d =>
      Build_DB (t_rewards d) (t_blacklists d) (t_users d) (t_incident_reports d)
               (t_report_types d) (t_sub_reports d) (t_lgas d) l
  end.

Definition empty_db : DB := Build_DB [] [] [] [] [] [] [] [].

(** *** Statements

    [OnDB] is the repository's own handle (every statement commits at
    once); [OnTx] is the handle [Begin] returned. *)

Inductive handle : Type := OnDB | OnTx.

Inductive stmt : Type -> Type :=
| Begin : stmt unit
| Commit : stmt (option error)
| Rollback : stmt unit
| Create (h : handle) (t : table) (r : row t) : stmt (option error)
| Save (t : table) (r : row t) : stmt (option error)
| First (t : table) (c : row t -> bool) : stmt (result (row t))
| Find (t : table) (q : Query (row t)) : stmt (result (list (row t)))
| Count (t : table) (c : row t -> bool) : stmt (result Z).

(** The transaction behind the [OnTx] handle: none, open with its
    uncommitted working copy, or failed to start. *)
Inductive tx_state : Type :=
| NoTx
| TxOpen (working : DB)
| TxFailed (e : error).

(** [plan] schedules the failures of the store itself (connection lost,
    constraint of the schema, ...): one entry per statement sent, [None]
    for a statement that goes through; statements beyond the plan go
    through. *)
Record World : Type :=
  { committed : DB; txn : tx_state; plan : list (option string) }.

Definition next_fault (w : World) : option error * World :=
  match plan w with
  | [] => (None, w)
  | f :: rest =>
      (match f with Some msg => Some (New msg) | None => None end,
       {| committed := committed w; txn := txn w; plan := rest |})
  end.

Definition with_committed (d : DB) (w : World) : World :=
  {| committed := d; txn := txn w; plan := plan w |}.
Definition with_txn (x : tx_state) (w : World) : World :=
  {| committed := committed w; txn := x; plan := plan w |}.

Definition ErrInvalidTransaction : error := New "invalid transaction".

Definition write_table (t : table) (f : list (row t) -> result (list (row t)))
    (d : DB) : option error * DB :=
  match f (rows t d) with
  | Ok l => (None, set_rows t l d)
  | Err e => (Some e, d)
  end.

Definition exec_write (h : handle) (t : table)
    (f : list (row t) -> result (list (row t))) (w : World) : option error * World :=
  match h with
  | OnDB =>
      let '(fault, w1) := next_fault w in
      match fault with
      | Some e => (Some e, w1)
      | None =>
          let '(r, d) := write_table t f (committed w1) in
          (r, with_committed d w1)
      end
  | OnTx =>
      match txn w with
      | NoTx => (Some ErrInvalidTransaction, w)
      | TxFailed e => (Some e, w)
      | TxOpen d0 =>
          let '(fault, w1) := next_fault w in
          match fault with
          | Some e => (Some e, w1)
          | None =>
              let '(r, d) := write_table t f d0 in
              (r, with_txn (TxOpen d) w1)
          end
      end
  end.

(** [Save] sends an INSERT for a zero key and otherwise an UPDATE of every
    column by key.  When that UPDATE touched no row (no row has the key) a
    second statement follows, INSERT ... ON CONFLICT DO UPDATE, which can
    fail on its own.  An UPDATE by a stored key is taken to affect its
    row. *)
Definition exec_save (t : table) (r : row t) (w : World) : option error * World :=
  if negb (@pk _ (row_model t) r =? 0)%N
     && negb (@has_pk _ (row_model t) (@pk _ (row_model t) r) (rows t (committed w)))
  then
    let '(fault, w1) := next_fault w in
    match fault with
    | Some e => (Some e, w1)
    | None => exec_write OnDB t (@save _ (row_model t) r) w1
    end
  else exec_write OnDB t (@save _ (row_model t) r) w.

Definition exec_read {A} (f : DB -> result A) (w : World) : result A * World :=
  let '(fault, w1) := next_fault w in
  match fault with
  | Some e => (Err e, w1)
  | None => (f (committed w1), w1)
  end.

Definition exec (X : Type) (s : stmt X) (w : World) : X * World :=
  match s in stmt X return X * World with
  | Begin =>
      let '(fault, w1) := next_fault w in
      match fault with
      | Some e => (tt, with_txn (TxFailed e) w1)
      | None => (tt, with_txn (TxOpen (committed w1)) w1)
      end
  | Commit =>
      match txn w with
      | NoTx => (Some ErrInvalidTransaction, w)
      | TxFailed e => (Some e, with_txn NoTx w)
      | TxOpen d =>
          let '(fault, w1) := next_fault w in
          match fault with
          | Some e => (Some e, with_txn NoTx w1)
          | None => (None, with_txn NoTx (with_committed d w1))
          end
      end
  | Rollback => (tt, with_txn NoTx w)
  | Create h t r => exec_write h t (@insert _ (row_model t) r) w
  | Save t r => exec_save t r w
  | First t c =>
      exec_read
        (fun d => match @first_where _ (row_model t) c (rows t d) with
                  | Some r => Ok r
                  | None => Err ErrRecordNotFound
                  end) w
  | Find t q => exec_read (fun d => Ok (select q (rows t d))) w
  | Count t c => exec_read (fun d => Ok (count_where c (rows t d))) w
  end.

Abbreviation DBProg := (Prog stmt).

End Gorm.

(** ** [strings.TrimSpace]

    A Go string is a byte sequence read as UTF-8.  The white space runes
    are U+0009..U+000D, U+0020, U+0085, U+00A0, U+1680, U+2000..U+200A,
    U+2028, U+2029, U+202F, U+205F and U+3000; each is recognised by its
    encoding, from either end. *)

Module Strings.

Definition ascii_space (c : N) : bool :=
  ((9 <=? c) && (c <=? 13) || (c =? 32))%N.

Definition space2 (a b : N) : bool :=
  ((a =? 194) && ((b =? 133) || (b =? 160)))%N.

Definition space3 (a b c : N) : bool :=
  ((a =? 225) && (b =? 154) && (c =? 128)
   || (a =? 226) && (b =? 128)
      && ((128 <=? c) && (c <=? 138) || (c =? 168) || (c =? 169) || (c =? 175))
   || (a =? 226) && (b =? 129) && (c =? 159)
   || (a =? 227) && (b =? 128) && (c =? 128))%N.

Fixpoint trim_left (s : list N) : list N :=
  match s with
  | [] => []
  | a :: s1 =>
      if ascii_space a then trim_left s1
      else match s1 with
           | [] => s
           | b :: s2 =>
               if space2 a b then trim_left s2
               else match s2 with
                    | [] => s
                    | c :: s3 => if space3 a b c then trim_left s3 else s
                    end
           end
  end.

(** The same scan on the reversed bytes: the last byte comes first. *)
Fixpoint trim_left_rev (s : list N) : list N :=
  match s with
  | [] => []
  | a :: s1 =>
      if ascii_space a then trim_left_rev s1
      else match s1 with
           | [] => s
           | b :: s2 =>
               if space2 b a then trim_left_rev s2
               else match s2 with
                    | [] => s
                    | c :: s3 => if space3 c b a then trim_left_rev s3 else s
                    end
           end
  end.

Definition bytes_of (s : string) : list N := map N_of_ascii (list_ascii_of_string s).
Definition of_bytes (l : list N) : string := string_of_list_ascii (map ascii_of_N l).

Definition TrimSpace (s : string) : string :=
  of_bytes (rev (trim_left_rev (rev (trim_left (bytes_of s))))).

End Strings.

(** ** The auth repository *)

Module AuthRepo.
Import Gorm.

Definition token_is (token : string) (b : Blacklist.t) : bool :=
  String.eqb (Blacklist.Token b) token.

Definition UpdateUser (user : User.t) : DBProg (option error) :=
  mret None.

Definition AddToBlackList (blacklist : Blacklist.t) : DBProg (option error) :=
  call (Create OnDB blacklists blacklist).

Definition TokenInBlacklist (token : string) : DBProg bool :=
  result ← call (Find blacklists (Where (token_is token) Model_));
  mret (match result with Err _ => true | Ok _ => false end).

Definition normalizeToken (token : string) : string :=
  Strings.TrimSpace token.

Definition IsTokenInBlacklist (token : string) : DBProg bool :=
  let normalizedToken := normalizeToken token in
  r ← call (Count blacklists (token_is normalizedToken));
  let count := match r with Ok n => n | Err _ => 0%Z end in
  mret (0 <? count)%Z.

End AuthRepo.

(** ** The world outside the store: request, object store, response *)

Module IO.

(** A JSON value as [encoding/json] decodes it into [interface{}]. *)
#[warnings="-register-all"]
Inductive JSONValue : Type :=
| JNull
| JBool (b : bool)
| JNumber (f : float)
| JString (s : string)
| JArray (l : list JSONValue)
| JObject (l : list (string * JSONValue)).

(** [jwt.MapClaims]. *)
Abbreviation MapClaims := (gmap string JSONValue).

Definition File : Type := list N.

Record FileHeader : Type := { Filename : string; Size : Z }.

Record Request : Type :=
  { files : gmap string (File * FileHeader);
    form : gmap string string;
    headers : gmap string string }.

(** [c.Request.FormFile(name)]. *)
Definition FormFile (c : Request) (name : string) : result (File * FileHeader) :=
  match files c !! name with
  | Some f => Ok f
  | None => Err (New "http: no such file")
  end.

(** [c.PostForm(key)]: the empty string when the key is absent. *)
Definition PostForm (c : Request) (key : string) : string :=
  default "" (form c !! key).

(** Modelled from the spec: [models.Post] is declared outside the reviewed
    sources; the fields are those the handler fills in, and the key. *)
Record Post : Type :=
  { Post_ID : N; UserID : N; Title : string; PostCategory : string;
    Image : string; PostDescription : string }.

Definition set_Post_ID (v : N) (p : Post) : Post :=
  {| Post_ID := v; UserID := UserID p; Title := Title p;
     PostCategory := PostCategory p; Image := Image p;
     PostDescription := PostDescription p |}.

(** [gin.H]. *)
Inductive HValue : Type :=
| HString (s : string)
| HPost (p : Post).
Abbreviation H := (gmap string HValue).

Record PutObjectInput : Type :=
  { Bucket : string; Key : string; ACL : string; Body : list N;
    ContentLength : Z; ContentType : string; ContentDisposition : string;
    ServerSideEncryption : string; StorageClass : string }.

Record PutObjectOutput : Type := { ETag : string; VersionId : string }.

Inductive S3Handle : Type := Session_ | Client_.

Inductive ioE : Type -> Type :=
| Read (file : File) (size : Z) : ioE (list N)
| Getenv (key : string) : ioE string
| DetectContentType (data : list N) : ioE string
| PutObject (s : S3Handle) (input : PutObjectInput) : ioE (PutObjectOutput * option error)
| ValidateFile (fileHeader : FileHeader) : ioE (option error)
| GetTokenFromHeader (c : Request) : ioE string
| ValidateAndGetClaims (token secret : string) : ioE (result MapClaims)
| CreateS3Client : ioE (option error)
| CreatePost (post : Post) : ioE (Post * option error)
| JSON (code : Z) (obj : H) : ioE unit.

(** Everything the surroundings decide.  The helpers [validateFile],
    [getTokenFromHeader], [jwt.ValidateAndGetClaims], [createS3Client] and
    the post repository are declared outside the reviewed sources and are
    taken as they answer. *)
Record Env : Type :=
  { environ : gmap string string;
    read_file : File -> Z -> list N;
    detect_content_type : list N -> string;
    put_object : PutObjectInput -> PutObjectOutput * option error;
    validate_file : FileHeader -> option error;
    token_from_header : Request -> string;
    validate_and_get_claims : string -> string -> result MapClaims;
    create_s3_client : option error;
    create_post_fault : Post -> option error }.

Record World : Type := { env : Env; posts : list Post }.

Definition next_post_id (ps : list Post) : N :=
  N.succ (fold_right (fun p m => N.max (Post_ID p) m) 0%N ps).

(** Modelled from the spec: [PostRepository.CreatePost] is declared outside
    the reviewed sources; it is the one database insert of the handler, and
    the store fills in the key. *)
Definition create_post (post : Post) (w : World) : (Post * option error) * World :=
  match create_post_fault (env w) post with
  | Some e => ((post, Some e), w)
  | None =>
      let stored := set_Post_ID (next_post_id (posts w)) post in
      ((stored, None), {| env := env w; posts := posts w ++ [stored] |})
  end.

Definition exec (X : Type) (e : ioE X) (w : World) : X * World :=
  match e in ioE X return X * World with
  | Read file size => (read_file (env w) file size, w)
  | Getenv key => (default "" (environ (env w) !! key), w)
  | DetectContentType data => (detect_content_type (env w) data, w)
  | PutObject _ input => (put_object (env w) input, w)
  | ValidateFile fh => (validate_file (env w) fh, w)
  | GetTokenFromHeader c => (token_from_header (env w) c, w)
  | ValidateAndGetClaims token secret => (validate_and_get_claims (env w) token secret, w)
  | CreateS3Client => (create_s3_client (env w), w)
  | CreatePost post => create_post post w
  | JSON _ _ => (tt, w)
  end.

Abbreviation IOProg := (Prog ioE).

End IO.

(** ** The incident-report repository *)

Module IncidentReportRepo.
Import Gorm.
Import IO.

Definition DefaultPageSize : Z := 20.
Definition DefaultPage : Z := 1.

Definition user_id_is (userID : N) (r : Reward.t) : bool :=
  (Reward.UserID r =? userID)%N.

Definition UpdateReward (userID : N) (reward : Reward.t) : DBProg (option error) :=
  found ← call (First rewards (user_id_is userID));
  match found with
  | Err err =>
      if errors_Is err ErrRecordNotFound then
        created ← call (Create OnDB rewards reward);
        match created with
        | Some err => mret (Some err)
        | None => mret None
        end
      else mret (Some err)
  | Ok existingReward =>
      let existingReward := Reward.set_RewardType (Reward.RewardType reward) existingReward in
      let existingReward := Reward.set_Point (Reward.Point reward) existingReward in
      let existingReward :=
        Reward.set_IncidentReportID (Reward.IncidentReportID reward) existingReward in
      let existingReward :=
        if (Reward.Balance reward =? 0)%Z then existingReward
        else Reward.set_Balance (Reward.Balance reward) existingReward in
      saved ← call (Save rewards existingReward);
      match saved with
      | Some err => mret (Some err)
      | None => mret None
      end
  end.

Definition GetRewardByUserID (userID : N) : DBProg (result Reward.t) :=
  call (First rewards (user_id_is userID)).

(** *** Paginated listings *)

Definition state_is (state : string) (r : IncidentReport.t) : bool :=
  String.eqb (IncidentReport.StateName r) state.
Definition lga_is (lga : string) (r : IncidentReport.t) : bool :=
  String.eqb (IncidentReport.LGAName r) lga.
Definition report_type_is (reportType : string) (r : IncidentReport.t) : bool :=
  String.eqb (IncidentReport.ReportType r) reportType.
Definition state_is_between (state : string) (startTime endTime : Z)
    (r : IncidentReport.t) : bool :=
  String.eqb (IncidentReport.StateName r) state
  && (startTime <=? IncidentReport.TimeofIncidence r)%Z
  && (IncidentReport.TimeofIncidence r <=? endTime)%Z.

Definition timeof_incidence : IncidentReport.t -> Z := IncidentReport.TimeofIncidence.

Definition GetAllReports (page : Z) : DBProg (result (list IncidentReport.t)) :=
  let offset := int_mul (int_sub page 1) 20 in
  found ← call (Find incident_reports
                  (Order timeof_incidence DESC (Offset offset (Limit 20 Model_))));
  match found with
  | Err err =>
      if errors_Is err ErrRecordNotFound
      then mret (Err (New "no incident reports found"))
      else mret (Err err)
  | Ok reports => mret (Ok reports)
  end.

Definition GetAllReportsByState (state : string) (page : Z)
    : DBProg (result (list IncidentReport.t)) :=
  let offset := int_mul (int_sub page 1) DefaultPageSize in
  found ← call (Find incident_reports
                  (Offset offset (Limit DefaultPageSize
                     (Order timeof_incidence DESC (Where (state_is state) Model_)))));
  match found with
  | Err err => mret (Err err)
  | Ok reports => mret (Ok reports)
  end.

Definition GetAllReportsByStateByTime (state : string) (startTime endTime : Z) (page : Z)
    : DBProg (result (list IncidentReport.t)) :=
  let offset := int_mul (int_sub page 1) DefaultPageSize in
  found ← call (Find incident_reports
                  (Offset offset (Limit DefaultPageSize
                     (Order timeof_incidence DESC
                        (Where (state_is_between state startTime endTime) Model_)))));
  match found with
  | Err err => mret (Err err)
  | Ok reports => mret (Ok reports)
  end.

Definition GetAllReportsByLGA (lga : string) (page : Z)
    : DBProg (result (list IncidentReport.t)) :=
  let offset := int_mul (int_sub page 1) DefaultPageSize in
  found ← call (Find incident_reports
                  (Offset offset (Limit DefaultPageSize
                     (Order timeof_incidence DESC (Where (lga_is lga) Model_)))));
  match found with
  | Err err => mret (Err err)
  | Ok reports => mret (Ok reports)
  end.

Definition GetAllReportsByReportType (reportType : string) (page : Z)
    : DBProg (result (list IncidentReport.t)) :=
  let offset := int_mul (int_sub page 1) DefaultPageSize in
  found ← call (Find incident_reports
                  (Offset offset (Limit DefaultPageSize
                     (Order timeof_incidence DESC (Where (report_type_is reportType) Model_)))));
  match found with
  | Err err => mret (Err err)
  | Ok reports => mret (Ok reports)
  end.

(** *** The multi-entity save *)

Definition SaveStateLgaReportType (lga : LGA.t) (state : State.t)
    (reportType : ReportType.t) (subReport : SubReport.t) : DBProg (option error) :=
  call Begin;;
  e1 ← call (Create OnTx report_types reportType);
  match e1 with
  | Some err => call Rollback;; mret (Some err)
  | None =>
      e2 ← call (Create OnTx sub_reports subReport);
      match e2 with
      | Some err => call Rollback;; mret (Some err)
      | None =>
          e3 ← call (Create OnTx lgas lga);
          match e3 with
          | Some err => call Rollback;; mret (Some err)
          | None =>
              e4 ← call (Create OnTx states state);
              match e4 with
              | Some err => call Rollback;; mret (Some err)
              | None => call Commit
              end
          end
      end
  end.

(** *** Rating percentages *)

Record RatingPercentage : Type :=
  { GoodPercentage : float; BadPercentage : float }.

Definition category_state_is (reportType state : string) (r : ReportType.t) : bool :=
  String.eqb (ReportType.Category r) reportType
  && String.eqb (ReportType.StateName r) state.
Definition category_state_rating_is (reportType state rating : string)
    (r : ReportType.t) : bool :=
  String.eqb (ReportType.Category r) reportType
  && String.eqb (ReportType.StateName r) state
  && String.eqb (ReportType.IncidentReportRating r) rating.

Definition GetRatingPercentages (reportType state : string)
    : DBProg (result RatingPercentage) :=
  total ← call (Count report_types (category_state_is reportType state));
  match total with
  | Err err => mret (Err (Errorf "failed to fetch total count: %v" err))
  | Ok totalCount =>
      good ← call (Count report_types (category_state_rating_is reportType state "good"));
      match good with
      | Err err => mret (Err (Errorf "failed to fetch good count: %v" err))
      | Ok goodCount =>
          bad ← call (Count report_types (category_state_rating_is reportType state "bad"));
          match bad with
          | Err err => mret (Err (Errorf "failed to fetch bad count: %v" err))
          | Ok badCount =>
              let goodPercentage :=
                (float64_of_count goodCount / float64_of_count totalCount * 100)%float in
              let badPercentage :=
                (float64_of_count badCount / float64_of_count totalCount * 100)%float in
              mret (Ok {| GoodPercentage := goodPercentage;
                          BadPercentage := badPercentage |})
          end
      end
  end.

(** *** Object storage upload *)

Definition UploadFileToS3 (s : S3Handle) (file : File) (fileName : string) (size : Z)
    : IOProg (outcome (string * option error)) :=
  if makeslice_panics size then
    mret (Panicked "runtime error: makeslice: len out of range")
  else
    buffer ← call (Read file size);
    let url := "https://s3-eu-west-3.amazonaws.com/arp-rental/" +:+ fileName in
    bucket ← call (Getenv "S3_BUCKET_NAME");
    contentType ← call (DetectContentType buffer);
    out ← call (PutObject s
                  {| Bucket := bucket;
                     Key := fileName;
                     ACL := "public-read";
                     Body := buffer;
                     ContentLength := size;
                     ContentType := contentType;
                     ContentDisposition := "attachment";
                     ServerSideEncryption := "AES256";
                     StorageClass := "INTELLIGENT_TIERING" |});
    mret (Returned (url, snd out)).

End IncidentReportRepo.

(** ** The post creation handler *)

Module Server.
Import IO.

Definition StatusOK : Z := 200.
Definition StatusBadRequest : Z := 400.
Definition StatusUnauthorized : Z := 401.
Definition StatusInternalServerError : Z := 500.

Record Config : Type := { JWTSecret : string }.
Record Server : Type := { Config_ : Config }.

Section Handler.

(** What [uint(f)] yields for a claim value that [uint] cannot hold. *)
Variable uint_out_of_range : float -> N.

(** The public host of a bucket. *)
Variable bucketHost : string -> string.

(** Modelled from the spec: the helper [uploadFileToS3] of package
    [server] is declared outside the reviewed sources.  It buffers the
    whole content, detects the content type from the buffer, issues a
    single put-object call with a fixed ACL, storage class and server-side
    encryption, and returns the bucket host followed by the file name,
    whatever the object store answered. *)
Definition uploadFileToS3 (client : S3Handle) (file : File) (bucket filename : string)
    : IOProg (string * option error) :=
  buffer ← call (Read file (Z.of_nat (length file)));
  contentType ← call (DetectContentType buffer);
  out ← call (PutObject client
                {| Bucket := bucket;
                   Key := filename;
                   ACL := "public-read";
                   Body := buffer;
                   ContentLength := Z.of_nat (length buffer);
                   ContentType := contentType;
                   ContentDisposition := "attachment";
                   ServerSideEncryption := "AES256";
                   StorageClass := "INTELLIGENT_TIERING" |});
  mret (bucketHost bucket +:+ "/" +:+ filename, snd out).

Definition error_body (msg : string) : H := {[ "error" := HString msg ]}.

Definition handleCreatePost (s : Server) (c : Request) : IOProg unit :=
  match FormFile c "postImage" with
  | Err _ => call (JSON StatusBadRequest (error_body "Missing or invalid file"))
  | Ok (file, fileHeader) =>
      invalid ← call (ValidateFile fileHeader);
      match invalid with
      | Some err => call (JSON StatusBadRequest (error_body (Error err)))
      | None =>
          accessToken ← call (GetTokenFromHeader c);
          if String.eqb accessToken "" then
            call (JSON StatusUnauthorized (error_body "Unauthorized"))
          else
            let secret := JWTSecret (Config_ s) in
            validated ← call (ValidateAndGetClaims accessToken secret);
            match validated with
            | Err _ => call (JSON StatusUnauthorized (error_body "Unauthorized"))
            | Ok accessClaims =>
                match accessClaims !! "id" with
                | Some (JNumber userIDValue) =>
                    let userID := float64_to_uint uint_out_of_range userIDValue in
                    let title := PostForm c "title" in
                    let postCategory := PostForm c "post_category" in
                    let postDescription := PostForm c "post_description" in
                    if String.eqb title "" || String.eqb postCategory ""
                       || String.eqb postDescription "" then
                      call (JSON StatusBadRequest
                              (error_body "Title, category, and description are required"))
                    else
                      noClient ← call CreateS3Client;
                      match noClient with
                      | Some _ =>
                          call (JSON StatusInternalServerError
                                  (error_body "Failed to create S3 client"))
                      | None =>
                          let userIDString := FormatUint userID in
                          let filename := userIDString +:+ "_" +:+ Filename fileHeader in
                          bucket ← call (Getenv "AWS_BUCKET");
                          uploaded ← uploadFileToS3 Client_ file bucket filename;
                          match snd uploaded with
                          | Some _ =>
                              call (JSON StatusInternalServerError
                                      (error_body "Failed to upload file to S3"))
                          | None =>
                              let filepath := fst uploaded in
                              let post :=
                                {| Post_ID := 0;
                                   UserID := userID;
                                   Title := title;
                                   PostCategory := postCategory;
                                   Image := filepath;
                                   PostDescription := postDescription |} in
                              created ← call (CreatePost post);
                              match snd created with
                              | Some _ =>
                                  call (JSON StatusInternalServerError
                                          (error_body "Failed to create post"))
                              | None =>
                                  call (JSON StatusOK
                                          (<[ "message" := HString "Post created successfully" ]>
                                             {[ "post" := HPost (fst created) ]}))
                              end
                          end
                      end
                | _ =>
                    call (JSON StatusBadRequest (error_body "Invalid userID format"))
                end
            end
      end
  end.

End Handler.

End Server.

(** ** Reading a trace *)

Module Trace.
Import IO.

(** The status of a response written with [c.JSON]. *)
Definition status_of (e : entry ioE) : option Z :=
  match ev_call e with
  | JSON code _ => Some code
  | _ => None
  end.

Definition statuses (tr : list (entry ioE)) : list Z := omap status_of tr.

Definition is_CreatePost (e : entry ioE) : bool :=
  match ev_call e with
  | CreatePost _ => true
  | _ => false
  end.

Definition is_PutObject (e : entry ioE) : bool :=
  match ev_call e with
  | PutObject _ _ => true
  | _ => false
  end.

(** A call of the token validation that accepted the token. *)
Definition is_token_accepted (e : entry ioE) : bool :=
  match ev_call e in ioE X return X -> bool with
  | ValidateAndGetClaims _ _ =>
      fun answer => match answer with Ok _ => true | Err _ => false end
  | _ => fun _ => false
  end (ev_answer e).

(** The posts handed to the post repository. *)
Definition created_post (e : entry ioE) : option Post :=
  match ev_call e with
  | CreatePost p => Some p
  | _ => None
  end.

(** An insert statement that came back with an error. *)
Definition is_failed_Create (e : entry Gorm.stmt) : bool :=
  match ev_call e in Gorm.stmt X return X -> bool with
  | Gorm.Create _ _ _ =>
      fun answer => match answer with Some _ => true | None => false end
  | _ => fun _ => false
  end (ev_answer e).

Definition is_Rollback (e : entry Gorm.stmt) : bool :=
  match ev_call e with
  | Gorm.Rollback => true
  | _ => false
  end.

Definition is_Commit (e : entry Gorm.stmt) : bool :=
  match ev_call e with
  | Gorm.Commit => true
  | _ => false
  end.

(** The call of an entry without its arguments' values: what was called,
    on which handle and table. *)
Inductive sent : Type :=
| SBegin | SCommit | SRollback
| SCreate (h : Gorm.handle) (t : Gorm.table)
| SSave (t : Gorm.table)
| SFirst (t : Gorm.table)
| SFind (t : Gorm.table)
| SCount (t : Gorm.table).

Definition sent_of (e : entry Gorm.stmt) : sent :=
  match ev_call e with
  | Gorm.Begin => SBegin
  | Gorm.Commit => SCommit
  | Gorm.Rollback => SRollback
  | Gorm.Create h t _ => SCreate h t
  | Gorm.Save t _ => SSave t
  | Gorm.First t _ => SFirst t
  | Gorm.Find t _ => SFind t
  | Gorm.Count t _ => SCount t
  end.

End Trace.

(** The next [n] statements meet no failure of the store. *)
Definition quiet (n : nat) (w : Gorm.World) : Prop :=
  Forall (fun f : option string => f = None) (firstn n (Gorm.plan w)).

(** The next statement sent to the store comes back with an error. *)
Definition next_statement_fails (w : Gorm.World) : bool :=
  match Gorm.plan w with
  | Some _ :: _ => true
  | _ => false
  end.

(** ** The paginated listings, as the specification reads them *)

Module Paging.
Import Gorm IncidentReportRepo.

(** The rows a listing ranges over: those that meet the filter, latest
    incident first. *)
Definition result_set (c : IncidentReport.t -> bool) (d : DB) : list IncidentReport.t :=
  order_by timeof_incidence DESC (List.filter c (rows incident_reports d)).

(** [l] holds the rows at offsets (page-1)*20 .. page*20-1 of [rs], as far
    as [rs] has them. *)
Definition is_page {A} (rs : list A) (page : Z) (l : list A) : Prop :=
  (length l <= 20)%nat
  /\ forall i, (i < 20)%nat ->
       nth_error l i = nth_error rs (Z.to_nat ((page - 1) * 20) + i).

(** Listing [f] answers page [page] over the rows that meet [c]: no error,
    the rows of that page, and the empty list for a page past the end. *)
Definition serves_page (f : Z -> DBProg (result (list IncidentReport.t)))
    (c : IncidentReport.t -> bool) (page : Z) (w : World) : Prop :=
  exists l, result_of exec (f page) w = Ok l
    /\ is_page (result_set c (committed w)) page l
    /\ ((Z.of_nat (length (result_set c (committed w))) <= (page - 1) * 20)%Z -> l = []).

Definition any_report (r : IncidentReport.t) : bool := true.

(** [a] comes before [b] in descending order of the column. *)
Definition desc {T} (col : T -> Z) (a b : T) : Prop := (col b <= col a)%Z.

End Paging.

(** ** The handler's checks, as the specification reads them *)

Module HandlerSpec.
Import IO Server Trace.

(** The file is present and passes validation. *)
Definition file_ok (e : Env) (c : Request) : bool :=
  match files c !! "postImage" with
  | Some (_, fh) => match validate_file e fh with None => true | Some _ => false end
  | None => false
  end.

(** The bearer token is present and accepted. *)
Definition token_ok (e : Env) (s : Server.Server) (c : Request) : bool :=
  let token := token_from_header e c in
  negb (String.eqb token "")
  && match validate_and_get_claims e token (JWTSecret (Config_ s)) with
     | Ok _ => true
     | Err _ => false
     end.

(** Title, category and description are all non-empty. *)
Definition fields_ok (c : Request) : bool :=
  negb (String.eqb (PostForm c "title") "" || String.eqb (PostForm c "post_category") ""
        || String.eqb (PostForm c "post_description") "").

(** The file, the title, the category or the description is missing. *)
Definition input_missing (c : Request) : Prop :=
  files c !! "postImage" = None \/ PostForm c "title" = ""
  \/ PostForm c "post_category" = "" \/ PostForm c "post_description" = "".

(** Every put-object call of the trace comes after a token validation
    that accepted the token ([accepted]: one was already seen). *)
Fixpoint uploads_guarded (accepted : bool) (tr : list (entry ioE)) : bool :=
  match tr with
  | [] => true
  | e :: rest =>
      if is_PutObject e then accepted && uploads_guarded accepted rest
      else uploads_guarded (accepted || is_token_accepted e) rest
  end.
(** The host that [UploadFileToS3] of the repository builds its URL on. *)
Definition arp_rental_host : string := "https://s3-eu-west-3.amazonaws.com/arp-rental".

End HandlerSpec.

(** ** The reward update, as the specification reads it *)

Module RewardSpec.

(** Overwrite, not accumulate: the stored row keeps its key and its user;
    type, point and incident report come from the argument, and so does
    the balance unless the argument's balance is zero. *)
Definition overwrite (reward existing : Reward.t) : Reward.t :=
  {| Reward.ID := Reward.ID existing;
     Reward.UserID := Reward.UserID existing;
     Reward.RewardType := Reward.RewardType reward;
     Reward.Point := Reward.Point reward;
     Reward.Balance := if (Reward.Balance reward =? 0)%Z then Reward.Balance existing
                       else Reward.Balance reward;
     Reward.IncidentReportID := Reward.IncidentReportID reward |}.

End RewardSpec.

(** ** Sample data *)

Module Sample.
Import Gorm.

Definition reward_row : Reward.t := Reward.Build 1 7 "report" 10 5 "report-1".
Definition reward_arg : Reward.t := Reward.Build 0 7 "report" 10 3 "report-2".
Definition reward_arg2 : Reward.t := Reward.Build 0 7 "bonus" 25 40 "report-3".
Definition reward_world : World :=
  {| committed := set_rows rewards [reward_row] empty_db; txn := NoTx; plan := [] |}.

Definition report1 : IncidentReport.t :=
  IncidentReport.Build 1 7 "Lagos" "Ikeja" "Crime" "broken street light" ""
    "pending" 1700000000.

Definition world1 : World :=
  {| committed := set_rows incident_reports [report1] empty_db;
     txn := NoTx; plan := [] |}.

(** 2^62 + 1. *)
Definition huge_page : Z := 4611686018427387905.

Definition blacklisted_world : World :=
  {| committed := set_rows blacklists [Blacklist.Build 1 "revoked-token" 1700000000] empty_db;
     txn := NoTx; plan := [] |}.

Definition lga1 : LGA.t := LGA.Build 0 "Ikeja".
Definition state1 : State.t := State.Build 0 "Lagos".
Definition report_type1 : ReportType.t := ReportType.Build 0 "Crime" "Lagos" "good".
Definition sub_report1 : SubReport.t := SubReport.Build 0 "Theft" "Lagos" "ikeja" "Crime".

(** The third insert (the LGA) meets a failure of the store. *)
Definition failing_world : World :=
  {| committed := empty_db; txn := NoTx;
     plan := [None; None; None; Some "insert into lga failed"] |}.
Definition quiet_world : World :=
  {| committed := empty_db; txn := NoTx; plan := [] |}.

Definition png : IO.File := [137; 80; 78; 71]%N.
Definition photo : IO.FileHeader := {| IO.Filename := "photo.png"; IO.Size := 4 |}.
Definition claims42 : IO.MapClaims := {[ "id" := IO.JNumber 42 ]}.

Definition env0 : IO.Env :=
  {| IO.environ := {[ "AWS_BUCKET" := "citizenx" ]};
     IO.read_file := fun f _ => f;
     IO.detect_content_type := fun _ => "image/png";
     IO.put_object := fun _ => ({| IO.ETag := "etag"; IO.VersionId := "" |}, None);
     IO.validate_file := fun _ => None;
     IO.token_from_header := fun c => default "" (IO.headers c !! "Authorization");
     IO.validate_and_get_claims :=
       fun token _ => if String.eqb token "good" then Ok claims42
                      else Err (New "token is invalid");
     IO.create_s3_client := None;
     IO.create_post_fault := fun _ => None |}.

Definition server0 : Server.Server :=
  {| Server.Config_ := {| Server.JWTSecret := "secret" |} |}.
Definition oor0 (f : float) : N := 0%N.
Definition host0 (bucket : string) : string :=
  "https://" +:+ bucket +:+ ".s3.amazonaws.com".

Definition req_ok : IO.Request :=
  {| IO.files := {[ "postImage" := (png, photo) ]};
     IO.form := <[ "title" := "Pothole" ]>
                  (<[ "post_category" := "roads" ]>
                     {[ "post_description" := "deep pothole on the main road" ]});
     IO.headers := {[ "Authorization" := "good" ]} |}.

Definition req_no_title_no_token : IO.Request :=
  {| IO.files := {[ "postImage" := (png, photo) ]};
     IO.form := <[ "post_category" := "roads" ]>
                  {[ "post_description" := "deep pothole on the main road" ]};
     IO.headers := ∅ |}.

Definition req_no_file_no_token : IO.Request :=
  {| IO.files := ∅;
     IO.form := <[ "title" := "Pothole" ]>
                  (<[ "post_category" := "roads" ]>
                     {[ "post_description" := "deep pothole on the main road" ]});
     IO.headers := ∅ |}.

Definition io_world0 : IO.World := {| IO.env := env0; IO.posts := [] |}.

End Sample.

(** ** More of the ORM: inserts and saves that hand back the stored row,
    column updates *)

Module GormX.
Import Gorm.

(** The row as the store keeps it after an insert: a zero key is replaced
    by the next key. *)
Definition stored_row {T : Type} `{Model T} (r : T) (t : list T) : T :=
  if (pk r =? 0)%N then with_pk (next_id t) r else r.

(** UPDATE ... SET <some columns> WHERE c. *)
Definition update_where {T : Type} (c : T -> bool) (set : T -> T) (t : list T) : list T :=
  map (fun x => if c x then set x else x) t.

Definition user_eqb (a b : User.t) : bool :=
  (User.ID a =? User.ID b)%N
  && String.eqb (User.Email a) (User.Email b)
  && String.eqb (User.Username a) (User.Username b)
  && String.eqb (User.HashedPassword a) (User.HashedPassword b)
  && Bool.eqb (User.Online a) (User.Online b)
  && String.eqb (User.MacAddress a) (User.MacAddress b)
  && String.eqb (User.LGAName a) (User.LGAName b).

(** RowsAffected of an UPDATE: the rows the WHERE clause matched when the
    driver reports found rows, else only the matched rows whose value
    changed. *)
Definition rows_affected (found_rows : bool) (c : User.t -> bool) (set : User.t -> User.t)
    (t : list User.t) : Z :=
  count_where (fun x => c x && (found_rows || negb (user_eqb (set x) x))) t.

Inductive stmtX : Type -> Type :=
| CreateRow (t : table) (r : row t) : stmtX (row t * option error)
| SaveRow (t : table) (r : row t) : stmtX (row t * option error)
| UpdateUsers (c : User.t -> bool) (set : User.t -> User.t) : stmtX (Z * option error).

(** [Create(&r)] and [Save(&r)] write the key the store assigned back into
    the value behind the pointer. *)
Definition exec_store (t : table) (r : row t) (s : stmt (option error)) (w : World)
    : (row t * option error) * World :=
  let '(err, w') := exec _ s w in
  match err with
  | Some e => ((r, Some e), w')
  | None => ((@stored_row _ (row_model t) r (rows t (committed w)), None), w')
  end.

Definition exec_update (found_rows : bool) (c : User.t -> bool) (set : User.t -> User.t)
    (w : World) : (Z * option error) * World :=
  let '(fault, w1) := next_fault w in
  match fault with
  | Some e => ((0%Z, Some e), w1)
  | None =>
      let t := rows users (committed w1) in
      ((rows_affected found_rows c set t, None),
       with_committed (set_rows users (update_where c set t) (committed w1)) w1)
  end.

Section Exec.
(** Whether the driver reports the rows found rather than the rows changed. *)
Variable found_rows : bool.

Definition execX (X : Type) (s : stmtX X) (w : World) : X * World :=
  match s in stmtX X return X * World with
  | CreateRow t r => exec_store t r (Create OnDB t r) w
  | SaveRow t r => exec_store t r (Save t r) w
  | UpdateUsers c set => exec_update found_rows c set w
  end.
End Exec.

Abbreviation DBXProg := (Prog stmtX).

End GormX.

(** ** The auth repository: users *)

Module AuthRepoUsers.
Import Gorm GormX.

Definition set_Online (v : bool) (u : User.t) : User.t :=
  User.Build (User.ID u) (User.Email u) (User.Username u) (User.HashedPassword u) v
    (User.MacAddress u) (User.LGAName u).
Definition set_HashedPassword (v : string) (u : User.t) : User.t :=
  User.Build (User.ID u) (User.Email u) (User.Username u) v (User.Online u)
    (User.MacAddress u) (User.LGAName u).

Definition email_is (email : string) (u : User.t) : bool :=
  String.eqb (User.Email u) email.
Definition email_or_username_is (name : string) (u : User.t) : bool :=
  String.eqb (User.Email u) name || String.eqb (User.Username u) name.
Definition id_is (id : N) (u : User.t) : bool := (User.ID u =? id)%N.
Definition is_online (u : User.t) : bool := Bool.eqb (User.Online u) true.

(** [user] is a pointer: [None] is nil. *)
Definition CreateUser (user : option User.t) : DBXProg (result User.t) :=
  match user with
  | None => mret (Err (New "user is nil"))
  | Some u =>
      created ← call (CreateRow users u);
      match snd created with
      | Some err => mret (Err err)
      | None => mret (Ok (fst created))
      end
  end.

Definition FindUserByUsername (username : string) : DBProg (result User.t) :=
  found ← call (First users (email_or_username_is username));
  match found with
  | Err err => mret (Err (Errorf "could not find user: %v" err))
  | Ok user => mret (Ok user)
  end.

Definition IsEmailExist (email : string) : DBProg (option error) :=
  counted ← call (Count users (email_is email));
  match counted with
  | Err err =>
      if errors_Is err ErrRecordNotFound then mret None
      else mret (Some (Errorf "gorm count error: %v" err))
  | Ok count =>
      if (0 <? count)%Z then mret (Some (New "email already in use"))
      else mret None
  end.

Definition FindUserByEmail (email : string) : DBProg (result User.t) :=
  found ← call (First users (email_is email));
  match found with
  | Err err =>
      if errors_Is err ErrRecordNotFound then mret (Err (New "user not found"))
      else mret (Err (Errorf "error finding user by email: %w" err))
  | Ok user => mret (Ok user)
  end.

(** [Updates] with a struct sets the non-zero fields only: an empty
    password sets no column. *)
Definition UpdatePassword (password email : string) : DBXProg (option error) :=
  updated ← call (UpdateUsers (email_is email)
                    (if String.eqb password "" then (fun u => u)
                     else set_HashedPassword password));
  match snd updated with
  | Some err => mret (Some err)
  | None => mret None
  end.

Definition FindUserByID (id : N) : DBProg (result User.t) :=
  found ← call (First users (id_is id));
  match found with
  | Err err =>
      if errors_Is err ErrRecordNotFound then mret (Err (New "user not found"))
      else mret (Err err)
  | Ok user => mret (Ok user)
  end.

Definition UpdateUserStatus (user : User.t) : DBXProg (option error) :=
  updated ← call (UpdateUsers (id_is (User.ID user)) (set_Online (User.Online user)));
  mret (snd updated).

Definition UpdateUserOnlineStatus (user : User.t) : DBXProg (option error) :=
  updated ← call (UpdateUsers (id_is (User.ID user)) (set_Online (User.Online user)));
  match snd updated with
  | Some err => mret (Some err)
  | None =>
      if (fst updated =? 0)%Z then mret (Some (New "no rows affected"))
      else mret None
  end.

Definition SetUserOffline (user : User.t) : DBXProg (option error) :=
  updated ← call (UpdateUsers (id_is (User.ID user)) (set_Online false));
  match snd updated with
  | Some err => mret (Some err)
  | None =>
      if (fst updated =? 0)%Z then mret (Some (New "no rows affected"))
      else mret None
  end.

Definition GetOnlineUserCount : DBProg (result Z) :=
  counted ← call (Count users is_online);
  match counted with
  | Err err => mret (Err err)
  | Ok count => mret (Ok count)
  end.

Definition GetAllUsers : DBProg (result (list User.t)) :=
  found ← call (Find users Model_);
  match found with
  | Err err => mret (Err err)
  | Ok all => mret (Ok all)
  end.

End AuthRepoUsers.

(** ** The incident-report repository: reports, rewards, counts *)

Module IncidentReportRepoMore.
Import Gorm GormX IncidentReportRepo.

Definition SaveIncidentReport (report : IncidentReport.t)
    : DBXProg (result IncidentReport.t) :=
  created ← call (CreateRow incident_reports report);
  match snd created with
  | Some err => mret (Err (Errorf "failed to save report: %v" err))
  | None => mret (Ok (fst created))
  end.

Definition has_balance (userID : N) (r : Reward.t) : bool :=
  (Reward.UserID r =? userID)%N && (0 <? Reward.Balance r)%Z.

Definition HasPreviousReports (userID : N) : DBProg (bool * option error) :=
  found ← call (First rewards (has_balance userID));
  match found with
  | Err err =>
      if is_ErrRecordNotFound err then mret (false, None)
      else mret (false, Some (Errorf "could not find reward for user: %v" err))
  | Ok _ => mret (true, None)
  end.

Definition Save (report : IncidentReport.t) : DBProg (option error) :=
  call (Create OnDB incident_reports report).

Definition UpdateIncidentReport (report : IncidentReport.t)
    : DBXProg (result IncidentReport.t) :=
  saved ← call (SaveRow incident_reports report);
  match snd saved with
  | Some err => mret (Err (Errorf "failed to update report: %v" err))
  | None => mret (Ok (fst saved))
  end.

Definition any_user (u : User.t) : bool := true.
Definition lga_name_is (lga : string) (u : User.t) : bool :=
  String.eqb (User.LGAName u) lga.
Definition any_report_type (r : ReportType.t) : bool := true.

Definition GetTotalUserCount : DBProg (result Z) :=
  counted ← call (Count users any_user);
  match counted with
  | Err err => mret (Err err)
  | Ok count => mret (Ok count)
  end.

Definition GetRegisteredUsersCountByLGA (lga : string) : DBProg (result Z) :=
  counted ← call (Count users (lga_name_is lga));
  match counted with
  | Err err => mret (Err err)
  | Ok count => mret (Ok count)
  end.

Definition GetTotalReportCount : DBProg (result Z) :=
  counted ← call (Count report_types any_report_type);
  match counted with
  | Err err => mret (Err err)
  | Ok count => mret (Ok count)
  end.

End IncidentReportRepoMore.

(** ** The five paginated listings, named *)

Module Listings.
Import Gorm IncidentReportRepo Paging.

Inductive listing : Type :=
| All
| ByState (state : string)
| ByStateByTime (state : string) (startTime endTime : Z)
| ByLGA (lga : string)
| ByReportType (reportType : string).

Definition listing_fn (L : listing) : Z -> DBProg (result (list IncidentReport.t)) :=
  match L with
  | All => GetAllReports
  | ByState state => GetAllReportsByState state
  | ByStateByTime state startTime endTime => GetAllReportsByStateByTime state startTime endTime
  | ByLGA lga => GetAllReportsByLGA lga
  | ByReportType reportType => GetAllReportsByReportType reportType
  end.

(** The WHERE clause of each listing. *)
Definition listing_filter (L : listing) : IncidentReport.t -> bool :=
  match L with
  | All => any_report
  | ByState state => state_is state
  | ByStateByTime state startTime endTime => state_is_between state startTime endTime
  | ByLGA lga => lga_is lga
  | ByReportType reportType => report_type_is reportType
  end.

(** The conditions each listing hands to [Where]. *)
Definition listing_where (L : listing) : list (IncidentReport.t -> bool) :=
  match L with
  | All => []
  | _ => [listing_filter L]
  end.

(** No two of the numbers are equal. *)
Fixpoint all_distinct (l : list Z) : bool :=
  match l with
  | [] => true
  | x :: rest => negb (existsb (Z.eqb x) rest) && all_distinct rest
  end.

(** No two of the reports have the same time of incidence: ORDER BY
    leaves no choice to the store. *)
Definition distinct_times (l : list IncidentReport.t) : bool :=
  all_distinct (map timeof_incidence l).

(** The rows of an answer; none for an error. *)
Definition rows_of {A : Type} (r : result (list A)) : list A :=
  match r with
  | Ok l => l
  | Err _ => []
  end.

End Listings.

(** ** More trace reading *)

Module TraceMore.
Import IO.

Definition is_CreateS3Client (e : entry ioE) : bool :=
  match ev_call e with
  | CreateS3Client => true
  | _ => false
  end.

Definition is_JSON (e : entry ioE) : bool :=
  match ev_call e with
  | JSON _ _ => true
  | _ => false
  end.

(** The post in the body of a response, if there is one. *)
Definition response_post (e : entry ioE) : option Post :=
  match ev_call e with
  | JSON _ obj =>
      match obj !! "post" with
      | Some (HPost p) => Some p
      | _ => None
      end
  | _ => None
  end.

End TraceMore.

(** ** More sample data *)

Module SampleMore.
Import Gorm.

(** The reward store of [Sample.reward_world], about to fail. *)
Definition reward_world_down : World :=
  {| committed := set_rows rewards [Sample.reward_row] empty_db; txn := NoTx;
     plan := [Some "connection lost"] |}.

(** A first reward for user 9, and one for user 9 handed in under user 8. *)
Definition reward_new : Reward.t := Reward.Build 0 9 "report" 10 3 "report-4".

Definition report2 : IncidentReport.t :=
  IncidentReport.Build 0 8 "Lagos" "Ikeja" "Crime" "flooded road" ""
    "pending" 1700000500.
Definition report2_stored : IncidentReport.t :=
  IncidentReport.Build 2 8 "Lagos" "Ikeja" "Crime" "flooded road" ""
    "pending" 1700000500.

(** Forty-five reports of one state, each a second after the one before. *)
Definition many_reports : list IncidentReport.t :=
  map (fun i => IncidentReport.Build (N.of_nat i) 7 "Lagos" "Ikeja" "Crime" "pothole" ""
                  "pending" (1700000000 + Z.of_nat i)%Z) (seq 1 45).
Definition busy_world : World :=
  {| committed := set_rows incident_reports many_reports empty_db;
     txn := NoTx; plan := [] |}.

(** A report under a key that no stored report of [Sample.world1] has, and
    an edit of the report stored there. *)
Definition report5 : IncidentReport.t :=
  IncidentReport.Build 5 8 "Lagos" "Ikeja" "Crime" "flooded road" ""
    "pending" 1700000500.
Definition report1_edited : IncidentReport.t :=
  IncidentReport.Build 1 7 "Lagos" "Ikeja" "Crime" "street light repaired" ""
    "resolved" 1700000000.
(** The store of [Sample.world1]; its second statement fails. *)
Definition world1_second_fails : World :=
  {| committed := set_rows incident_reports [Sample.report1] empty_db;
     txn := NoTx; plan := [None; Some "connection lost"] |}.

Definition blacklisted_world_down : World :=
  {| committed := set_rows blacklists [Blacklist.Build 1 "revoked-token" 1700000000] empty_db;
     txn := NoTx; plan := [Some "connection lost"] |}.
Definition blacklist_entry : Blacklist.t := Blacklist.Build 0 "signed-out-token" 1700000100.

Definition user_new : User.t :=
  User.Build 0 "ada@example.com" "ada" "hash-1" true "" "Ikeja".
Definition user_ada : User.t :=
  User.Build 1 "ada@example.com" "ada" "hash-1" true "" "Ikeja".
Definition user_bob : User.t :=
  User.Build 2 "bob@example.com" "bob" "hash-2" false "" "Surulere".
Definition users_world : World :=
  {| committed := set_rows users [user_ada; user_bob] empty_db; txn := NoTx; plan := [] |}.
(** A user that is not stored. *)
Definition user_eve : User.t :=
  User.Build 5 "eve@example.com" "eve" "hash-5" true "" "Ikeja".

(** Four report types of one category and state, one rated good and
    three rated bad, and one of another category. *)
Definition rated_world : World :=
  {| committed :=
       set_rows report_types
         [ReportType.Build 1 "Crime" "Lagos" "good"; ReportType.Build 2 "Crime" "Lagos" "bad";
          ReportType.Build 3 "Crime" "Lagos" "bad"; ReportType.Build 4 "Crime" "Lagos" "bad";
          ReportType.Build 5 "Fire" "Lagos" "good"] empty_db;
     txn := NoTx; plan := [] |}.

(** User 7 with two reward rows. *)
Definition reward_row_b : Reward.t := Reward.Build 2 7 "referral" 4 9 "report-0".
Definition two_rows_world : World :=
  {| committed := set_rows rewards [Sample.reward_row; reward_row_b] empty_db;
     txn := NoTx; plan := [] |}.

(** The post repository fails. *)
Definition env_db_down : IO.Env :=
  {| IO.environ := IO.environ Sample.env0;
     IO.read_file := IO.read_file Sample.env0;
     IO.detect_content_type := IO.detect_content_type Sample.env0;
     IO.put_object := IO.put_object Sample.env0;
     IO.validate_file := IO.validate_file Sample.env0;
     IO.token_from_header := IO.token_from_header Sample.env0;
     IO.validate_and_get_claims := IO.validate_and_get_claims Sample.env0;
     IO.create_s3_client := IO.create_s3_client Sample.env0;
     IO.create_post_fault := fun _ => Some (New "insert into posts failed") |}.

(** The token carries its id as a string. *)
Definition claims_text_id : IO.MapClaims := {[ "id" := IO.JString "42" ]}.
Definition env_text_id : IO.Env :=
  {| IO.environ := IO.environ Sample.env0;
     IO.read_file := IO.read_file Sample.env0;
     IO.detect_content_type := IO.detect_content_type Sample.env0;
     IO.put_object := IO.put_object Sample.env0;
     IO.validate_file := IO.validate_file Sample.env0;
     IO.token_from_header := IO.token_from_header Sample.env0;
     IO.validate_and_get_claims := fun _ _ => Ok claims_text_id;
     IO.create_s3_client := IO.create_s3_client Sample.env0;
     IO.create_post_fault := IO.create_post_fault Sample.env0 |}.

End SampleMore.

(** * Properties *)

Import Gorm.

(** ** The Go values, on examples *)

Lemma TrimSpace_example :
  Strings.TrimSpace (String (ascii_of_N 9) "  abc ") = "abc"
  /\ Strings.TrimSpace (String (ascii_of_N 194) (String (ascii_of_N 160) "tok")) = "tok"
  /\ Strings.TrimSpace "a b" = "a b".
Proof. repeat split. Qed.

Lemma float64_to_uint_example (oor : float -> N) :
  float64_to_uint oor 42 = 42%N
  /\ float64_to_uint oor 42.5 = 42%N
  /\ float64_to_uint oor (-0.5) = 0%N
  /\ float64_to_uint oor (-3) = oor (-3)%float
  /\ float64_to_uint oor 18446744073709551616 = oor 18446744073709551616%float
  /\ float64_to_uint oor nan = oor nan.
Proof. repeat split. Qed.

Lemma FormatUint_example :
  FormatUint 0 = "0" /\ FormatUint 42 = "42" /\ FormatUint 18446744073709551615 = "18446744073709551615".
Proof. repeat split. Qed.

Lemma wrap64_example :
  wrap64 (2 ^ 63) = (- 2 ^ 63)%Z /\ wrap64 (20 * 2 ^ 62) = 0%Z /\ wrap64 (-1) = (-1)%Z.
Proof. repeat split. Qed.

Lemma Error_example :
  Error (Errorf "failed to fetch total count: %v" (New "connection refused"))
  = "failed to fetch total count: connection refused".
Proof. reflexivity. Qed.

Lemma Errorf_wrap_example :
  Error (Errorf "error finding user by email: %w" (New "connection refused"))
  = "error finding user by email: connection refused"
  /\ errors_Is (Errorf "lookup: %w" ErrRecordNotFound) ErrRecordNotFound = true
  /\ errors_Is (Errorf "lookup: %v" ErrRecordNotFound) ErrRecordNotFound = false
  /\ is_ErrRecordNotFound (Errorf "lookup: %w" ErrRecordNotFound) = false.
Proof. repeat split. Qed.

(** ** Auth repository *)

Section AuthRepoFacts.
Import AuthRepo.

Lemma next_fault_quiet w n :
  quiet (S n) w -> exists w1, next_fault w = (None, w1)
    /\ committed w1 = committed w /\ txn w1 = txn w /\ quiet n w1.
Proof.
  unfold quiet, next_fault. destruct w as [d x p]; simpl.
  destruct p as [|f p]; simpl; intros Hq.
  - eexists; split; [reflexivity|]. simpl. repeat split; auto.
    destruct n; constructor.
  - inversion Hq; subst. eexists; split; [reflexivity|]. simpl. auto.
Qed.

(** C9. [UpdateUser] returns nil for every user without sending any
    statement to the store: the world, and so every stored user record, is
    what it was before the call. *)
Theorem UpdateUser_is_noop (user : User.t) (w : World) :
  result_of exec (UpdateUser user) w = None
  /\ trace_of exec (UpdateUser user) w = []
  /\ world_of exec (UpdateUser user) w = w
  /\ rows users (committed (world_of exec (UpdateUser user) w)) = rows users (committed w).
Proof. repeat split. Qed.

Lemma count_where_pos {T} (c : T -> bool) (t : list T) (r : T) :
  In r t -> c r = true -> (0 < count_where c t)%Z.
Proof.
  intros Hin Hc. unfold count_where.
  assert (In r (List.filter c t)) as Hf by (apply filter_In; auto).
  destruct (List.filter c t); [destruct Hf | simpl; lia].
Qed.

Lemma count_where_zero_of_weaker {T} (c1 c2 : T -> bool) (t : list T) :
  (forall r, c2 r = true -> c1 r = true) ->
  count_where c1 t = 0%Z -> count_where c2 t = 0%Z.
Proof.
  intros Himp. unfold count_where. induction t as [|r t IH]; simpl; auto.
  destruct (c1 r) eqn:E1; simpl; [lia|].
  destruct (c2 r) eqn:E2; [apply Himp in E2; congruence|]. auto.
Qed.

(** C8. [TokenInBlacklist] answers true exactly when its query comes back
    with an error.  When the query goes through it answers false, also for
    a token that is stored in the blacklist table, whereas
    [IsTokenInBlacklist] counts the matching rows and answers true. *)
Theorem TokenInBlacklist_reports_query_error_only (token : string) (w : World) :
  result_of exec (TokenInBlacklist token) w = next_statement_fails w
  /\ (forall b, In b (rows blacklists (committed w)) ->
        Blacklist.Token b = token ->
        next_statement_fails w = false ->
        result_of exec (TokenInBlacklist token) w = false)
  /\ (forall b, In b (rows blacklists (committed w)) ->
        Blacklist.Token b = normalizeToken token ->
        next_statement_fails w = false ->
        result_of exec (IsTokenInBlacklist token) w = true).
Proof.
  assert (result_of exec (TokenInBlacklist token) w = next_statement_fails w) as Hres.
  { unfold result_of, next_statement_fails. destruct w as [d x p].
    destruct p as [|[msg|] p]; reflexivity. }
  split; [exact Hres|]. split.
  - intros b _ _ Hok. rewrite Hres. exact Hok.
  - intros b Hin Htok Hok.
    assert (0 < count_where (token_is (normalizeToken token)) (rows blacklists (committed w)))%Z
      as Hpos.
    { apply (count_where_pos _ _ b); auto. unfold token_is. rewrite Htok.
      apply String.eqb_refl. }
    unfold result_of, next_statement_fails in *. destruct w as [d x p].
    destruct p as [|[msg|] p]; simpl in *; try discriminate; lia.
Qed.

Lemma TokenInBlacklist_example :
  result_of exec (TokenInBlacklist "revoked-token") Sample.blacklisted_world = false
  /\ result_of exec (IsTokenInBlacklist " revoked-token ") Sample.blacklisted_world = true
  /\ result_of exec (IsTokenInBlacklist "other-token") Sample.blacklisted_world = false.
Proof. repeat split. Qed.

End AuthRepoFacts.

(** ** Incident-report repository *)

Section IncidentReportRepoFacts.
Import IncidentReportRepo.

Lemma exec_read_quiet {A} (f : DB -> result A) w n :
  quiet (S n) w ->
  exists w1, exec_read f w = (f (committed w), w1)
    /\ committed w1 = committed w /\ txn w1 = txn w /\ quiet n w1.
Proof.
  intros Hq. destruct (next_fault_quiet w n Hq) as (w1 & Hnf & Hc & Ht & Hq1).
  exists w1. unfold exec_read. rewrite Hnf, Hc. auto.
Qed.

Lemma category_state_rating_weaker reportType state rating r :
  category_state_rating_is reportType state rating r = true ->
  category_state_is reportType state r = true.
Proof.
  unfold category_state_rating_is, category_state_is.
  intros Hr. apply andb_prop in Hr. tauto.
Qed.

Lemma GetRatingPercentages_quiet reportType state w :
  quiet 3 w ->
  result_of exec (GetRatingPercentages reportType state) w =
    let t := rows report_types (committed w) in
    let totalCount := count_where (category_state_is reportType state) t in
    let goodCount := count_where (category_state_rating_is reportType state "good") t in
    let badCount := count_where (category_state_rating_is reportType state "bad") t in
    Ok {| GoodPercentage :=
            (float64_of_count goodCount / float64_of_count totalCount * 100)%float;
          BadPercentage :=
            (float64_of_count badCount / float64_of_count totalCount * 100)%float |}.
Proof.
  intros Hq. unfold result_of, GetRatingPercentages. cbn -[count_where float64_of_count].
  destruct (exec_read_quiet
              (fun d => Ok (count_where (category_state_is reportType state)
                              (rows report_types d))) w 2 Hq)
    as (w1 & E1 & C1 & _ & Q1).
  cbn in E1. rewrite E1. cbn -[count_where float64_of_count].
  destruct (exec_read_quiet
              (fun d => Ok (count_where (category_state_rating_is reportType state "good")
                              (rows report_types d))) w1 1 Q1)
    as (w2 & E2 & C2 & _ & Q2).
  cbn in E2. rewrite E2. cbn -[count_where float64_of_count].
  destruct (exec_read_quiet
              (fun d => Ok (count_where (category_state_rating_is reportType state "bad")
                              (rows report_types d))) w2 0 Q2)
    as (w3 & E3 & C3 & _ & Q3).
  cbn in E3. rewrite E3. cbn -[count_where float64_of_count].
  rewrite C2, C1. reflexivity.
Qed.

(** C10. [GetRatingPercentages] returns, when its three count queries go
    through, the good and the bad count each divided by the total count
    and multiplied by 100, in float64, with no guard on a zero total: for
    a category and state that match no report-type row it returns a result
    and no error, and both percentages are the not-a-number that 0/0
    gives (neither zero nor a failure). *)
Theorem GetRatingPercentages_zero_total_is_NaN (reportType state : string) (w : World) :
  quiet 3 w ->
  let t := rows report_types (committed w) in
  let totalCount := count_where (category_state_is reportType state) t in
  let goodCount := count_where (category_state_rating_is reportType state "good") t in
  let badCount := count_where (category_state_rating_is reportType state "bad") t in
  result_of exec (GetRatingPercentages reportType state) w =
    Ok {| GoodPercentage :=
            (float64_of_count goodCount / float64_of_count totalCount * 100)%float;
          BadPercentage :=
            (float64_of_count badCount / float64_of_count totalCount * 100)%float |}
  /\ (totalCount = 0%Z ->
      result_of exec (GetRatingPercentages reportType state) w =
        Ok {| GoodPercentage := nan; BadPercentage := nan |})
  /\ (0 / 0 * 100 = nan)%float
  /\ PrimFloat.eqb nan 0 = false.
Proof.
  intros Hq t totalCount goodCount badCount.
  pose proof (GetRatingPercentages_quiet reportType state w Hq) as Hres. cbv zeta in Hres.
  split; [exact Hres|]. split; [|split; reflexivity].
  intros Hzero. rewrite Hres. subst t totalCount goodCount badCount.
  rewrite (count_where_zero_of_weaker _ _ _ (category_state_rating_weaker _ _ "good") Hzero).
  rewrite (count_where_zero_of_weaker _ _ _ (category_state_rating_weaker _ _ "bad") Hzero).
  rewrite Hzero. reflexivity.
Qed.

(** Case analysis over the scheduled failures and the outcome of each
    insert. *)
Ltac by_store_cases :=
  repeat (cbn -[insert] in *; unfold next_fault, write_table; cbn -[insert] in *;
          match goal with
          | |- context [match ?p with [] => _ | _ :: _ => _ end] =>
              is_var p; destruct p as [|[?|] ?]
          | |- context [insert ?r ?t] => destruct (insert r t) eqn:?
          end).

(** Four inserts that the tables accept, on a store that answers the six
    statements, all run and are committed. *)
Lemma SaveStateLgaReportType_goes_through lga state reportType subReport w l1 l2 l3 l4 :
  quiet 6 w ->
  insert reportType (rows report_types (committed w)) = Ok l1 ->
  insert subReport (rows sub_reports (committed w)) = Ok l2 ->
  insert lga (rows lgas (committed w)) = Ok l3 ->
  insert state (rows states (committed w)) = Ok l4 ->
  let p := SaveStateLgaReportType lga state reportType subReport in
  result_of exec p w = None
  /\ committed (world_of exec p w) =
       set_rows states l4 (set_rows lgas l3
         (set_rows sub_reports l2 (set_rows report_types l1 (committed w))))
  /\ map Trace.sent_of (trace_of exec p w) =
       [Trace.SBegin; Trace.SCreate OnTx report_types; Trace.SCreate OnTx sub_reports;
        Trace.SCreate OnTx lgas; Trace.SCreate OnTx states; Trace.SCommit].
Proof.
  intros Hq H1 H2 H3 H4 p. subst p.
  unfold result_of, world_of, trace_of, SaveStateLgaReportType.
  destruct w as [d x p]. unfold quiet in Hq. cbn -[insert firstn] in Hq, H1, H2, H3, H4.
  assert (forall (n : nat) (q : list (option string)),
            Forall (fun f : option string => f = None) (firstn (S n) q) ->
            q = [] \/ exists q', q = None :: q'
                                /\ Forall (fun f : option string => f = None) (firstn n q'))
    as Hstep.
  { intros n q Hf. destruct q as [|f q]; [left; reflexivity|]. right.
    cbn in Hf. inversion Hf; subst. eexists. split; [reflexivity|assumption]. }
  repeat match goal with
         | H : Forall _ (firstn (S _) ?q) |- _ =>
             apply Hstep in H; destruct H as [->|(? & -> & H)]
         end.
  all: repeat (cbn -[insert]; unfold next_fault, write_table; cbn -[insert];
               progress rewrite ?H1, ?H2, ?H3, ?H4).
  all: cbn -[insert]; repeat split.
Qed.

(** C6. [SaveStateLgaReportType] is atomic.  It begins a transaction and
    sends the insert of the report type; the committed store afterwards is
    either what it was (and an error is returned) or it holds all four new
    rows (and nil is returned).  An insert that fails is followed by a
    rollback and never by a commit, so none of the four rows is committed;
    four inserts that go through are followed by the commit.  When the
    store answers and the tables accept the four rows, the four inserts
    are sent in the order report type, sub-report, LGA, state, the commit
    follows, nil is returned and the four rows are committed. *)
Theorem SaveStateLgaReportType_atomic
    (lga : LGA.t) (state : State.t) (reportType : ReportType.t)
    (subReport : SubReport.t) (w : World) :
  let p := SaveStateLgaReportType lga state reportType subReport in
  let d := committed w in
  txn (world_of exec p w) = NoTx
  /\ (result_of exec p w <> None /\ committed (world_of exec p w) = d
      \/ result_of exec p w = None
         /\ exists l1 l2 l3 l4,
              insert reportType (rows report_types d) = Ok l1
              /\ insert subReport (rows sub_reports d) = Ok l2
              /\ insert lga (rows lgas d) = Ok l3
              /\ insert state (rows states d) = Ok l4
              /\ committed (world_of exec p w) =
                   set_rows states l4 (set_rows lgas l3
                     (set_rows sub_reports l2 (set_rows report_types l1 d))))
  /\ (existsb Trace.is_failed_Create (trace_of exec p w) = true ->
      result_of exec p w <> None
      /\ committed (world_of exec p w) = d
      /\ existsb Trace.is_Rollback (trace_of exec p w) = true
      /\ existsb Trace.is_Commit (trace_of exec p w) = false)
  /\ (existsb Trace.is_failed_Create (trace_of exec p w) = false ->
      existsb Trace.is_Commit (trace_of exec p w) = true
      /\ existsb Trace.is_Rollback (trace_of exec p w) = false)
  /\ map Trace.sent_of (firstn 2 (trace_of exec p w))
     = [Trace.SBegin; Trace.SCreate OnTx report_types]
  /\ (quiet 6 w ->
      forall l1 l2 l3 l4,
        insert reportType (rows report_types d) = Ok l1 ->
        insert subReport (rows sub_reports d) = Ok l2 ->
        insert lga (rows lgas d) = Ok l3 ->
        insert state (rows states d) = Ok l4 ->
        result_of exec p w = None
        /\ committed (world_of exec p w) =
             set_rows states l4 (set_rows lgas l3
               (set_rows sub_reports l2 (set_rows report_types l1 d)))
        /\ map Trace.sent_of (trace_of exec p w) =
             [Trace.SBegin; Trace.SCreate OnTx report_types;
              Trace.SCreate OnTx sub_reports; Trace.SCreate OnTx lgas;
              Trace.SCreate OnTx states; Trace.SCommit]).
Proof.
  intros p d. subst p d.
  assert (forall A B C D E F : Prop, A /\ B /\ C /\ D /\ E -> F -> A /\ B /\ C /\ D /\ E /\ F)
    as Hand by tauto.
  apply Hand.
  2: { intros Hq l1 l2 l3 l4 H1 H2 H3 H4.
       exact (SaveStateLgaReportType_goes_through lga state reportType subReport w
                l1 l2 l3 l4 Hq H1 H2 H3 H4). }
  unfold result_of, world_of, trace_of, SaveStateLgaReportType.
  destruct w as [d x p]. by_store_cases.
  all: split; [reflexivity|].
  all: split;
    [ first [ left; split; [discriminate|reflexivity]
            | right; split; [reflexivity|];
              do 4 eexists; repeat split; eassumption ] |].
  all: split; [intros Hx; try discriminate; repeat split; discriminate|].
  all: split; [intros Hx; try discriminate; repeat split; discriminate|].
  all: reflexivity.
Qed.

Lemma SaveStateLgaReportType_atomic_witness :
  let p := SaveStateLgaReportType Sample.lga1 Sample.state1 Sample.report_type1
             Sample.sub_report1 in
  result_of exec p Sample.quiet_world = None
  /\ committed (world_of exec p Sample.quiet_world) =
       {| t_rewards := []; t_blacklists := []; t_users := []; t_incident_reports := [];
          t_report_types := [ReportType.set_ID 1 Sample.report_type1];
          t_sub_reports := [SubReport.set_ID 1 Sample.sub_report1];
          t_lgas := [LGA.set_ID 1 Sample.lga1];
          t_states := [State.set_ID 1 Sample.state1] |}
  /\ map Trace.sent_of (trace_of exec p Sample.quiet_world) =
       [Trace.SBegin; Trace.SCreate OnTx report_types; Trace.SCreate OnTx sub_reports;
        Trace.SCreate OnTx lgas; Trace.SCreate OnTx states; Trace.SCommit].
Proof.
  exact (proj2 (proj2 (proj2 (proj2 (proj2
           (SaveStateLgaReportType_atomic Sample.lga1 Sample.state1 Sample.report_type1
              Sample.sub_report1 Sample.quiet_world)))))
           (List.Forall_nil _) _ _ _ _ eq_refl eq_refl eq_refl eq_refl).
Defined.

Lemma SaveStateLgaReportType_example :
  let p := SaveStateLgaReportType Sample.lga1 Sample.state1 Sample.report_type1
             Sample.sub_report1 in
  result_of exec p Sample.failing_world = Some (New "insert into lga failed")
  /\ committed (world_of exec p Sample.failing_world) = empty_db
  /\ result_of exec p Sample.quiet_world = None
  /\ committed (world_of exec p Sample.quiet_world) =
       {| t_rewards := []; t_blacklists := []; t_users := []; t_incident_reports := [];
          t_report_types := [ReportType.set_ID 1 Sample.report_type1];
          t_sub_reports := [SubReport.set_ID 1 Sample.sub_report1];
          t_lgas := [LGA.set_ID 1 Sample.lga1];
          t_states := [State.set_ID 1 Sample.state1] |}.
Proof. repeat split. Qed.

Lemma GetRatingPercentages_zero_total_is_NaN_witness :
  result_of exec (GetRatingPercentages "Crime" "Lagos") SampleMore.rated_world =
    Ok {| GoodPercentage := 25; BadPercentage := 75 |}
  /\ result_of exec (GetRatingPercentages "Crime" "Lagos") Sample.world1 =
       Ok {| GoodPercentage := nan; BadPercentage := nan |}.
Proof.
  split.
  - exact (proj1 (GetRatingPercentages_zero_total_is_NaN "Crime" "Lagos"
                    SampleMore.rated_world (List.Forall_nil _))).
  - exact (proj1 (proj2 (GetRatingPercentages_zero_total_is_NaN "Crime" "Lagos"
                           Sample.world1 (List.Forall_nil _))) eq_refl).
Defined.

End IncidentReportRepoFacts.

(** ** Paginated listings *)

Section PagingFacts.
Import IncidentReportRepo Paging.

Lemma result_of_bind_call {E : Type -> Type} {W X R : Type}
    (h : forall X, E X -> W -> X * W) (e : E X) (k : X -> Prog E R) (w : W) :
  result_of h (call e ≫= k) w = result_of h (k (h _ e w).1) (h _ e w).2.
Proof.
  unfold result_of. cbn. destruct (h X e w) as [x w1]. cbn.
  destruct (run h (k x) w1) as [[r w2] tr]. reflexivity.
Qed.

Lemma wrap64_id z : is_int z -> wrap64 z = z.
Proof.
  unfold is_int, wrap64. intros Hz.
  rewrite Z.mod_small by lia. lia.
Qed.

Lemma page_offset page :
  (1 <= page)%Z -> ((page - 1) * 20 < 2 ^ 63)%Z ->
  int_mul (int_sub page 1) 20 = ((page - 1) * 20)%Z.
Proof.
  intros H1 H2. unfold int_mul, int_sub.
  rewrite (wrap64_id (page - 1)) by (unfold is_int; lia).
  apply wrap64_id. unfold is_int. lia.
Qed.

Lemma is_page_take_drop {A} (rs : list A) page :
  is_page rs page (firstn 20 (skipn (Z.to_nat ((page - 1) * 20)) rs)).
Proof.
  split.
  - apply firstn_le_length.
  - intros i Hi. rewrite nth_error_firstn.
    destruct (Nat.ltb_spec i 20); [|lia]. apply nth_error_skipn.
Qed.

Lemma take_drop_past_end {A} (rs : list A) (k n : nat) :
  (length rs <= k)%nat -> firstn n (skipn k rs) = [].
Proof.
  intros Hk. rewrite skipn_all2 by exact Hk. apply firstn_nil.
Qed.

Section Ordering.
Context {T : Type} (col : T -> Z).

Lemma place_perm r l : Permutation (place col DESC r l) (r :: l).
Proof.
  induction l as [|x l IH]; simpl; auto.
  destruct (col x <=? col r)%Z; auto.
  rewrite IH. apply perm_swap.
Qed.

Lemma order_by_perm l : Permutation (order_by col DESC l) l.
Proof.
  induction l as [|x l IH]; simpl; auto.
  rewrite place_perm. auto.
Qed.

Lemma place_sorted r l : Sorted (desc col) l -> Sorted (desc col) (place col DESC r l).
Proof.
  induction 1 as [|x l Hs IH Hhd]; simpl.
  - repeat constructor.
  - destruct (Z.leb_spec (col x) (col r)).
    + repeat constructor; auto.
    + constructor; auto.
      destruct l as [|y l]; simpl.
      * repeat constructor. unfold desc. lia.
      * inversion Hhd; subst. destruct (col y <=? col r)%Z; constructor; unfold desc in *; lia.
Qed.

Lemma order_by_sorted l : Sorted (desc col) (order_by col DESC l).
Proof.
  induction l as [|x l IH]; simpl; [constructor|]. apply place_sorted, IH.
Qed.
End Ordering.

Lemma select_paged {T} (cs : list (T -> bool)) (col : T -> Z) (off : Z) (t : list T) q :
  q_where q = cs -> q_order q = Some (col, DESC) -> q_limit q = Some 20%Z ->
  q_offset q = off -> (0 <= off)%Z ->
  select q t = firstn 20 (skipn (Z.to_nat off) (order_by col DESC (List.filter (matches cs) t))).
Proof.
  intros Hw Ho Hl Hoff Hpos. unfold select. rewrite Hw, Ho, Hl, Hoff.
  change (0 <=? 20)%Z with true. cbv iota.
  destruct (Z.ltb_spec 0 off); [reflexivity|].
  replace off with 0%Z by lia. reflexivity.
Qed.

Lemma filter_matches_nil {T} (t : list T) : List.filter (matches []) t = t.
Proof. induction t; simpl; congruence. Qed.

Lemma filter_matches_one {T} (c : T -> bool) (t : list T) :
  List.filter (matches [c]) t = List.filter c t.
Proof.
  apply filter_ext. intros r. unfold matches. simpl. apply andb_true_r.
Qed.

Lemma filter_any (t : list IncidentReport.t) : List.filter any_report t = t.
Proof. induction t; simpl; congruence. Qed.

Lemma find_quiet (q : Query IncidentReport.t) w :
  quiet 1 w ->
  exists w1, exec _ (Find incident_reports q) w = (Ok (select q (rows incident_reports (committed w))), w1).
Proof.
  intros Hq. destruct (next_fault_quiet w 0 Hq) as (w1 & Hnf & Hc & _).
  exists w1. cbn. unfold exec_read. rewrite Hnf, Hc. reflexivity.
Qed.

Lemma serves_page_of_select f c page w q cs :
  (1 <= page)%Z -> ((page - 1) * 20 < 2 ^ 63)%Z -> quiet 1 w ->
  (forall w1 l, exec _ (Find incident_reports q) w = (Ok l, w1) -> result_of exec (f page) w = Ok l) ->
  q_where q = cs -> q_order q = Some (timeof_incidence, DESC) -> q_limit q = Some 20%Z ->
  q_offset q = int_mul (int_sub page 1) 20 ->
  (forall t, List.filter (matches cs) t = List.filter c t) ->
  serves_page f c page w.
Proof.
  intros H1 H2 Hq Hf Hw Ho Hl Hoff Hc.
  destruct (find_quiet q w Hq) as (w1 & E).
  rewrite page_offset in Hoff by assumption.
  rewrite (select_paged cs timeof_incidence ((page - 1) * 20)%Z) in E by (auto; lia).
  rewrite Hc in E. eexists. split; [eapply Hf; exact E|]. split.
  - apply is_page_take_drop.
  - intros Hpast. apply take_drop_past_end.
    change (length (result_set c (committed w)) <= Z.to_nat ((page - 1) * 20))%nat. lia.
Qed.

(** C7 (amended). For every page number N >= 1 whose offset (N-1)*20 fits
    the machine integer, and a query that goes through, each paginated
    listing ([GetAllReports] and the variants filtered by state, by state
    and time window, by LGA and by report type) returns without error the
    rows at offsets (N-1)*20 .. N*20-1 of the matching rows ordered by time
    of incidence descending, and the empty list when the page lies past the
    end of the data. *)
Theorem paginated_listings (page : Z) (w : World) :
  (1 <= page)%Z -> ((page - 1) * 20 < 2 ^ 63)%Z -> quiet 1 w ->
  serves_page GetAllReports any_report page w
  /\ (forall state, serves_page (GetAllReportsByState state) (state_is state) page w)
  /\ (forall state startTime endTime,
        serves_page (GetAllReportsByStateByTime state startTime endTime)
          (state_is_between state startTime endTime) page w)
  /\ (forall lga, serves_page (GetAllReportsByLGA lga) (lga_is lga) page w)
  /\ (forall reportType,
        serves_page (GetAllReportsByReportType reportType) (report_type_is reportType) page w)
  /\ (forall c, Sorted (desc timeof_incidence) (result_set c (committed w))
                /\ Permutation (result_set c (committed w))
                     (List.filter c (rows incident_reports (committed w)))).
Proof.
  intros H1 H2 Hq.
  pose (off := int_mul (int_sub page 1) 20).
  split; [|split; [|split; [|split; [|split]]]]; intros.
  - apply (serves_page_of_select _ _ _ _
             (Order timeof_incidence DESC (Offset off (Limit 20 Model_))) []);
      [assumption | assumption | assumption | | reflexivity ..
      | intros t; rewrite filter_matches_nil, filter_any; reflexivity ].
    intros w1 l E. unfold GetAllReports. rewrite result_of_bind_call. fold off. rewrite E. reflexivity.
  - apply (serves_page_of_select _ _ _ _
             (Offset off (Limit 20 (Order timeof_incidence DESC (Where (state_is state) Model_))))
             [state_is state]);
      [assumption | assumption | assumption | | reflexivity .. | apply filter_matches_one ].
    intros w1 l E. unfold GetAllReportsByState, DefaultPageSize. rewrite result_of_bind_call. fold off. rewrite E. reflexivity.
  - apply (serves_page_of_select _ _ _ _
             (Offset off (Limit 20 (Order timeof_incidence DESC
                (Where (state_is_between state startTime endTime) Model_))))
             [state_is_between state startTime endTime]);
      [assumption | assumption | assumption | | reflexivity .. | apply filter_matches_one ].
    intros w1 l E. unfold GetAllReportsByStateByTime, DefaultPageSize. rewrite result_of_bind_call. fold off. rewrite E. reflexivity.
  - apply (serves_page_of_select _ _ _ _
             (Offset off (Limit 20 (Order timeof_incidence DESC (Where (lga_is lga) Model_))))
             [lga_is lga]);
      [assumption | assumption | assumption | | reflexivity .. | apply filter_matches_one ].
    intros w1 l E. unfold GetAllReportsByLGA, DefaultPageSize. rewrite result_of_bind_call. fold off. rewrite E. reflexivity.
  - apply (serves_page_of_select _ _ _ _
             (Offset off (Limit 20 (Order timeof_incidence DESC
                (Where (report_type_is reportType) Model_))))
             [report_type_is reportType]);
      [assumption | assumption | assumption | | reflexivity .. | apply filter_matches_one ].
    intros w1 l E. unfold GetAllReportsByReportType, DefaultPageSize. rewrite result_of_bind_call. fold off. rewrite E. reflexivity.
  - split; [apply order_by_sorted | apply order_by_perm].
Qed.


(** C7, as stated, fails: page 2^62+1 is past the end of a store with one
    report, yet the offset (page-1)*20 wraps around to 0 and the listing
    returns that report. *)
Lemma GetAllReports_huge_page_counterexample :
  (1 <= Sample.huge_page)%Z /\ is_int Sample.huge_page /\ quiet 1 Sample.world1
  /\ result_of exec (GetAllReports Sample.huge_page) Sample.world1 = Ok [Sample.report1]
  /\ (Z.of_nat (length (result_set any_report (committed Sample.world1)))
      <= (Sample.huge_page - 1) * 20)%Z
  /\ ~ serves_page GetAllReports any_report Sample.huge_page Sample.world1.
Proof.
  assert (result_of exec (GetAllReports Sample.huge_page) Sample.world1
          = Ok [Sample.report1]) as Hres by (vm_compute; reflexivity).
  assert (length (result_set any_report (committed Sample.world1)) = 1%nat) as Hlen
    by reflexivity.
  assert (Z.of_nat 1 <= (Sample.huge_page - 1) * 20)%Z as Hpast
    by (unfold Sample.huge_page; lia).
  split; [unfold Sample.huge_page; lia|].
  split; [unfold is_int, Sample.huge_page; lia|].
  split; [constructor|]. split; [exact Hres|].
  split; [rewrite Hlen; exact Hpast|].
  intros (l & Hl & _ & Hempty). rewrite Hres in Hl. injection Hl as <-.
  rewrite Hlen in Hempty. specialize (Hempty Hpast). discriminate Hempty.
Qed.

Lemma paginated_listings_witness :
  (1 <= 1)%Z /\ ((1 - 1) * 20 < 2 ^ 63)%Z /\ quiet 1 Sample.world1
  /\ serves_page GetAllReports any_report 1 Sample.world1.
Proof.
  assert (1 <= 1)%Z as H1 by lia.
  assert ((1 - 1) * 20 < 2 ^ 63)%Z as H2 by reflexivity.
  assert (quiet 1 Sample.world1) as H3 by constructor.
  split; [exact H1|]. split; [exact H2|]. split; [exact H3|].
  exact (proj1 (paginated_listings 1 Sample.world1 H1 H2 H3)).
Defined.

End PagingFacts.

(** ** Reward update *)

Section RewardFacts.
Import IncidentReportRepo RewardSpec.

Section TableFacts.
Context {T : Type} `{Model T}.

Lemma first_where_In (c : T -> bool) (t : list T) (r : T) :
  first_where c t = Some r -> In r t /\ c r = true.
Proof.
  revert r. induction t as [|x t IH]; simpl; [discriminate|]. intros r.
  destruct (c x) eqn:Ex.
  - destruct (first_where c t) as [a|] eqn:Ea.
    + destruct (pk x <=? pk a)%N; intros [= <-]; auto.
      destruct (IH a eq_refl); auto.
    + intros [= <-]; auto.
  - intros Hr. destruct (IH r Hr); auto.
Qed.

Lemma first_where_None (c : T -> bool) (t : list T) :
  first_where c t = None -> List.filter c t = [].
Proof.
  induction t as [|x t IH]; simpl; auto.
  destruct (c x).
  - destruct (first_where c t) as [a|]; [destruct (pk x <=? pk a)%N|]; discriminate.
  - exact IH.
Qed.

Lemma first_where_filter (c : T -> bool) (t : list T) :
  first_where c (List.filter c t) = first_where c t.
Proof.
  induction t as [|x t IH]; simpl; auto.
  destruct (c x) eqn:Ex; simpl; [rewrite Ex, IH|]; auto.
Qed.

Lemma first_where_single (c : T -> bool) (t : list T) (r : T) :
  List.filter c t = [r] -> first_where c t = Some r.
Proof.
  intros Hf. rewrite <- first_where_filter, Hf. simpl.
  assert (In r (List.filter c t)) as Hin by (rewrite Hf; left; reflexivity).
  apply filter_In in Hin. destruct Hin as [_ ->]. reflexivity.
Qed.

Lemma has_pk_In (t : list T) (r : T) : In r t -> has_pk (pk r) t = true.
Proof.
  intros Hin. unfold has_pk. apply existsb_exists. exists r. split; auto.
  apply N.eqb_refl.
Qed.

Lemma map_pk_update (r : T) (t : list T) : map pk (update r t) = map pk t.
Proof.
  unfold update. rewrite map_map. apply map_ext. intros x.
  destruct (N.eqb_spec (pk x) (pk r)); congruence.
Qed.

Lemma wf_update (r : T) (t : list T) :
  pk r <> 0%N -> wf_table t -> wf_table (update r t).
Proof.
  intros Hr [Hnd Hnz]. split.
  - rewrite map_pk_update. exact Hnd.
  - apply List.Forall_forall. intros y Hy. unfold update in Hy.
    apply in_map_iff in Hy. destruct Hy as (x & <- & Hx).
    destruct (pk x =? pk r)%N; auto.
    exact (proj1 (List.Forall_forall _ _) Hnz x Hx).
Qed.

Lemma max_pk_ge (t : list T) (r : T) : In r t -> (pk r <= max_pk t)%N.
Proof.
  induction t as [|x t IH]; simpl; [tauto|].
  intros [->|Hin]; [lia|]. specialize (IH Hin). lia.
Qed.

Lemma has_pk_false (k : N) (t : list T) : has_pk k t = false -> ~ In k (map pk t).
Proof.
  unfold has_pk. intros Hf Hin. apply in_map_iff in Hin. destruct Hin as (x & <- & Hx).
  assert (existsb (fun r => (pk r =? pk x)%N) t = true) as Ht.
  { apply existsb_exists. exists x. split; auto. apply N.eqb_refl. }
  congruence.
Qed.

Lemma NoDup_snoc {A} (l : list A) (a : A) :
  List.NoDup l -> ~ In a l -> List.NoDup (l ++ [a]).
Proof.
  induction l as [|x l IH]; simpl; intros Hnd Hna.
  - repeat constructor. simpl. tauto.
  - apply List.NoDup_cons_iff in Hnd. destruct Hnd as [Hx Hnd].
    apply List.NoDup_cons_iff. split.
    + intros Hin. apply in_app_or in Hin. simpl in Hin. intuition congruence.
    + apply IH; tauto.
Qed.

Lemma Forall_snoc {A} (P : A -> Prop) (l : list A) (a : A) :
  Forall P l -> P a -> Forall P (l ++ [a]).
Proof.
  intros Hl Ha. apply List.Forall_forall. intros x Hx.
  apply in_app_or in Hx. destruct Hx as [Hx|[<-|[]]]; auto.
  exact (proj1 (List.Forall_forall _ _) Hl x Hx).
Qed.

Lemma wf_insert (r : T) (t l : list T) :
  wf_table t -> insert r t = Ok l -> wf_table l.
Proof.
  intros [Hnd Hnz]. unfold insert.
  destruct (N.eqb_spec (pk r) 0).
  - intros [= <-]. split.
    + rewrite map_app. simpl. rewrite pk_with_pk.
      apply NoDup_snoc; [exact Hnd|].
      intros Hk. apply in_map_iff in Hk. destruct Hk as (x & Hx & Hin).
      apply max_pk_ge in Hin. unfold next_id in Hx. lia.
    + apply Forall_snoc; auto.
      rewrite pk_with_pk. unfold next_id. lia.
  - destruct (has_pk (pk r) t) eqn:Hh; [discriminate|]. intros [= <-]. split.
    + rewrite map_app. simpl. apply NoDup_snoc; [exact Hnd|].
      exact (has_pk_false _ _ Hh).
    + apply Forall_snoc; auto.
Qed.

Lemma filter_update (c : T -> bool) (r : T) (t : list T) :
  (forall x, In x t -> pk x = pk r -> c x = c r) ->
  List.filter c (update r t) = update r (List.filter c t).
Proof.
  induction t as [|x t IH]; simpl; auto. intros Hc.
  rewrite IH by (intros y Hy; apply Hc; auto).
  destruct (N.eqb_spec (pk x) (pk r)) as [E|E].
  - rewrite <- (Hc x (or_introl eq_refl) E). destruct (c x); simpl; auto.
    rewrite (proj2 (N.eqb_eq _ _) E). reflexivity.
  - destruct (c x); simpl; auto.
    rewrite (proj2 (N.eqb_neq _ _) E). reflexivity.
Qed.

Lemma NoDup_pk_eq (t : list T) (x y : T) :
  List.NoDup (map pk t) -> In x t -> In y t -> pk x = pk y -> x = y.
Proof.
  induction t as [|a t IH]; simpl; [tauto|]. intros Hnd Hx Hy E.
  apply List.NoDup_cons_iff in Hnd. destruct Hnd as [Hna Hnd].
  destruct Hx as [->|Hx], Hy as [->|Hy]; auto.
  - exfalso. apply Hna. rewrite E. apply in_map. exact Hy.
  - exfalso. apply Hna. rewrite <- E. apply in_map. exact Hx.
Qed.

End TableFacts.

Lemma overwrite_chain (reward existing : Reward.t) :
  (let e1 := Reward.set_RewardType (Reward.RewardType reward) existing in
   let e2 := Reward.set_Point (Reward.Point reward) e1 in
   let e3 := Reward.set_IncidentReportID (Reward.IncidentReportID reward) e2 in
   if (Reward.Balance reward =? 0)%Z then e3
   else Reward.set_Balance (Reward.Balance reward) e3) = overwrite reward existing.
Proof.
  unfold overwrite. destruct existing; cbn. destruct (Reward.Balance reward =? 0)%Z; reflexivity.
Qed.

Lemma save_stored {T} `{Model T} (r : T) (t : list T) :
  pk r <> 0%N -> has_pk (pk r) t = true -> save r t = Ok (update r t).
Proof.
  intros Hnz Hh. unfold save. rewrite (proj2 (N.eqb_neq _ _) Hnz), Hh. reflexivity.
Qed.

Lemma exec_save_stored (t : table) (r : row t) (w : World) :
  @pk _ (row_model t) r <> 0%N ->
  @has_pk _ (row_model t) (@pk _ (row_model t) r) (rows t (committed w)) = true ->
  exec_save t r w = exec_write OnDB t (@save _ (row_model t) r) w.
Proof.
  intros Hnz Hh. unfold exec_save. rewrite Hh, andb_false_r. reflexivity.
Qed.

(** Run one statement against the store, keeping the table operations
    folded. *)
Ltac store_step :=
  cbn -[save first_where update overwrite insert exec_save];
  unfold exec_read, exec_write, next_fault, write_table;
  cbn -[save first_where update overwrite insert exec_save].

Lemma UpdateReward_found userID reward existing w :
  wf_table (rows rewards (committed w)) ->
  first_where (user_id_is userID) (rows rewards (committed w)) = Some existing ->
  result_of exec (UpdateReward userID reward) w = None ->
  committed (world_of exec (UpdateReward userID reward) w) =
    set_rows rewards (update (overwrite reward existing) (rows rewards (committed w)))
      (committed w).
Proof.
  intros Hwf Hfirst. destruct (first_where_In _ _ _ Hfirst) as [Hin Hu].
  assert (pk (overwrite reward existing) <> 0%N) as Hnz
    by exact (proj1 (List.Forall_forall _ _) (proj2 Hwf) existing Hin).
  pose proof (has_pk_In _ existing Hin) as Hhas.
  pose proof (save_stored (overwrite reward existing) _ Hnz Hhas) as Hsave.
  unfold result_of, world_of, UpdateReward. destruct w as [d x p].
  cbn -[save first_where update overwrite has_pk] in Hfirst, Hsave, Hhas.
  destruct p as [|[m|] p]; store_step; try discriminate;
    rewrite Hfirst; store_step; rewrite overwrite_chain;
    match goal with
    | |- context [exec_save rewards _ ?w0] =>
        rewrite (exec_save_stored rewards (overwrite reward existing) w0 Hnz Hhas)
    end.
  - store_step. rewrite Hsave. reflexivity.
  - destruct p as [|[m|] p]; store_step; try discriminate; rewrite Hsave; reflexivity.
Qed.

Lemma UpdateReward_absent userID reward w :
  first_where (user_id_is userID) (rows rewards (committed w)) = None ->
  result_of exec (UpdateReward userID reward) w = None ->
  exists l, insert reward (rows rewards (committed w)) = Ok l
    /\ committed (world_of exec (UpdateReward userID reward) w) =
         set_rows rewards l (committed w).
Proof.
  intros Hfirst. unfold result_of, world_of, UpdateReward. destruct w as [d x p].
  cbn -[first_where] in Hfirst.
  destruct p as [|[m|] p]; store_step; try discriminate; rewrite Hfirst; store_step.
  - destruct (insert reward (t_rewards d)) as [l|e] eqn:E; store_step; try discriminate.
    intros _. exists l. auto.
  - destruct p as [|[m|] p]; store_step; try discriminate;
      destruct (insert reward (t_rewards d)) as [l|e] eqn:E; store_step; try discriminate;
      intros _; exists l; auto.
Qed.

(** The key invariant of the reward table survives every call. *)
Lemma UpdateReward_preserves_wf userID reward w :
  wf_table (rows rewards (committed w)) ->
  wf_table (rows rewards (committed (world_of exec (UpdateReward userID reward) w))).
Proof.
  intros Hwf.
  destruct (first_where (user_id_is userID) (rows rewards (committed w)))
    as [existing|] eqn:Hfirst.
  - destruct (first_where_In _ _ _ Hfirst) as [Hin _].
    assert (pk (overwrite reward existing) <> 0%N) as Hnz
      by exact (proj1 (List.Forall_forall _ _) (proj2 Hwf) existing Hin).
    pose proof (has_pk_In _ existing Hin) as Hhas.
    pose proof (save_stored (overwrite reward existing) _ Hnz Hhas) as Hsave.
    pose proof (wf_update (overwrite reward existing) _ Hnz Hwf) as Hwf'.
    unfold world_of, UpdateReward. destruct w as [d x p].
    cbn -[save first_where update overwrite has_pk] in Hfirst, Hsave, Hwf, Hwf', Hhas.
    destruct p as [|[m|] p]; store_step; try exact Hwf;
      rewrite Hfirst; store_step; rewrite overwrite_chain;
      match goal with
    | |- context [exec_save rewards _ ?w0] =>
        rewrite (exec_save_stored rewards (overwrite reward existing) w0 Hnz Hhas)
    end.
    + store_step. rewrite Hsave. exact Hwf'.
    + destruct p as [|[m|] p]; store_step; try exact Hwf; rewrite Hsave; exact Hwf'.
  - unfold world_of, UpdateReward. destruct w as [d x p].
    cbn -[first_where] in Hfirst, Hwf.
    destruct p as [|[m|] p]; store_step; try exact Hwf; rewrite Hfirst; store_step.
    + destruct (insert reward (t_rewards d)) as [l|e] eqn:E; store_step; try exact Hwf.
      exact (wf_insert _ _ _ Hwf E).
    + destruct p as [|[m|] p]; store_step; try exact Hwf;
        destruct (insert reward (t_rewards d)) as [l|e] eqn:E; store_step; try exact Hwf;
        exact (wf_insert _ _ _ Hwf E).
Qed.

(** C2, as stated, fails: a stored balance of 5 updated with a balance of
    3 becomes 3, not 5 + 3. *)
Lemma UpdateReward_accumulates_counterexample :
  result_of exec (UpdateReward 7 Sample.reward_arg) Sample.reward_world = None
  /\ map Reward.Balance (rows rewards (committed Sample.reward_world)) = [5%Z]
  /\ Reward.Balance Sample.reward_arg = 3%Z
  /\ map Reward.Balance
       (rows rewards (committed (world_of exec (UpdateReward 7 Sample.reward_arg) Sample.reward_world)))
     = [3%Z]
  /\ (3 <> 5 + 3)%Z.
Proof. repeat split. lia. Qed.

Lemma sample_rewards_wf : wf_table (rows rewards (committed Sample.reward_world)).
Proof.
  split.
  - repeat constructor. simpl. tauto.
  - repeat constructor. discriminate.
Defined.

(** C2 (amended). [UpdateReward] is find-or-create-then-overwrite: it
    looks the reward row up by user id; when there is none it inserts the
    argument; otherwise it overwrites the type, point and incident report
    of the stored row with the argument's and replaces the stored balance
    by the argument's balance when that is non-zero, keeping the stored
    balance when it is zero. *)
Theorem UpdateReward_find_or_create_then_overwrite
    (userID : N) (reward : Reward.t) (w : World) :
  wf_table (rows rewards (committed w)) ->
  result_of exec (UpdateReward userID reward) w = None ->
  let t := rows rewards (committed w) in
  let t' := rows rewards (committed (world_of exec (UpdateReward userID reward) w)) in
  match first_where (user_id_is userID) t with
  | None => insert reward t = Ok t'
  | Some existing =>
      t' = update (overwrite reward existing) t
      /\ Reward.Balance (overwrite reward existing) =
           (if (Reward.Balance reward =? 0)%Z then Reward.Balance existing
            else Reward.Balance reward)
  end.
Proof.
  intros Hwf Hnil t t'. subst t t'.
  destruct (first_where (user_id_is userID) (rows rewards (committed w))) as [existing|] eqn:E.
  - rewrite (UpdateReward_found _ _ _ _ Hwf E Hnil). split; reflexivity.
  - destruct (UpdateReward_absent _ _ _ E Hnil) as (l & Hl & ->). exact Hl.
Qed.

Lemma UpdateReward_find_or_create_then_overwrite_witness :
  rows rewards
    (committed (world_of exec (UpdateReward 7 Sample.reward_arg) Sample.reward_world))
  = update (overwrite Sample.reward_arg Sample.reward_row) [Sample.reward_row]
  /\ Reward.Balance (overwrite Sample.reward_arg Sample.reward_row) = 3%Z.
Proof.
  exact (UpdateReward_find_or_create_then_overwrite 7 Sample.reward_arg
           Sample.reward_world sample_rewards_wf eq_refl).
Defined.

End RewardFacts.

(** ** Post creation handler *)

Section HandlerFacts.
Import IO Server Trace HandlerSpec.

(** The two parameters of the handler: the conversion of an id claim that
    [uint] cannot hold, and the public host of a bucket. *)
Variable oor : float -> N.
Variable host : string -> string.

(** Run the handler one call further, keeping strings and maps folded. *)
Ltac hcbn :=
  cbn -[lookup String.eqb FormatUint float64_to_uint String.append PostForm insert singletonM].

(** Case analysis over every answer the surroundings can give. *)
Ltac handler_cases :=
  repeat (hcbn;
          try unfold create_post;
          match goal with
          | |- context [match files ?c !! ?k with _ => _ end] =>
              destruct (files c !! k) as [[? ?]|] eqn:?
          | |- context [match validate_file ?e ?f with _ => _ end] =>
              destruct (validate_file e f) eqn:?
          | |- context [match validate_and_get_claims ?e ?a ?b with _ => _ end] =>
              destruct (validate_and_get_claims e a b) eqn:?
          | |- context [match ?m !! "id" with _ => _ end] =>
              destruct (m !! "id") as [[]|] eqn:?
          | |- context [match create_s3_client ?e with _ => _ end] =>
              destruct (create_s3_client e) eqn:?
          | |- context [put_object ?e ?i] =>
              destruct (put_object e i) as [? [?|]] eqn:?
          | |- context [match create_post_fault ?e ?p with _ => _ end] =>
              destruct (create_post_fault e p) eqn:?
          | |- context [if ?b then _ else _] => destruct b eqn:?
          end).

Lemma input_missing_fields (c : Request) :
  input_missing c -> files c !! "postImage" = None \/ fields_ok c = false.
Proof.
  unfold input_missing, fields_ok. intros [H|[H|[H|H]]]; auto; right; rewrite H; cbn.
  - reflexivity.
  - rewrite orb_true_r. reflexivity.
  - rewrite !orb_true_r. reflexivity.
Qed.

Lemma uploads_guarded_spec (tr : list (entry ioE)) :
  forall accepted, uploads_guarded accepted tr = true ->
  forall pre e post, tr = pre ++ e :: post -> is_PutObject e = true ->
  accepted || existsb is_token_accepted pre = true.
Proof.
  induction tr as [|x tr IH]; intros accepted Hg pre e post Htr He.
  - destruct pre; discriminate.
  - destruct pre as [|y pre]; simpl in Htr; injection Htr as -> ->.
    + simpl in Hg. rewrite He in Hg. apply andb_prop in Hg. destruct Hg as [-> _]. reflexivity.
    + simpl in Hg. destruct (is_PutObject y) eqn:Ey.
      * apply andb_prop in Hg. destruct Hg as [-> _]. reflexivity.
      * specialize (IH _ Hg pre e post eq_refl He). simpl.
        rewrite orb_assoc. exact IH.
Qed.

(** C4 (amended). For every request in which the file, the title, the
    category or the description is missing, [CreatePost] is never called
    and the stored posts are unchanged.  The response is 400 when the file
    is missing, and in general 400 unless the file passes validation and
    the bearer token is missing or rejected, in which case it is 401. *)
Theorem missing_input_never_creates_post (e : Env) (s : Server.Server) (c : Request)
    (ps : list Post) :
  let w := {| env := e; posts := ps |} in
  let tr := trace_of IO.exec (handleCreatePost oor host s c) w in
  input_missing c ->
  existsb is_CreatePost tr = false
  /\ posts (world_of IO.exec (handleCreatePost oor host s c) w) = ps
  /\ statuses tr = [if file_ok e c && negb (token_ok e s c) then 401%Z else 400%Z]
  /\ (files c !! "postImage" = None -> statuses tr = [400%Z]).
Proof.
  intros w tr Hm. apply input_missing_fields in Hm. subst w tr.
  unfold trace_of, world_of, handleCreatePost, FormFile, file_ok, token_ok, fields_ok,
    create_post in *.
  handler_cases.
  all: try (repeat split; (reflexivity || discriminate)).
  all: destruct Hm as [Hm|Hm]; try discriminate Hm.
  all: match goal with H : (_ || _) = false |- _ => rewrite H in Hm; discriminate Hm end.
Qed.

(** C5 (amended). For every request whose bearer token is missing,
    invalid or expired, no put-object call is made and no post is created;
    the response is 401 when the file is present and passes validation and
    400 otherwise.  For every request whatsoever, a put-object call only
    comes after a token validation that accepted the token. *)
Theorem bad_token_never_uploads (e : Env) (s : Server.Server) (c : Request)
    (ps : list Post) :
  let w := {| env := e; posts := ps |} in
  let tr := trace_of IO.exec (handleCreatePost oor host s c) w in
  token_ok e s c = false ->
  existsb is_PutObject tr = false
  /\ existsb is_CreatePost tr = false
  /\ statuses tr = [if file_ok e c then 401%Z else 400%Z]
  /\ (forall e' s' c' ps' pre x post,
        trace_of IO.exec (handleCreatePost oor host s' c') {| env := e'; posts := ps' |}
          = pre ++ x :: post ->
        is_PutObject x = true ->
        existsb is_token_accepted pre = true).
Proof.
  intros w tr Hm. subst w tr. split; [|split; [|split]].
  4: { intros e' s' c' ps' pre x post Htr Hx.
       apply (uploads_guarded_spec _ false) with (pre := pre) (e := x) (post := post) in Htr;
         [exact Htr | | exact Hx].
       unfold trace_of, handleCreatePost, FormFile, create_post.
       handler_cases; reflexivity. }
  all: unfold trace_of, world_of, handleCreatePost, FormFile, file_ok, token_ok, fields_ok,
    create_post in *.
  all: handler_cases.
  all: try reflexivity.
  all: try (cbn in Hm; discriminate Hm).
Qed.


(** C3. [UploadFileToS3] returns the bucket host followed by the file
    name whatever the object store answers (for a negative size it panics
    on allocating the buffer, before anything is sent).  For every valid
    submission (file present and valid, token accepted, title, category
    and description non-empty) either no post is stored, or exactly one
    is; its Image is what the upload helper returned for the bucket of the
    environment and the file name <userID>_<originalFilename>, with the
    user id of the token, which is <bucketHost>/<userID>_<originalFilename>.
    When the id claim is a number and storage client, upload and insert go
    through, the post is stored with that Image and the answer is 200. *)
Theorem created_post_image_url (e : Env) (s : Server.Server) (c : Request)
    (ps : list Post) (file : File) (fh : FileHeader) (claims : MapClaims) :
  let w := {| env := e; posts := ps |} in
  let w' := world_of IO.exec (handleCreatePost oor host s c) w in
  let tr := trace_of IO.exec (handleCreatePost oor host s c) w in
  let bucket := default "" (environ e !! "AWS_BUCKET") in
  files c !! "postImage" = Some (file, fh) ->
  validate_file e fh = None ->
  token_from_header e c <> "" ->
  validate_and_get_claims e (token_from_header e c) (JWTSecret (Config_ s)) = Ok claims ->
  PostForm c "title" <> "" ->
  PostForm c "post_category" <> "" ->
  PostForm c "post_description" <> "" ->
  (forall e0 ps0 h f fileName size,
     let upload := IncidentReportRepo.UploadFileToS3 h f fileName size in
     let w0 := {| env := e0; posts := ps0 |} in
     ((0 <= size)%Z ->
      exists err,
        result_of IO.exec upload w0 = Returned (arp_rental_host +:+ "/" +:+ fileName, err)
        /\ length (List.filter is_PutObject (trace_of IO.exec upload w0)) = 1%nat)
     /\ ((size < 0)%Z ->
         result_of IO.exec upload w0 = Panicked "runtime error: makeslice: len out of range"
         /\ trace_of IO.exec upload w0 = []))
  /\ (posts w' = ps /\ statuses tr <> [200%Z]
      \/ exists stored userIDValue,
           claims !! "id" = Some (JNumber userIDValue)
           /\ posts w' = ps ++ [stored]
           /\ statuses tr = [200%Z]
           /\ UserID stored = float64_to_uint oor userIDValue
           /\ Image stored =
                fst (result_of IO.exec
                       (uploadFileToS3 host Client_ file bucket
                          (FormatUint (UserID stored) +:+ "_" +:+ Filename fh)) w)
           /\ Image stored =
                host bucket +:+ "/" +:+ FormatUint (UserID stored) +:+ "_" +:+ Filename fh)
  /\ (forall userIDValue,
        claims !! "id" = Some (JNumber userIDValue) ->
        create_s3_client e = None ->
        (forall input, snd (put_object e input) = None) ->
        (forall post, create_post_fault e post = None) ->
        statuses tr = [200%Z]
        /\ map Image (posts w') =
             map Image ps
             ++ [host bucket +:+ "/" +:+ FormatUint (float64_to_uint oor userIDValue)
                 +:+ "_" +:+ Filename fh]).
Proof.
  intros w w' tr bucket Hfile Hvalid Htoken Hclaims Htitle Hcat Hdesc.
  apply String.eqb_neq in Htoken, Htitle, Hcat, Hdesc.
  split.
  { intros e0 ps0 h f fileName size upload w0. subst upload w0.
    unfold result_of, trace_of, IncidentReportRepo.UploadFileToS3, makeslice_panics.
    split; intros Hsize.
    - rewrite (proj2 (Z.ltb_ge size 0) Hsize). eexists. split; reflexivity.
    - rewrite (proj2 (Z.ltb_lt size 0) Hsize). split; reflexivity. }
  subst w w' tr bucket.
  unfold trace_of, world_of, result_of, handleCreatePost, FormFile.
  rewrite Hfile. hcbn. rewrite Hvalid. hcbn. rewrite Htoken. hcbn. rewrite Hclaims. hcbn.
  rewrite Htitle, Hcat, Hdesc. hcbn.
  split.
  - handler_cases.
    all: try (left; split; [reflexivity|discriminate]).
    right. do 2 eexists. repeat split.
  - intros userIDValue Hid Hclient Hput Hpost. rewrite Hid.
    hcbn.
    rewrite Hclient.
    hcbn.
    match goal with |- context [put_object e ?i] =>
      pose proof (Hput i) as Hp; destruct (put_object e i) as [out err] end.
    cbn in Hp. subst err.
    hcbn.
    unfold create_post. rewrite Hpost. hcbn. split; [reflexivity|].
    rewrite map_app. reflexivity.
Qed.

End HandlerFacts.

Section HandlerExamples.
Import IO Server Trace HandlerSpec.

(** C4, as stated, fails: a request with a valid file, no title and no
    bearer token is answered 401, not 400. *)
Lemma missing_title_without_token_counterexample :
  input_missing Sample.req_no_title_no_token
  /\ statuses (trace_of IO.exec
                 (handleCreatePost Sample.oor0 Sample.host0 Sample.server0
                    Sample.req_no_title_no_token) Sample.io_world0) = [401%Z]
  /\ [401%Z] <> [400%Z].
Proof.
  split; [right; left; reflexivity|]. split; [vm_compute; reflexivity | discriminate].
Qed.

(** C5, as stated, fails: a request with no file and no bearer token is
    answered 400, not 401. *)
Lemma missing_token_without_file_counterexample :
  token_ok Sample.env0 Sample.server0 Sample.req_no_file_no_token = false
  /\ statuses (trace_of IO.exec
                 (handleCreatePost Sample.oor0 Sample.host0 Sample.server0
                    Sample.req_no_file_no_token) Sample.io_world0) = [400%Z]
  /\ [400%Z] <> [401%Z].
Proof.
  split; [reflexivity|]. split; [vm_compute; reflexivity | discriminate].
Qed.

Lemma sample_title_missing : input_missing Sample.req_no_title_no_token.
Proof. right; left; reflexivity. Defined.

Lemma missing_input_never_creates_post_witness :
  existsb is_CreatePost
    (trace_of IO.exec
       (handleCreatePost Sample.oor0 Sample.host0 Sample.server0
          Sample.req_no_title_no_token) Sample.io_world0) = false.
Proof.
  exact (proj1 (missing_input_never_creates_post Sample.oor0 Sample.host0 Sample.env0
                  Sample.server0 Sample.req_no_title_no_token [] sample_title_missing)).
Defined.

Lemma bad_token_never_uploads_witness :
  existsb is_PutObject
    (trace_of IO.exec
       (handleCreatePost Sample.oor0 Sample.host0 Sample.server0
          Sample.req_no_file_no_token) Sample.io_world0) = false.
Proof.
  exact (proj1 (bad_token_never_uploads Sample.oor0 Sample.host0 Sample.env0
                  Sample.server0 Sample.req_no_file_no_token [] eq_refl)).
Defined.

Lemma sample_token_present : token_from_header Sample.env0 Sample.req_ok <> "".
Proof. discriminate. Defined.

Lemma sample_field_present (k : string) (v : string) :
  v <> "" -> PostForm Sample.req_ok k = v -> PostForm Sample.req_ok k <> "".
Proof. intros Hv ->. exact Hv. Defined.

Lemma created_post_image_url_witness :
  statuses (trace_of IO.exec
              (handleCreatePost Sample.oor0 Sample.host0 Sample.server0 Sample.req_ok)
              Sample.io_world0) = [200%Z]
  /\ map Image (posts (world_of IO.exec
                         (handleCreatePost Sample.oor0 Sample.host0 Sample.server0
                            Sample.req_ok) Sample.io_world0))
     = ["https://citizenx.s3.amazonaws.com/42_photo.png"].
Proof.
  refine (proj2 (proj2 (created_post_image_url Sample.oor0 Sample.host0 Sample.env0
                          Sample.server0 Sample.req_ok [] Sample.png Sample.photo
                          Sample.claims42 eq_refl eq_refl sample_token_present eq_refl
                          _ _ _))
            42%float eq_refl eq_refl (fun _ => eq_refl) (fun _ => eq_refl));
    discriminate.
Defined.

Lemma sample_post_stored :
  map Image (posts (world_of IO.exec
                      (handleCreatePost Sample.oor0 Sample.host0 Sample.server0
                         Sample.req_ok) Sample.io_world0))
  = ["https://citizenx.s3.amazonaws.com/42_photo.png"].
Proof. vm_compute. reflexivity. Qed.

End HandlerExamples.

(** * Further properties *)

Import GormX.

(** ** Further facts about tables *)

Section MoreTableFacts.
Context {T : Type} `{Model T}.

Lemma insert_Ok_snoc (r : T) (t l : list T) :
  insert r t = Ok l -> l = t ++ [stored_row r t].
Proof.
  unfold insert, stored_row. destruct (pk r =? 0)%N; [intros [= <-]; reflexivity|].
  destruct (has_pk (pk r) t); [discriminate|]. intros [= <-]. reflexivity.
Qed.

Lemma first_where_existsb (c : T -> bool) (t : list T) :
  match first_where c t with Some _ => true | None => false end = existsb c t.
Proof.
  induction t as [|x t IH]; simpl; auto.
  destruct (c x); simpl; auto.
  destruct (first_where c t) as [a|]; [destruct (pk x <=? pk a)%N|]; reflexivity.
Qed.

Lemma first_where_map (c : T -> bool) (f : T -> T) (t : list T) :
  (forall x, pk (f x) = pk x) ->
  (forall x, In x t -> c (f x) = c x) ->
  first_where c (map f t) = option_map f (first_where c t).
Proof.
  intros Hpk. induction t as [|x t IH]; simpl; auto. intros Hc.
  rewrite IH by (intros y Hy; apply Hc; auto).
  rewrite (Hc x (or_introl eq_refl)). destruct (c x); auto.
  destruct (first_where c t) as [a|]; simpl; auto.
  rewrite !Hpk. destruct (pk x <=? pk a)%N; reflexivity.
Qed.

Lemma first_where_update (c : T -> bool) (r : T) (t : list T) :
  (forall x, In x t -> pk x = pk r -> c x = c r) ->
  first_where c (update r t) =
    option_map (fun a => if (pk a =? pk r)%N then r else a) (first_where c t).
Proof.
  intros Hc. unfold update. apply first_where_map.
  - intros x. destruct (N.eqb_spec (pk x) (pk r)); congruence.
  - intros x Hx. destruct (N.eqb_spec (pk x) (pk r)) as [E|E]; auto.
    symmetry. apply Hc; auto.
Qed.

Lemma update_self (r : T) (t : list T) :
  List.NoDup (map pk t) -> In r t -> update r t = t.
Proof.
  intros Hnd Hin. unfold update. rewrite <- (map_id t) at 2.
  apply map_ext_in. intros x Hx.
  destruct (N.eqb_spec (pk x) (pk r)) as [E|E]; auto.
  symmetry. exact (NoDup_pk_eq t x r Hnd Hx Hin E).
Qed.

Lemma update_update (r : T) (t : list T) : update r (update r t) = update r t.
Proof.
  unfold update. rewrite map_map. apply map_ext. intros x.
  destruct (N.eqb_spec (pk x) (pk r)) as [E|E].
  - rewrite N.eqb_refl. reflexivity.
  - rewrite (proj2 (N.eqb_neq _ _) E). reflexivity.
Qed.

Lemma stored_row_In (r : T) (t l : list T) : insert r t = Ok l -> In (stored_row r t) l.
Proof.
  intros Hl. rewrite (insert_Ok_snoc _ _ _ Hl). apply in_or_app. right. left. reflexivity.
Qed.

End MoreTableFacts.

Lemma set_rows_rows (t : table) (d : DB) : set_rows t (rows t d) d = d.
Proof. destruct t, d; reflexivity. Qed.

Lemma rows_set_rows (t : table) (l : list (row t)) (d : DB) : rows t (set_rows t l d) = l.
Proof. destruct t; reflexivity. Qed.

(** Run one statement against the store, table operations folded. *)
Ltac db_step :=
  cbn -[save first_where update insert count_where select stored_row update_where
        rows_affected];
  unfold exec_store, exec_update, exec_read, exec_write, next_fault, write_table;
  cbn -[save first_where update insert count_where select stored_row update_where
        rows_affected].

Section RewardExtras.
Import IncidentReportRepo IncidentReportRepoMore RewardSpec.

Lemma overwrite_overwrite (reward existing : Reward.t) :
  overwrite reward (overwrite reward existing) = overwrite reward existing.
Proof.
  unfold overwrite. cbn. destruct (Reward.Balance reward =? 0)%Z eqn:E; reflexivity.
Qed.

Lemma overwrite_stored (reward : Reward.t) (t : list Reward.t) :
  overwrite reward (stored_row reward t) = stored_row reward t.
Proof.
  unfold overwrite, stored_row. destruct reward as [i u ty p b ir]; cbn.
  destruct (i =? 0)%N; cbn; destruct (b =? 0)%Z; reflexivity.
Qed.

Lemma first_where_after_insert (c : Reward.t -> bool) (r : Reward.t) (t l : list Reward.t) :
  first_where c t = None -> insert r t = Ok l -> c (stored_row r t) = true ->
  first_where c l = Some (stored_row r t).
Proof.
  intros Hnone Hl Hc. apply first_where_single.
  rewrite (insert_Ok_snoc _ _ _ Hl), List.filter_app, (first_where_None _ _ Hnone).
  simpl. rewrite Hc. reflexivity.
Qed.

Lemma user_id_is_stored (userID : N) (reward : Reward.t) (t : list Reward.t) :
  user_id_is userID (stored_row reward t) = user_id_is userID reward.
Proof. unfold stored_row. destruct (pk reward =? 0)%N; reflexivity. Qed.

Lemma first_where_after_update userID reward existing t :
  wf_table t ->
  first_where (user_id_is userID) t = Some existing ->
  first_where (user_id_is userID) (update (overwrite reward existing) t)
    = Some (overwrite reward existing).
Proof.
  intros Hwf Hfirst. destruct (first_where_In _ _ _ Hfirst) as [Hin Hu].
  rewrite first_where_update.
  - rewrite Hfirst. simpl. change (pk (overwrite reward existing)) with (pk existing).
    rewrite N.eqb_refl. reflexivity.
  - intros x Hx E. rewrite (NoDup_pk_eq t x existing (proj1 Hwf) Hx Hin E). reflexivity.
Qed.

(** X1. [UpdateReward] whose lookup meets a failure of the store returns
    that error after the one statement and writes nothing. *)
Theorem UpdateReward_lookup_failure (userID : N) (reward : Reward.t) (w : World)
    (msg : string) (rest : list (option string)) :
  plan w = Some msg :: rest ->
  result_of exec (UpdateReward userID reward) w = Some (New msg)
  /\ committed (world_of exec (UpdateReward userID reward) w) = committed w
  /\ length (trace_of exec (UpdateReward userID reward) w) = 1%nat.
Proof.
  intros Hp. unfold result_of, world_of, trace_of, UpdateReward. destruct w as [d x p].
  cbn in Hp. subst p. db_step. repeat split.
Qed.

(** X2. [UpdateReward] is idempotent: a second successful call with the
    same arguments leaves the store as the first call left it. *)
Theorem UpdateReward_idempotent (userID : N) (reward : Reward.t) (w : World) :
  wf_table (rows rewards (committed w)) ->
  Reward.UserID reward = userID ->
  let w1 := world_of exec (UpdateReward userID reward) w in
  let w2 := world_of exec (UpdateReward userID reward) w1 in
  result_of exec (UpdateReward userID reward) w = None ->
  result_of exec (UpdateReward userID reward) w1 = None ->
  committed w2 = committed w1.
Proof.
  intros Hwf Hu w1 w2 Hnil1 Hnil2.
  pose proof (UpdateReward_preserves_wf userID reward w Hwf) as Hwf1. fold w1 in Hwf1.
  assert (exists e1, first_where (user_id_is userID) (rows rewards (committed w1)) = Some e1
                     /\ overwrite reward e1 = e1) as (e1 & Hfirst1 & Hsame).
  { destruct (first_where (user_id_is userID) (rows rewards (committed w)))
      as [existing|] eqn:Hfirst.
    - exists (overwrite reward existing). split; [|apply overwrite_overwrite].
      unfold w1. rewrite (UpdateReward_found _ _ _ _ Hwf Hfirst Hnil1), rows_set_rows.
      apply first_where_after_update; assumption.
    - destruct (UpdateReward_absent _ _ _ Hfirst Hnil1) as (l & Hl & Hc).
      exists (stored_row reward (rows rewards (committed w))).
      split; [|apply overwrite_stored].
      unfold w1. rewrite Hc, rows_set_rows.
      apply first_where_after_insert; auto.
      rewrite user_id_is_stored. unfold user_id_is. rewrite Hu. apply N.eqb_refl. }
  unfold w2. rewrite (UpdateReward_found _ _ _ _ Hwf1 Hfirst1 Hnil2), Hsame.
  destruct (first_where_In _ _ _ Hfirst1) as [Hin _].
  rewrite (update_self e1 _ (proj1 Hwf1) Hin). apply set_rows_rows.
Qed.

(** X3. The lookup goes by the [userID] argument but the insert stores the
    reward as given: when [userID] has no row and the reward names another
    user, a successful call adds a row for that other user and [userID]
    still has none. *)
Theorem UpdateReward_inserts_for_reward_user (userID : N) (reward : Reward.t) (w : World) :
  first_where (user_id_is userID) (rows rewards (committed w)) = None ->
  Reward.UserID reward <> userID ->
  result_of exec (UpdateReward userID reward) w = None ->
  let t := rows rewards (committed w) in
  let t' := rows rewards (committed (world_of exec (UpdateReward userID reward) w)) in
  List.filter (user_id_is userID) t' = []
  /\ count_where (user_id_is (Reward.UserID reward)) t'
     = (count_where (user_id_is (Reward.UserID reward)) t + 1)%Z.
Proof.
  intros Hfirst Hne Hnil t t'. subst t t'.
  destruct (UpdateReward_absent _ _ _ Hfirst Hnil) as (l & Hl & ->).
  rewrite rows_set_rows, (insert_Ok_snoc _ _ _ Hl). unfold count_where.
  rewrite !List.filter_app, (first_where_None _ _ Hfirst). cbn [List.filter].
  rewrite !user_id_is_stored. unfold user_id_is at 1 3.
  rewrite (proj2 (N.eqb_neq _ _) Hne), N.eqb_refl. split; [reflexivity|].
  rewrite List.length_app. cbn [length]. lia.
Qed.

(** X4. After a successful [UpdateReward] for a reward of that user,
    [GetRewardByUserID] returns a row of the user that carries the type,
    point and incident report of the reward, and its balance unless that
    is zero. *)
Theorem GetRewardByUserID_after_UpdateReward (userID : N) (reward : Reward.t) (w : World) :
  wf_table (rows rewards (committed w)) ->
  Reward.UserID reward = userID ->
  result_of exec (UpdateReward userID reward) w = None ->
  let w1 := world_of exec (UpdateReward userID reward) w in
  quiet 1 w1 ->
  exists row,
    result_of exec (GetRewardByUserID userID) w1 = Ok row
    /\ Reward.UserID row = userID
    /\ Reward.RewardType row = Reward.RewardType reward
    /\ Reward.Point row = Reward.Point reward
    /\ Reward.IncidentReportID row = Reward.IncidentReportID reward
    /\ (Reward.Balance reward <> 0%Z -> Reward.Balance row = Reward.Balance reward).
Proof.
  intros Hwf Hu Hnil w1 Hq.
  assert (exists row, first_where (user_id_is userID) (rows rewards (committed w1)) = Some row
                      /\ overwrite reward row = row) as (row & Hfirst1 & Hsame).
  { destruct (first_where (user_id_is userID) (rows rewards (committed w)))
      as [existing|] eqn:Hfirst.
    - exists (overwrite reward existing). split; [|apply overwrite_overwrite].
      unfold w1. rewrite (UpdateReward_found _ _ _ _ Hwf Hfirst Hnil), rows_set_rows.
      apply first_where_after_update; assumption.
    - destruct (UpdateReward_absent _ _ _ Hfirst Hnil) as (l & Hl & Hc).
      exists (stored_row reward (rows rewards (committed w))).
      split; [|apply overwrite_stored].
      unfold w1. rewrite Hc, rows_set_rows.
      apply first_where_after_insert; auto.
      rewrite user_id_is_stored. unfold user_id_is. rewrite Hu. apply N.eqb_refl. }
  exists row. split.
  - unfold result_of, GetRewardByUserID. cbn -[first_where].
    destruct (exec_read_quiet
                (fun d => match first_where (user_id_is userID) (rows rewards d) with
                          | Some r => Ok r
                          | None => Err ErrRecordNotFound
                          end) w1 0 Hq) as (w2 & E & _).
    cbn -[first_where] in E. rewrite E. clearbody w1.
    cbn -[first_where] in Hfirst1 |- *. rewrite Hfirst1. reflexivity.
  - destruct (first_where_In _ _ _ Hfirst1) as [_ Hrow]. apply N.eqb_eq in Hrow.
    split; [exact Hrow|]. rewrite <- Hsame. cbn. repeat split.
    intros Hb. rewrite (proj2 (Z.eqb_neq _ _) Hb). reflexivity.
Qed.

(** X5. [HasPreviousReports] answers, when its query goes through, whether
    the user has a reward row with a positive balance; when the store
    fails it answers false together with the wrapped error. *)
Theorem HasPreviousReports_positive_balance (userID : N) (w : World) :
  (quiet 1 w ->
   result_of exec (HasPreviousReports userID) w
   = (existsb (has_balance userID) (rows rewards (committed w)), None))
  /\ (forall msg rest, plan w = Some msg :: rest ->
      result_of exec (HasPreviousReports userID) w
      = (false, Some (Errorf "could not find reward for user: %v" (New msg)))).
Proof.
  split.
  - intros Hq. unfold result_of, HasPreviousReports. cbn -[first_where].
    destruct (exec_read_quiet
                (fun d => match first_where (has_balance userID) (rows rewards d) with
                          | Some r => Ok r
                          | None => Err ErrRecordNotFound
                          end) w 0 Hq) as (w2 & E & _).
    cbn -[first_where] in E. rewrite E. cbn -[first_where].
    rewrite <- first_where_existsb. cbn [rows].
    destruct (first_where (has_balance userID) (t_rewards (committed w))); reflexivity.
  - intros msg rest Hp. unfold result_of, HasPreviousReports. destruct w as [d x p].
    cbn in Hp. subst p. reflexivity.
Qed.

Lemma existsb_has_balance_snoc (userID : N) (t : list Reward.t) (stored : Reward.t) :
  List.filter (user_id_is userID) t = [] ->
  existsb (has_balance userID) (t ++ [stored]) = has_balance userID stored.
Proof.
  intros Hnone. rewrite List.existsb_app. cbn [existsb]. rewrite orb_false_r.
  destruct (existsb (has_balance userID) t) eqn:Ht; [|reflexivity].
  apply existsb_exists in Ht. destruct Ht as (x & Hx1 & Hx2).
  unfold has_balance in Hx2. apply andb_prop in Hx2.
  assert (In x (List.filter (user_id_is userID) t)) as Hin
    by (apply filter_In; split; [exact Hx1 | exact (proj1 Hx2)]).
  rewrite Hnone in Hin. destruct Hin.
Qed.

(** X6. For a user without a reward row, a successful [UpdateReward] with
    a reward of that user makes [HasPreviousReports] answer true exactly
    when the reward's balance is positive. *)
Theorem HasPreviousReports_after_first_reward (userID : N) (reward : Reward.t) (w : World) :
  first_where (user_id_is userID) (rows rewards (committed w)) = None ->
  Reward.UserID reward = userID ->
  result_of exec (UpdateReward userID reward) w = None ->
  let w1 := world_of exec (UpdateReward userID reward) w in
  quiet 1 w1 ->
  result_of exec (HasPreviousReports userID) w1 = ((0 <? Reward.Balance reward)%Z, None).
Proof.
  intros Hfirst Hu Hnil w1 Hq.
  destruct (UpdateReward_absent _ _ _ Hfirst Hnil) as (l & Hl & Hc).
  set (stored := stored_row reward (rows rewards (committed w))).
  assert (rows rewards (committed w1) = rows rewards (committed w) ++ [stored]) as Ht1
    by (unfold w1; rewrite Hc, rows_set_rows; exact (insert_Ok_snoc _ _ _ Hl)).
  assert (has_balance userID stored = (0 <? Reward.Balance reward)%Z) as Hb.
  { unfold stored, has_balance, stored_row. destruct (pk reward =? 0)%N; cbn;
      rewrite Hu, N.eqb_refl; reflexivity. }
  pose proof (first_where_existsb (has_balance userID) (rows rewards (committed w1))) as Hx.
  rewrite Ht1, (existsb_has_balance_snoc _ _ _ (first_where_None _ _ Hfirst)), Hb, <- Ht1
    in Hx.
  clearbody w1. unfold result_of, HasPreviousReports. cbn -[first_where].
  destruct (exec_read_quiet
              (fun d => match first_where (has_balance userID) (rows rewards d) with
                        | Some r => Ok r
                        | None => Err ErrRecordNotFound
                        end) w1 0 Hq) as (w2 & E & _).
  cbn -[first_where] in E, Hx. rewrite E. cbn -[first_where].
  destruct (first_where (has_balance userID) (t_rewards (committed w1)));
    rewrite <- Hx; reflexivity.
Qed.

Lemma update_update_same_pk (r r' : Reward.t) (t : list Reward.t) :
  pk r = pk r' -> update r (update r' t) = update r t.
Proof.
  intros E. unfold update. rewrite map_map. apply map_ext. intros x.
  destruct (N.eqb_spec (pk x) (pk r')) as [Ex|Ex].
  - rewrite E, N.eqb_refl, <- E, (proj2 (N.eqb_eq _ _) (eq_trans Ex (eq_sym E))).
    reflexivity.
  - rewrite E, (proj2 (N.eqb_neq _ _) Ex). reflexivity.
Qed.

Lemma filter_user_update (userID : N) (row existing : Reward.t) (t : list Reward.t) :
  wf_table t -> In existing t -> pk row = pk existing ->
  user_id_is userID row = user_id_is userID existing ->
  List.filter (user_id_is userID) (update row t)
  = update row (List.filter (user_id_is userID) t).
Proof.
  intros Hwf Hin Hpk Hu. apply filter_update. intros x Hx E.
  rewrite Hpk in E. rewrite (NoDup_pk_eq t x existing (proj1 Hwf) Hx Hin E). symmetry.
  exact Hu.
Qed.

(** C1 (amended). For a user that has a reward row, in a reward table
    with unique non-zero keys, two calls of [UpdateReward] for that user
    with balances B1 then B2, B2 non-zero, both returning nil, overwrite
    the user's row with the lowest key: afterwards its balance is B2 (not
    B1 + B2, not B1) and its type, point and incident report are those of
    the second call, and it is the row a lookup for the user finds.  Every
    other reward row, further rows of the same user included, is what it
    was, so the user has as many rows as before; a user with exactly one
    row still has exactly one. *)
Theorem UpdateReward_twice_overwrites
    (userID : N) (reward1 reward2 existing : Reward.t) (w : World) :
  wf_table (rows rewards (committed w)) ->
  first_where (user_id_is userID) (rows rewards (committed w)) = Some existing ->
  Reward.Balance reward2 <> 0%Z ->
  let w1 := world_of exec (UpdateReward userID reward1) w in
  let w2 := world_of exec (UpdateReward userID reward2) w1 in
  let t := rows rewards (committed w) in
  let t2 := rows rewards (committed w2) in
  result_of exec (UpdateReward userID reward1) w = None ->
  result_of exec (UpdateReward userID reward2) w1 = None ->
  exists row,
    t2 = update row t
    /\ first_where (user_id_is userID) t2 = Some row
    /\ Reward.Balance row = Reward.Balance reward2
    /\ Reward.RewardType row = Reward.RewardType reward2
    /\ Reward.Point row = Reward.Point reward2
    /\ Reward.IncidentReportID row = Reward.IncidentReportID reward2
    /\ Reward.ID row = Reward.ID existing
    /\ Reward.UserID row = userID
    /\ length (List.filter (user_id_is userID) t2)
       = length (List.filter (user_id_is userID) t)
    /\ (List.filter (user_id_is userID) t = [existing] ->
        List.filter (user_id_is userID) t2 = [row]).
Proof.
  intros Hwf Hfirst Hb2 w1 w2 t t2 Hnil1 Hnil2.
  destruct (first_where_In _ _ _ Hfirst) as [Hin Hu].
  set (r1 := overwrite reward1 existing).
  set (row := overwrite reward2 r1).
  pose proof (UpdateReward_preserves_wf userID reward1 w Hwf) as Hwf1. fold w1 in Hwf1.
  assert (rows rewards (committed w1) = update r1 t) as Ht1
    by (unfold w1; rewrite (UpdateReward_found _ _ _ _ Hwf Hfirst Hnil1);
        apply rows_set_rows).
  assert (first_where (user_id_is userID) (rows rewards (committed w1)) = Some r1) as Hfirst1
    by (rewrite Ht1; apply first_where_after_update; assumption).
  assert (t2 = update row t) as Ht2.
  { unfold t2, w2. rewrite (UpdateReward_found _ _ _ _ Hwf1 Hfirst1 Hnil2), rows_set_rows, Ht1.
    apply update_update_same_pk. reflexivity. }
  assert (List.filter (user_id_is userID) t2 = update row (List.filter (user_id_is userID) t))
    as Hfilter.
  { rewrite Ht2. apply (filter_user_update userID row existing t Hwf Hin); reflexivity. }
  exists row. split; [exact Ht2|]. split.
  { unfold t2, w2. rewrite (UpdateReward_found _ _ _ _ Hwf1 Hfirst1 Hnil2), rows_set_rows.
    apply first_where_after_update; assumption. }
  split; [cbn; rewrite (proj2 (Z.eqb_neq _ _) Hb2); reflexivity|].
  split; [reflexivity|]. split; [reflexivity|]. split; [reflexivity|].
  split; [reflexivity|].
  split; [apply N.eqb_eq; exact Hu|].
  split.
  - rewrite Hfilter. unfold update. apply length_map.
  - intros Hone. rewrite Hfilter, Hone. unfold update. cbn. rewrite N.eqb_refl. reflexivity.
Qed.

(** C1, as stated, fails: a user with two reward rows (a state
    [UpdateReward] itself reaches when the reward names another user than
    the one looked up) still has two rows after two successful calls, and
    only the row with the lowest key has the second balance. *)
Lemma UpdateReward_second_row_counterexample :
  let w := SampleMore.two_rows_world in
  let w1 := world_of exec (UpdateReward 7 Sample.reward_arg) w in
  let w2 := world_of exec (UpdateReward 7 Sample.reward_arg2) w1 in
  map Reward.ID (rows rewards (committed w)) = [1%N; 2%N]
  /\ map Reward.UserID (rows rewards (committed w)) = [7%N; 7%N]
  /\ result_of exec (UpdateReward 7 Sample.reward_arg) w = None
  /\ result_of exec (UpdateReward 7 Sample.reward_arg2) w1 = None
  /\ Reward.Balance Sample.reward_arg2 = 40%Z
  /\ map Reward.Balance (List.filter (user_id_is 7) (rows rewards (committed w2)))
     = [40%Z; 9%Z]
  /\ length (List.filter (user_id_is 7) (rows rewards (committed w2))) <> 1%nat.
Proof. repeat split. discriminate. Qed.

Lemma sample_two_rows_wf : wf_table (rows rewards (committed SampleMore.two_rows_world)).
Proof.
  split.
  - repeat constructor; simpl; intuition discriminate.
  - repeat constructor; discriminate.
Defined.

Lemma UpdateReward_twice_overwrites_witness :
  let w1 := world_of exec (UpdateReward 7 Sample.reward_arg) SampleMore.two_rows_world in
  let w2 := world_of exec (UpdateReward 7 Sample.reward_arg2) w1 in
  exists row,
    rows rewards (committed w2) = update row [Sample.reward_row; SampleMore.reward_row_b]
    /\ first_where (user_id_is 7) (rows rewards (committed w2)) = Some row
    /\ Reward.Balance row = 40%Z
    /\ Reward.RewardType row = "bonus"
    /\ Reward.Point row = 25%Z
    /\ Reward.IncidentReportID row = "report-3"
    /\ Reward.ID row = 1%N
    /\ Reward.UserID row = 7%N
    /\ length (List.filter (user_id_is 7) (rows rewards (committed w2))) = 2%nat
    /\ (List.filter (user_id_is 7) [Sample.reward_row; SampleMore.reward_row_b]
        = [Sample.reward_row] ->
        List.filter (user_id_is 7) (rows rewards (committed w2)) = [row]).
Proof.
  apply (UpdateReward_twice_overwrites 7 Sample.reward_arg Sample.reward_arg2
           Sample.reward_row SampleMore.two_rows_world);
    [exact sample_two_rows_wf | reflexivity | discriminate | reflexivity | reflexivity].
Defined.

End RewardExtras.

(** ** Listings: every page, page after page *)

Section ListingExtras.
Import IncidentReportRepo IncidentReportRepoMore Paging Listings.

Lemma next_fault_committed (w : World) : committed (snd (next_fault w)) = committed w.
Proof. unfold next_fault. destruct (plan w); reflexivity. Qed.

Lemma listing_where_filter (L : listing) (t : list IncidentReport.t) :
  List.filter (matches (listing_where L)) t = List.filter (listing_filter L) t.
Proof.
  destruct L; cbn [listing_where]; try apply filter_matches_one.
  rewrite filter_matches_nil. symmetry. apply filter_any.
Qed.

Lemma listing_answer (L : listing) (page : Z) (w : World) :
  exists q,
    q_where q = listing_where L
    /\ q_order q = Some (timeof_incidence, DESC)
    /\ q_limit q = Some 20%Z
    /\ q_offset q = int_mul (int_sub page 1) 20
    /\ rows_of (result_of exec (listing_fn L page) w)
       = (if next_statement_fails w then []
          else select q (rows incident_reports (committed w)))
    /\ (next_statement_fails w = false ->
        result_of exec (listing_fn L page) w
        = Ok (select q (rows incident_reports (committed w)))).
Proof.
  destruct L; cbn [listing_fn];
    unfold GetAllReports, GetAllReportsByState, GetAllReportsByStateByTime,
      GetAllReportsByLGA, GetAllReportsByReportType, DefaultPageSize;
    (eexists; split; [|split; [|split; [|split; [|split]]]];
     [| | | | rewrite result_of_bind_call | rewrite result_of_bind_call ]);
    try (cbn -[select int_mul int_sub]; unfold exec_read, next_fault, next_statement_fails;
         destruct w as [d x p]; destruct p as [|[m|] p]; cbn -[select int_mul int_sub];
         try reflexivity; try discriminate; intros; reflexivity);
    reflexivity.
Qed.

Lemma Sorted_skipn {A} (R : A -> A -> Prop) (n : nat) (l : list A) :
  Sorted R l -> Sorted R (skipn n l).
Proof.
  revert l. induction n as [|n IH]; intros l Hs; [exact Hs|].
  destruct l as [|x l]; [constructor|]. simpl. apply IH. inversion Hs; assumption.
Qed.

Lemma Sorted_firstn {A} (R : A -> A -> Prop) (n : nat) (l : list A) :
  Sorted R l -> Sorted R (firstn n l).
Proof.
  revert l. induction n as [|n IH]; intros l Hs; [constructor|].
  destruct l as [|x l]; [constructor|]. simpl. inversion Hs as [|? ? Hs' Hhd]; subst.
  constructor; [apply IH; exact Hs'|].
  destruct l as [|y l]; [rewrite firstn_nil; constructor|]. destruct n; [constructor|].
  simpl. constructor. inversion Hhd; assumption.
Qed.

Lemma In_skipn {A} (n : nat) (l : list A) (x : A) : In x (skipn n l) -> In x l.
Proof.
  revert l. induction n as [|n IH]; intros l; [auto|].
  destruct l as [|y l]; simpl; [tauto|]. intros Hx. right. apply IH, Hx.
Qed.

Lemma In_firstn {A} (n : nat) (l : list A) (x : A) : In x (firstn n l) -> In x l.
Proof.
  revert l. induction n as [|n IH]; intros l; simpl; [tauto|].
  destruct l as [|y l]; simpl; [tauto|]. intros [->|Hx]; auto.
Qed.

Lemma select_shape {T} (cs : list (T -> bool)) (col : T -> Z) (q : Query T) (t : list T) :
  q_where q = cs -> q_order q = Some (col, DESC) -> q_limit q = Some 20%Z ->
  (length (select q t) <= 20)%nat
  /\ Forall (fun r => matches cs r = true /\ In r t) (select q t)
  /\ Sorted (desc col) (select q t).
Proof.
  intros Hw Ho Hl. unfold select. rewrite Hw, Ho, Hl.
  change (0 <=? 20)%Z with true. cbv iota.
  set (rs := order_by col DESC (List.filter (matches cs) t)).
  set (dropped := if (0 <? q_offset q)%Z then skipn (Z.to_nat (q_offset q)) rs else rs).
  assert (forall x, In x dropped -> In x rs) as Hsub
    by (unfold dropped; destruct (0 <? q_offset q)%Z; [apply In_skipn|auto]).
  assert (Sorted (desc col) dropped) as Hsorted
    by (unfold dropped; destruct (0 <? q_offset q)%Z;
        [apply Sorted_skipn|]; apply order_by_sorted).
  split; [apply firstn_le_length|]. split; [|apply Sorted_firstn, Hsorted].
  apply List.Forall_forall. intros x Hx. apply In_firstn, Hsub in Hx.
  apply (Permutation_in _ (order_by_perm col _)) in Hx.
  apply filter_In in Hx. tauto.
Qed.

Lemma quiet_not_failing (w : World) (n : nat) : quiet (S n) w -> next_statement_fails w = false.
Proof.
  unfold quiet, next_statement_fails. destruct (plan w) as [|[m|] p]; auto.
  intros Hq. inversion Hq; discriminate.
Qed.

Lemma listing_failure (L : listing) (page page' : Z) (w : World) :
  next_statement_fails w = true ->
  result_of exec (listing_fn L page) w = result_of exec (listing_fn L page') w.
Proof.
  unfold next_statement_fails. destruct w as [d x p]. destruct p as [|[m|] p]; try discriminate.
  intros _. destruct L; reflexivity.
Qed.

Lemma matches_listing_where (L : listing) (r : IncidentReport.t) :
  matches (listing_where L) r = listing_filter L r.
Proof. destruct L; cbn; try apply andb_true_r. reflexivity. Qed.

(** X7. Whatever the page number, a listing that answers returns at most
    20 reports; each of them is stored and meets the listing's filter
    (state, state and time window, LGA or report type), and they come
    latest incident first. *)
Theorem listing_page_shape (L : listing) (page : Z) (w : World)
    (l : list IncidentReport.t) :
  result_of exec (listing_fn L page) w = Ok l ->
  (length l <= 20)%nat
  /\ Forall (fun r => listing_filter L r = true
                      /\ In r (rows incident_reports (committed w))) l
  /\ Sorted (desc timeof_incidence) l.
Proof.
  intros Hl. destruct (listing_answer L page w) as (q & Hw & Ho & Hlim & _ & Hrows & _).
  rewrite Hl in Hrows. cbn [rows_of] in Hrows.
  destruct (next_statement_fails w).
  - subst l. repeat split; try constructor. simpl. lia.
  - subst l. destruct (select_shape _ _ q (rows incident_reports (committed w)) Hw Ho Hlim)
      as (H1 & H2 & H3).
    split; [exact H1|]. split; [|exact H3].
    eapply List.Forall_impl; [|exact H2]. intros r [Hm Hin]. cbv beta.
    rewrite <- matches_listing_where. auto.
Qed.

Lemma select_nonpositive_offset {T} (q1 q2 : Query T) (t : list T) :
  q_where q1 = q_where q2 -> q_order q1 = q_order q2 -> q_limit q1 = q_limit q2 ->
  (q_offset q1 <= 0)%Z -> (q_offset q2 <= 0)%Z ->
  select q1 t = select q2 t.
Proof.
  intros Hw Ho Hl H1 H2. unfold select. rewrite Hw, Ho, Hl.
  destruct (Z.ltb_spec 0 (q_offset q1)); [lia|].
  destruct (Z.ltb_spec 0 (q_offset q2)); [lia|]. reflexivity.
Qed.

(** X8. Page 0 and negative page numbers (as far as the offset does not
    underflow) are answered like page 1: a non-positive offset is not sent
    to the store. *)
Theorem nonpositive_page_is_first_page (L : listing) (page : Z) (w : World) :
  (page <= 1)%Z -> (- 2 ^ 63 <= (page - 1) * 20)%Z ->
  result_of exec (listing_fn L page) w = result_of exec (listing_fn L 1) w.
Proof.
  intros Hp Hlow. destruct (next_statement_fails w) eqn:Hf.
  - apply listing_failure, Hf.
  - destruct (listing_answer L page w) as (q & Hw & Ho & Hl & Hoff & _ & Hok).
    destruct (listing_answer L 1 w) as (q1 & Hw1 & Ho1 & Hl1 & Hoff1 & _ & Hok1).
    rewrite (Hok Hf), (Hok1 Hf). f_equal. apply select_nonpositive_offset; try congruence.
    + rewrite Hoff. unfold int_mul, int_sub.
      rewrite (wrap64_id (page - 1)) by (unfold is_int; lia).
      rewrite wrap64_id by (unfold is_int; lia). lia.
    + rewrite Hoff1. vm_compute. discriminate.
Qed.

Lemma listing_page_rows (L : listing) (page : Z) (w : World) :
  (1 <= page)%Z -> ((page - 1) * 20 < 2 ^ 63)%Z -> next_statement_fails w = false ->
  result_of exec (listing_fn L page) w
  = Ok (firstn 20 (skipn (Z.to_nat ((page - 1) * 20))
                     (result_set (listing_filter L) (committed w)))).
Proof.
  intros H1 H2 Hf. destruct (listing_answer L page w) as (q & Hw & Ho & Hl & Hoff & _ & Hok).
  rewrite (Hok Hf). f_equal. rewrite page_offset in Hoff by assumption.
  rewrite (select_paged (listing_where L) timeof_incidence ((page - 1) * 20)%Z)
    by (auto; lia).
  rewrite listing_where_filter. reflexivity.
Qed.

Lemma firstn_add {A} (a b : nat) (l : list A) :
  firstn (a + b) l = firstn a l ++ firstn b (skipn a l).
Proof.
  revert l. induction a as [|a IH]; intros l; [reflexivity|].
  destruct l as [|x l]; simpl; [rewrite firstn_nil; reflexivity|].
  rewrite IH. reflexivity.
Qed.

Lemma concat_pages {A} (rs : list A) (k : nat) :
  concat (map (fun p => firstn 20 (skipn ((p - 1) * 20) rs)) (seq 1 k)) = firstn (k * 20) rs.
Proof.
  induction k as [|k IH]; [reflexivity|].
  rewrite seq_S, map_app, concat_app, IH. cbn [map concat]. rewrite app_nil_r.
  replace (1 + k - 1)%nat with k by lia.
  replace (S k * 20)%nat with (k * 20 + 20)%nat by lia.
  symmetry. apply firstn_add.
Qed.

Lemma all_distinct_NoDup (l : list Z) : all_distinct l = true -> List.NoDup l.
Proof.
  induction l as [|x l IH]; cbn; intros Hd; constructor.
  - apply andb_prop in Hd. destruct Hd as [Hx _]. intros Hin.
    assert (existsb (Z.eqb x) l = true) as He
      by (apply existsb_exists; exists x; split; [exact Hin | apply Z.eqb_refl]).
    rewrite He in Hx. discriminate Hx.
  - apply IH. apply andb_prop in Hd. tauto.
Qed.

Lemma NoDup_map_inj {T} (col : T -> Z) (l : list T) (a b : T) :
  List.NoDup (map col l) -> In a l -> In b l -> col a = col b -> a = b.
Proof.
  induction l as [|x l IH]; cbn; [tauto|]. intros Hnd Ha Hb E.
  apply List.NoDup_cons_iff in Hnd. destruct Hnd as [Hx Hnd].
  destruct Ha as [->|Ha], Hb as [->|Hb]; auto.
  - exfalso. apply Hx. rewrite E. apply in_map. exact Hb.
  - exfalso. apply Hx. rewrite <- E. apply in_map. exact Ha.
Qed.

Lemma Sorted_desc_head {T} (col : T -> Z) (a : T) (l : list T) :
  Sorted (desc col) (a :: l) -> forall x, In x (a :: l) -> (col x <= col a)%Z.
Proof.
  intros Hs. apply Sorted_StronglySorted in Hs.
  - apply StronglySorted_inv in Hs. destruct Hs as [_ Hall].
    intros x [<-|Hx]; [lia|]. exact (proj1 (List.Forall_forall _ _) Hall x Hx).
  - intros x y z Hxy Hyz. unfold desc in *. lia.
Qed.

(** With pairwise distinct keys there is one descending order only. *)
Lemma sorted_perm_unique {T} (col : T -> Z) (l1 l2 : list T) :
  List.NoDup (map col l1) -> Permutation l1 l2 ->
  Sorted (desc col) l1 -> Sorted (desc col) l2 -> l1 = l2.
Proof.
  revert l2. induction l1 as [|a l1 IH]; intros l2 Hnd Hp Hs1 Hs2.
  - apply Permutation_nil in Hp. congruence.
  - destruct l2 as [|b l2]; [apply Permutation_sym, Permutation_nil in Hp; discriminate|].
    assert (In b (a :: l1)) as Hb
      by (apply (Permutation_in _ (Permutation_sym Hp)); left; reflexivity).
    assert (In a (b :: l2)) as Ha by (apply (Permutation_in _ Hp); left; reflexivity).
    pose proof (Sorted_desc_head col a l1 Hs1 b Hb) as H1.
    pose proof (Sorted_desc_head col b l2 Hs2 a Ha) as H2.
    assert (a = b) as <-.
    { apply (NoDup_map_inj col (a :: l1)); auto; [left; reflexivity | lia]. }
    f_equal. apply IH.
    + cbn in Hnd. apply List.NoDup_cons_iff in Hnd. tauto.
    + exact (Permutation_cons_inv Hp).
    + inversion Hs1; assumption.
    + inversion Hs2; assumption.
Qed.

(** X9. When no two of the reports that meet a listing's filter have the
    same time of incidence, reading pages 1 to k in turn yields exactly
    the first 20k rows of the ordered result, whatever order the store
    picks: [rs] is any descending arrangement of the matching reports, and
    there is one only.  No report is skipped and none is repeated (on an
    unchanged store, while the offset fits the integer). *)
Theorem pages_tile_result_set (L : listing) (k : nat) (w : World)
    (rs : list IncidentReport.t) :
  quiet 1 w -> (Z.of_nat k * 20 < 2 ^ 63)%Z ->
  distinct_times (List.filter (listing_filter L) (rows incident_reports (committed w)))
  = true ->
  Permutation rs (List.filter (listing_filter L) (rows incident_reports (committed w))) ->
  Sorted (desc timeof_incidence) rs ->
  concat (map (fun p => rows_of (result_of exec (listing_fn L (Z.of_nat p)) w)) (seq 1 k))
  = firstn (k * 20) rs.
Proof.
  intros Hq Hk Hd Hperm Hsorted. apply quiet_not_failing in Hq.
  assert (result_set (listing_filter L) (committed w) = rs) as <-.
  { unfold result_set. apply (sorted_perm_unique timeof_incidence).
    - apply (Permutation_NoDup
               (l := map timeof_incidence
                       (List.filter (listing_filter L) (rows incident_reports (committed w))))).
      + apply Permutation_map, Permutation_sym, order_by_perm.
      + apply all_distinct_NoDup. exact Hd.
    - apply (Permutation_trans (order_by_perm _ _)). apply Permutation_sym. exact Hperm.
    - apply order_by_sorted.
    - exact Hsorted. }
  rewrite <- concat_pages. f_equal.
  apply map_ext_in. intros p Hp. apply in_seq in Hp.
  rewrite listing_page_rows by (try assumption; lia). cbn [rows_of].
  replace (Z.to_nat ((Z.of_nat p - 1) * 20)) with ((p - 1) * 20)%nat by lia. reflexivity.
Qed.

Lemma select_no_match {T} (q : Query T) (t : list T) :
  (forall r, matches (q_where q) r = false) -> select q t = [].
Proof.
  intros Hno. unfold select.
  assert (List.filter (matches (q_where q)) t = []) as ->.
  { induction t as [|x t IH]; simpl; [reflexivity|]. rewrite Hno. exact IH. }
  assert (forall (l : list T), l = [] ->
            (match q_limit q with
             | Some n => if (0 <=? n)%Z then firstn (Z.to_nat n) l else l
             | None => l
             end) = []) as Hlim.
  { intros l ->. destruct (q_limit q) as [n|]; [|reflexivity].
    destruct (0 <=? n)%Z; [apply firstn_nil|reflexivity]. }
  apply Hlim. destruct (q_order q) as [[col d]|]; cbn;
    destruct (0 <? q_offset q)%Z; try apply skipn_nil; reflexivity.
Qed.

(** X10. A time window whose end lies before its start matches no report:
    [GetAllReportsByStateByTime] answers the empty list, not an error, for
    every page. *)
Theorem inverted_time_window_is_empty (state : string) (startTime endTime page : Z)
    (w : World) :
  (endTime < startTime)%Z -> quiet 1 w ->
  result_of exec (GetAllReportsByStateByTime state startTime endTime page) w = Ok [].
Proof.
  intros Hinv Hq. apply quiet_not_failing in Hq.
  destruct (listing_answer (ByStateByTime state startTime endTime) page w)
    as (q & Hw & _ & _ & _ & _ & Hok).
  cbn [listing_fn] in Hok. rewrite (Hok Hq). f_equal. apply select_no_match.
  intros r. rewrite Hw, matches_listing_where. cbn [listing_filter].
  unfold state_is_between.
  destruct (Z.leb_spec startTime (IncidentReport.TimeofIncidence r));
    destruct (Z.leb_spec (IncidentReport.TimeofIncidence r) endTime);
    rewrite ?andb_false_r; try reflexivity. lia.
Qed.

End ListingExtras.

(** ** Incident reports: insert, upsert, counts *)

Section ReportExtras.
Import IncidentReportRepo IncidentReportRepoMore Paging Listings.
Variable found_rows : bool.

Lemma SaveIncidentReport_stored (report stored : IncidentReport.t) (w : World) :
  result_of (execX found_rows) (SaveIncidentReport report) w = Ok stored ->
  stored = stored_row report (rows incident_reports (committed w))
  /\ committed (world_of (execX found_rows) (SaveIncidentReport report) w)
     = set_rows incident_reports (rows incident_reports (committed w) ++ [stored])
         (committed w).
Proof.
  unfold result_of, world_of, SaveIncidentReport. destruct w as [d x p].
  destruct p as [|[m|] p]; do 2 db_step; try discriminate;
    destruct (insert report (t_incident_reports d)) as [l|e] eqn:E; do 2 db_step;
    try discriminate; intros [= <-]; rewrite (insert_Ok_snoc _ _ _ E); split; reflexivity.
Qed.

(** X11. A report that [SaveIncidentReport] stored is on page 1 of every
    listing whose filter it meets, as long as fewer than 20 stored reports
    met that filter before. *)
Theorem saved_report_is_listed (L : listing) (report stored : IncidentReport.t)
    (w : World) :
  result_of (execX found_rows) (SaveIncidentReport report) w = Ok stored ->
  let w1 := world_of (execX found_rows) (SaveIncidentReport report) w in
  listing_filter L stored = true ->
  (length (List.filter (listing_filter L) (rows incident_reports (committed w))) < 20)%nat ->
  quiet 1 w1 ->
  exists l, result_of exec (listing_fn L 1) w1 = Ok l /\ In stored l.
Proof.
  intros Hok w1 Hmeets Hfew Hq. destruct (SaveIncidentReport_stored _ _ _ Hok) as [_ Hc].
  fold w1 in Hc. apply quiet_not_failing in Hq.
  rewrite (listing_page_rows L 1 w1) by (auto; lia). eexists. split; [reflexivity|].
  change (Z.to_nat ((1 - 1) * 20)) with 0%nat. cbn [skipn].
  unfold result_set. rewrite Hc, rows_set_rows, List.filter_app. cbn [List.filter].
  rewrite Hmeets.
  set (rs := order_by timeof_incidence DESC _).
  assert (Permutation rs
            (List.filter (listing_filter L) (rows incident_reports (committed w)) ++ [stored]))
    as Hperm by apply order_by_perm.
  change (skipn 0 rs) with rs. rewrite firstn_all2.
  - apply (Permutation_in _ (Permutation_sym Hperm)). apply in_or_app. right. left. reflexivity.
  - pose proof (Permutation_length Hperm) as Hlen. rewrite List.length_app in Hlen.
    cbn [length] in Hlen. lia.
Qed.

Lemma quiet_plan (n : nat) (d : DB) (x : tx_state) (f : option string)
    (p : list (option string)) :
  quiet (S n) {| committed := d; txn := x; plan := f :: p |} ->
  f = None /\ quiet n {| committed := d; txn := x; plan := p |}.
Proof. unfold quiet. cbn. intros Hq. inversion Hq; subst. auto. Qed.

(** X12. [UpdateIncidentReport] is an upsert.  When the store answers, it
    returns the report as stored: a report with a zero key is inserted
    under a fresh key, a report whose key a stored report has replaces
    that row (the number of reports stays), and a report with a non-zero
    key that no stored report has is appended by a second statement after
    the update that touched no row.  When that second statement fails the
    error comes back wrapped and the reports are unchanged, as they are
    when the first statement fails. *)
Theorem UpdateIncidentReport_upserts (report : IncidentReport.t) (w : World) :
  let t : list IncidentReport.t := rows incident_reports (committed w) in
  let res := result_of (execX found_rows) (UpdateIncidentReport report) w in
  let w' := world_of (execX found_rows) (UpdateIncidentReport report) w in
  let t' : list IncidentReport.t := rows incident_reports (committed w') in
  let absent := negb (pk report =? 0)%N && negb (has_pk (pk report) t) in
  (quiet 2 w ->
   res = Ok (stored_row report t)
   /\ t' = (if (pk report =? 0)%N then t ++ [stored_row report t]
            else if has_pk (pk report) t then update report t
            else t ++ [report])
   /\ length t' = (if absent || (pk report =? 0)%N then S (length t) else length t)
   /\ plan w' = skipn (if absent then 2 else 1) (plan w))
  /\ (absent = true ->
      forall msg rest, plan w = None :: Some msg :: rest ->
        res = Err (Errorf "failed to update report: %v" (New msg))
        /\ t' = t /\ plan w' = rest)
  /\ (forall msg rest, plan w = Some msg :: rest ->
        res = Err (Errorf "failed to update report: %v" (New msg))
        /\ t' = t /\ plan w' = rest).
Proof.
  intros t res w' t' absent. subst t res w' t' absent.
  unfold result_of, world_of, UpdateIncidentReport. destruct w as [d x p].
  cbn -[exec_save stored_row has_pk update]. unfold exec_store.
  cbn -[exec_save stored_row has_pk update]. unfold exec_save.
  cbn -[stored_row has_pk update save].
  unfold save, insert, stored_row. cbn -[has_pk update next_id].
  destruct (N.eqb_spec (IncidentReport.ID report) 0) as [E0|E0];
    destruct (has_pk (IncidentReport.ID report) (t_incident_reports d)) eqn:Hh;
    cbn -[has_pk update next_id].
  all: split; [intros Hq|split; [intros Ha; try discriminate Ha; intros msg rest Hp
                                |intros msg rest Hp]].
  all: try (subst p; unfold exec_write, next_fault, write_table;
            cbn -[has_pk update next_id]; rewrite ?Hh;
            cbn -[has_pk update next_id];
            repeat split; fail).
  all: destruct p as [|f1 p]; [|apply quiet_plan in Hq; destruct Hq as [-> Hq]];
    try (destruct p as [|f2 p]; [|apply quiet_plan in Hq; destruct Hq as [-> Hq]]).
  all: unfold exec_write, next_fault, write_table; cbn -[has_pk update next_id];
    rewrite ?Hh; cbn -[has_pk update next_id].
  all: unfold update; rewrite ?List.length_app, ?length_map; cbn [length];
    repeat split; try lia.
Qed.

Lemma SaveStateLgaReportType_committed lga state reportType subReport w :
  result_of exec (SaveStateLgaReportType lga state reportType subReport) w = None ->
  exists l,
    insert reportType (rows report_types (committed w)) = Ok l
    /\ rows report_types
         (committed (world_of exec (SaveStateLgaReportType lga state reportType subReport) w))
       = l.
Proof.
  unfold result_of, world_of, SaveStateLgaReportType. destruct w as [d x p].
  repeat (db_step;
          match goal with
          | |- context [match ?p with [] => _ | _ :: _ => _ end] =>
              is_var p; destruct p as [|[?|] ?]
          | |- context [insert ?r ?t] => destruct (insert r t) eqn:?
          end).
  all: try discriminate.
  all: intros _; eexists; split; reflexivity.
Qed.

Lemma count_quiet (t : table) (c : row t -> bool) (w : World) :
  quiet 1 w ->
  fst (exec _ (Count t c) w) = Ok (count_where c (rows t (committed w))).
Proof.
  intros Hq. cbn.
  destruct (exec_read_quiet (fun d => Ok (count_where c (rows t d))) w 0 Hq) as (w1 & E & _).
  rewrite E. reflexivity.
Qed.

Lemma GetTotalReportCount_quiet (w : World) :
  quiet 1 w ->
  result_of exec GetTotalReportCount w
  = Ok (Z.of_nat (length (rows report_types (committed w)))).
Proof.
  intros Hq. unfold GetTotalReportCount. rewrite result_of_bind_call.
  rewrite (count_quiet report_types any_report_type w Hq). cbn -[count_where].
  unfold count_where. f_equal. f_equal. f_equal.
  induction (t_report_types (committed w)); simpl; congruence.
Qed.

(** X13. [GetTotalReportCount] counts the rows of the report-type table: a
    successful [SaveStateLgaReportType] raises it by one, and storing an
    incident report with [SaveIncidentReport] leaves it as it was. *)
Theorem GetTotalReportCount_counts_report_types
    (lga : LGA.t) (state : State.t) (reportType : ReportType.t) (subReport : SubReport.t)
    (report stored : IncidentReport.t) (w : World) (n : Z) :
  quiet 1 w ->
  result_of exec GetTotalReportCount w = Ok n ->
  (let w1 := world_of exec (SaveStateLgaReportType lga state reportType subReport) w in
   result_of exec (SaveStateLgaReportType lga state reportType subReport) w = None ->
   quiet 1 w1 ->
   result_of exec GetTotalReportCount w1 = Ok (n + 1)%Z)
  /\ (let w2 := world_of (execX found_rows) (SaveIncidentReport report) w in
      result_of (execX found_rows) (SaveIncidentReport report) w = Ok stored ->
      quiet 1 w2 ->
      result_of exec GetTotalReportCount w2 = Ok n).
Proof.
  intros Hq Hn. rewrite (GetTotalReportCount_quiet w Hq) in Hn. injection Hn as <-. split.
  - intros w1 Hnil Hq1. rewrite (GetTotalReportCount_quiet w1 Hq1).
    destruct (SaveStateLgaReportType_committed _ _ _ _ _ Hnil) as (l & Hl & Hrows).
    fold w1 in Hrows. rewrite Hrows, (insert_Ok_snoc _ _ _ Hl), List.length_app.
    cbn [length]. rewrite Nat2Z.inj_add. reflexivity.
  - intros w2 Hok Hq2. rewrite (GetTotalReportCount_quiet w2 Hq2).
    destruct (SaveIncidentReport_stored _ _ _ Hok) as [_ Hc]. fold w2 in Hc.
    rewrite Hc. reflexivity.
Qed.

(** X14. [Save] and [SaveIncidentReport] send the same insert and leave the
    same store; they differ in what they return: [Save] the store's error
    as it is, [SaveIncidentReport] the stored report, or the error wrapped
    in "failed to save report". *)
Theorem Save_and_SaveIncidentReport_agree (report : IncidentReport.t) (w : World) :
  world_of exec (Save report) w = world_of (execX found_rows) (SaveIncidentReport report) w
  /\ match result_of exec (Save report) w with
     | None =>
         result_of (execX found_rows) (SaveIncidentReport report) w
         = Ok (stored_row report (rows incident_reports (committed w)))
     | Some err =>
         result_of (execX found_rows) (SaveIncidentReport report) w
         = Err (Errorf "failed to save report: %v" err)
     end.
Proof.
  unfold result_of, world_of, Save, SaveIncidentReport. destruct w as [d x p].
  destruct p as [|[m|] p]; do 2 db_step; try (split; reflexivity);
    destruct (insert report (t_incident_reports d)) as [l|e] eqn:E; do 2 db_step;
    split; reflexivity.
Qed.

End ReportExtras.

(** ** Blacklist and users *)

Section MoreTableFacts2.
Context {T : Type} `{Model T}.

Lemma stored_pk_fresh (r : T) (t l : list T) :
  insert r t = Ok l -> has_pk (pk (stored_row r t)) t = false /\ pk (stored_row r t) <> 0%N.
Proof.
  unfold insert, stored_row. destruct (N.eqb_spec (pk r) 0) as [E|E].
  - intros _. rewrite pk_with_pk. split; [|unfold next_id; lia].
    apply not_true_is_false. intros Hh. apply existsb_exists in Hh.
    destruct Hh as (x & Hx & Hk). apply N.eqb_eq in Hk. apply max_pk_ge in Hx.
    unfold next_id in Hk. lia.
  - destruct (has_pk (pk r) t) eqn:Hh; [discriminate|]. auto.
Qed.

Lemma filter_pk_absent (k : N) (t : list T) :
  has_pk k t = false -> List.filter (fun x => (pk x =? k)%N) t = [].
Proof.
  unfold has_pk. induction t as [|x t IH]; simpl; [reflexivity|].
  destruct (pk x =? k)%N; [discriminate|]. exact IH.
Qed.

Lemma count_where_existsb (c : T -> bool) (t : list T) :
  (0 <? count_where c t)%Z = existsb c t.
Proof.
  unfold count_where. induction t as [|x t IH]; simpl; [reflexivity|].
  destruct (c x); simpl; [|exact IH].
  destruct (Z.ltb_spec 0 (Z.of_nat (S (length (List.filter c t))))); [reflexivity|lia].
Qed.

Lemma update_where_others (c : T -> bool) (set : T -> T) (t : list T) :
  (forall x, c (set x) = c x) ->
  List.filter (fun x => negb (c x)) (update_where c set t)
  = List.filter (fun x => negb (c x)) t.
Proof.
  intros Hc. unfold update_where. induction t as [|x t IH]; [reflexivity|].
  cbn [map List.filter]. destruct (c x) eqn:E.
  - rewrite Hc, E. cbn. exact IH.
  - rewrite E. cbn. rewrite IH. reflexivity.
Qed.

Lemma update_where_no_match (c : T -> bool) (set : T -> T) (t : list T) :
  existsb c t = false -> update_where c set t = t.
Proof.
  unfold update_where. induction t as [|x t IH]; simpl; [reflexivity|].
  destruct (c x); simpl; [discriminate|]. intros Hn. rewrite IH by exact Hn. reflexivity.
Qed.

End MoreTableFacts2.

Section BlacklistExtras.
Import AuthRepo.

(** X15. [IsTokenInBlacklist] fails open: when its count query comes back
    with an error it answers false, whether or not the token is stored. *)
Theorem IsTokenInBlacklist_fails_open (token : string) (w : World) :
  next_statement_fails w = true ->
  result_of exec (IsTokenInBlacklist token) w = false.
Proof.
  unfold next_statement_fails, result_of. destruct w as [d x p].
  destruct p as [|[m|] p]; try discriminate. reflexivity.
Qed.

Lemma AddToBlackList_stored (b : Blacklist.t) (w : World) :
  result_of exec (AddToBlackList b) w = None ->
  rows blacklists (committed (world_of exec (AddToBlackList b) w))
  = rows blacklists (committed w) ++ [stored_row b (rows blacklists (committed w))].
Proof.
  unfold result_of, world_of, AddToBlackList. destruct w as [d x p].
  destruct p as [|[m|] p]; do 2 db_step; try discriminate;
    destruct (insert b (t_blacklists d)) as [l|e] eqn:E; do 2 db_step;
    try discriminate; intros _; exact (insert_Ok_snoc _ _ _ E).
Qed.

Lemma IsTokenInBlacklist_quiet (token : string) (w : World) :
  quiet 1 w ->
  result_of exec (IsTokenInBlacklist token) w
  = existsb (token_is (normalizeToken token)) (rows blacklists (committed w)).
Proof.
  intros Hq. unfold IsTokenInBlacklist. rewrite result_of_bind_call.
  rewrite (count_quiet blacklists (token_is (normalizeToken token)) w Hq).
  cbn -[count_where normalizeToken]. apply count_where_existsb.
Qed.

(** X16. A token added with [AddToBlackList] is reported by
    [IsTokenInBlacklist] for every spelling that trims to the stored
    token, and tokens that were reported before stay reported. *)
Theorem AddToBlackList_then_IsTokenInBlacklist (b : Blacklist.t) (w : World) :
  result_of exec (AddToBlackList b) w = None ->
  let w1 := world_of exec (AddToBlackList b) w in
  quiet 1 w -> quiet 1 w1 ->
  (forall token, normalizeToken token = Blacklist.Token b ->
     result_of exec (IsTokenInBlacklist token) w1 = true)
  /\ (forall token, result_of exec (IsTokenInBlacklist token) w = true ->
        result_of exec (IsTokenInBlacklist token) w1 = true).
Proof.
  intros Hnil w1 Hq Hq1. pose proof (AddToBlackList_stored b w Hnil) as Hrows.
  fold w1 in Hrows. split; intros token Ht;
    rewrite (IsTokenInBlacklist_quiet token w1 Hq1), Hrows, List.existsb_app.
  - cbn [existsb]. apply orb_true_iff. right. rewrite orb_false_r.
    unfold token_is, stored_row. rewrite Ht.
    destruct (pk b =? 0)%N; apply String.eqb_refl.
  - rewrite (IsTokenInBlacklist_quiet token w Hq) in Ht. apply orb_true_iff. left. exact Ht.
Qed.

End BlacklistExtras.

Section UserExtras.
Import AuthRepoUsers IncidentReportRepoMore.
Variable found_rows : bool.

Lemma CreateUser_stored (u stored : User.t) (w : World) :
  result_of (execX found_rows) (CreateUser (Some u)) w = Ok stored ->
  exists l, insert u (rows users (committed w)) = Ok l
    /\ stored = stored_row u (rows users (committed w))
    /\ rows users (committed (world_of (execX found_rows) (CreateUser (Some u)) w))
       = rows users (committed w) ++ [stored].
Proof.
  unfold result_of, world_of, CreateUser. destruct w as [d x p].
  destruct p as [|[m|] p]; do 2 db_step; try discriminate;
    destruct (insert u (t_users d)) as [l|e] eqn:E; do 2 db_step;
    try discriminate; intros [= <-]; exists l;
    (split; [reflexivity|split; [reflexivity|exact (insert_Ok_snoc _ _ _ E)]]).
Qed.

Lemma first_quiet (t : table) (c : row t -> bool) (w : World) :
  quiet 1 w ->
  fst (exec _ (First t c) w)
  = match @first_where _ (row_model t) c (rows t (committed w)) with
    | Some r => Ok r
    | None => Err ErrRecordNotFound
    end.
Proof.
  intros Hq. cbn -[first_where].
  destruct (exec_read_quiet
              (fun d => match @first_where _ (row_model t) c (rows t d) with
                        | Some r => Ok r
                        | None => Err ErrRecordNotFound
                        end) w 0 Hq) as (w1 & E & _).
  rewrite E. reflexivity.
Qed.

Lemma first_where_users_appended (c : User.t -> bool) (t : list User.t) (stored : User.t) :
  List.filter c t = [] -> c stored = true -> first_where c (t ++ [stored]) = Some stored.
Proof.
  intros Hnone Hc. apply first_where_single.
  rewrite List.filter_app, Hnone. simpl. rewrite Hc. reflexivity.
Qed.

(** X17. A user that [CreateUser] stored comes back from [FindUserByID]
    under the key the store gave it, which is never zero. *)
Theorem CreateUser_then_FindUserByID (u stored : User.t) (w : World) :
  result_of (execX found_rows) (CreateUser (Some u)) w = Ok stored ->
  let w1 := world_of (execX found_rows) (CreateUser (Some u)) w in
  quiet 1 w1 ->
  User.ID stored <> 0%N
  /\ result_of exec (FindUserByID (User.ID stored)) w1 = Ok stored.
Proof.
  intros Hok w1 Hq. destruct (CreateUser_stored _ _ _ Hok) as (l & Hl & Hs & Hrows).
  fold w1 in Hrows. destruct (stored_pk_fresh _ _ _ Hl) as [Hfresh Hnz].
  rewrite <- Hs in Hfresh, Hnz. split; [exact Hnz|].
  unfold FindUserByID. rewrite result_of_bind_call.
  rewrite (first_quiet users (id_is (User.ID stored)) w1 Hq). cbn [row row_model].
  rewrite Hrows, first_where_users_appended; [reflexivity| |apply N.eqb_refl].
  exact (filter_pk_absent _ _ Hfresh).
Qed.

Lemma IsEmailExist_quiet (email : string) (w : World) :
  quiet 1 w ->
  result_of exec (IsEmailExist email) w
  = if existsb (email_is email) (rows users (committed w))
    then Some (New "email already in use") else None.
Proof.
  intros Hq. unfold IsEmailExist. rewrite result_of_bind_call.
  rewrite (count_quiet users (email_is email) w Hq). cbn -[count_where].
  pose proof (count_where_existsb (email_is email) (t_users (committed w))) as Hc.
  cbn [rows]. rewrite <- Hc.
  destruct (0 <? count_where (email_is email) (t_users (committed w)))%Z; reflexivity.
Qed.

(** X18. [IsEmailExist] returns nil exactly when no stored user has the
    email; once [CreateUser] has stored a user, it reports that user's
    email as already in use. *)
Theorem IsEmailExist_after_CreateUser (u stored : User.t) (email : string) (w : World) :
  quiet 1 w ->
  (result_of exec (IsEmailExist email) w = None
   <-> forall x, In x (rows users (committed w)) -> User.Email x <> email)
  /\ (let w1 := world_of (execX found_rows) (CreateUser (Some u)) w in
      result_of (execX found_rows) (CreateUser (Some u)) w = Ok stored ->
      quiet 1 w1 ->
      result_of exec (IsEmailExist (User.Email u)) w1 = Some (New "email already in use")).
Proof.
  intros Hq. split.
  - rewrite (IsEmailExist_quiet email w Hq).
    destruct (existsb (email_is email) (rows users (committed w))) eqn:E.
    + split; [discriminate|]. intros Hno. apply existsb_exists in E.
      destruct E as (x & Hx & Hm). apply String.eqb_eq in Hm. exfalso. exact (Hno x Hx Hm).
    + split; [|reflexivity]. intros _ x Hx Hm.
      assert (existsb (email_is email) (rows users (committed w)) = true) as Ht
        by (apply existsb_exists; exists x; split; [exact Hx | apply String.eqb_eq, Hm]).
      congruence.
  - intros w1 Hok Hq1. destruct (CreateUser_stored _ _ _ Hok) as (l & _ & Hs & Hrows).
    fold w1 in Hrows. rewrite (IsEmailExist_quiet _ w1 Hq1), Hrows, List.existsb_app.
    assert (email_is (User.Email u) stored = true) as Hm.
    { rewrite Hs. unfold email_is, stored_row. destruct (pk u =? 0)%N; apply String.eqb_refl. }
    cbn [existsb]. rewrite Hm, orb_true_r. reflexivity.
Qed.

(** X19. [FindUserByUsername] finds a user by e-mail address as well as by
    user name: what it returns is a stored user one of whose two columns
    equals the argument, it succeeds whenever such a user exists, and
    otherwise it reports the wrapped not-found error. *)
Theorem FindUserByUsername_matches_either_column (name : string) (w : World) :
  quiet 1 w ->
  (forall u, result_of exec (FindUserByUsername name) w = Ok u ->
     In u (rows users (committed w)) /\ (User.Email u = name \/ User.Username u = name))
  /\ (forall x, In x (rows users (committed w)) ->
        User.Email x = name \/ User.Username x = name ->
        exists u, result_of exec (FindUserByUsername name) w = Ok u)
  /\ ((forall x, In x (rows users (committed w)) ->
         User.Email x <> name /\ User.Username x <> name) ->
      result_of exec (FindUserByUsername name) w
      = Err (Errorf "could not find user: %v" ErrRecordNotFound)).
Proof.
  intros Hq.
  assert (result_of exec (FindUserByUsername name) w
          = match first_where (email_or_username_is name) (rows users (committed w)) with
            | Some u => Ok u
            | None => Err (Errorf "could not find user: %v" ErrRecordNotFound)
            end) as Hres.
  { unfold FindUserByUsername. rewrite result_of_bind_call.
    rewrite (first_quiet users (email_or_username_is name) w Hq). cbn [row row_model rows].
    destruct (first_where (email_or_username_is name) (t_users (committed w))); reflexivity. }
  rewrite Hres.
  destruct (first_where (email_or_username_is name) (rows users (committed w)))
    as [a|] eqn:Hfirst.
  - destruct (first_where_In _ _ _ Hfirst) as [Hin Hm]. split; [|split].
    + intros u [= <-]. split; [exact Hin|]. unfold email_or_username_is in Hm.
      apply orb_prop in Hm. destruct Hm as [Hm|Hm]; apply String.eqb_eq in Hm; auto.
    + intros. eexists. reflexivity.
    + intros Hno. destruct (Hno a Hin) as [H1 H2]. unfold email_or_username_is in Hm.
      apply orb_prop in Hm. destruct Hm as [Hm|Hm]; apply String.eqb_eq in Hm; contradiction.
  - pose proof (first_where_None _ _ Hfirst) as Hnone. split; [|split].
    + intros u Hu. discriminate Hu.
    + intros x Hx Hm. exfalso.
      assert (In x (List.filter (email_or_username_is name) (rows users (committed w)))) as Hf.
      { apply filter_In. split; [exact Hx|]. unfold email_or_username_is.
        destruct Hm as [<-|<-]; rewrite String.eqb_refl; [reflexivity|apply orb_true_r]. }
      rewrite Hnone in Hf. destruct Hf.
    + reflexivity.
Qed.

(** X20. [FindUserByID] and [FindUserByEmail] translate the ORM's not-found
    condition into the error "user not found"; a stored user with the key
    or the e-mail address is what they return otherwise. *)
Theorem user_lookups_report_not_found (id : N) (email : string) (w : World) :
  quiet 1 w ->
  ((forall x, In x (rows users (committed w)) -> User.ID x <> id) ->
   result_of exec (FindUserByID id) w = Err (New "user not found"))
  /\ ((forall x, In x (rows users (committed w)) -> User.Email x <> email) ->
      result_of exec (FindUserByEmail email) w = Err (New "user not found"))
  /\ (forall x, In x (rows users (committed w)) -> User.ID x = id ->
        exists u, result_of exec (FindUserByID id) w = Ok u /\ User.ID u = id)
  /\ (forall x, In x (rows users (committed w)) -> User.Email x = email ->
        exists u, result_of exec (FindUserByEmail email) w = Ok u /\ User.Email u = email).
Proof.
  intros Hq.
  assert (forall c : User.t -> bool,
            (forall x, In x (rows users (committed w)) -> c x = false) ->
            first_where c (rows users (committed w)) = None) as Hnone.
  { intros c Hc. destruct (first_where c (rows users (committed w))) as [a|] eqn:E; auto.
    destruct (first_where_In _ _ _ E) as [Hin Hm]. rewrite (Hc a Hin) in Hm. discriminate. }
  assert (forall (c : User.t -> bool) x, In x (rows users (committed w)) -> c x = true ->
            exists u, first_where c (rows users (committed w)) = Some u /\ c u = true) as Hsome.
  { intros c x Hx Hm. destruct (first_where c (rows users (committed w))) as [a|] eqn:E.
    - exists a. split; [reflexivity|]. exact (proj2 (first_where_In _ _ _ E)).
    - exfalso. assert (In x (List.filter c (rows users (committed w)))) as Hf
        by (apply filter_In; auto).
      rewrite (first_where_None _ _ E) in Hf. destruct Hf. }
  split; [|split; [|split]].
  - intros Hno. unfold FindUserByID. rewrite result_of_bind_call.
    rewrite (first_quiet users (id_is id) w Hq). cbn [row row_model].
    rewrite Hnone; [reflexivity|]. intros x Hx. apply N.eqb_neq. auto.
  - intros Hno. unfold FindUserByEmail. rewrite result_of_bind_call.
    rewrite (first_quiet users (email_is email) w Hq). cbn [row row_model].
    rewrite Hnone; [reflexivity|]. intros x Hx. apply String.eqb_neq. auto.
  - intros x Hx Hm. destruct (Hsome (id_is id) x Hx) as (u & Hu & Hc);
      [apply N.eqb_eq, Hm|].
    exists u. split; [|apply N.eqb_eq, Hc].
    unfold FindUserByID. rewrite result_of_bind_call.
    rewrite (first_quiet users (id_is id) w Hq). cbn [row row_model]. rewrite Hu. reflexivity.
  - intros x Hx Hm. destruct (Hsome (email_is email) x Hx) as (u & Hu & Hc);
      [apply String.eqb_eq, Hm|].
    exists u. split; [|apply String.eqb_eq, Hc].
    unfold FindUserByEmail. rewrite result_of_bind_call.
    rewrite (first_quiet users (email_is email) w Hq). cbn [row row_model]. rewrite Hu.
    reflexivity.
Qed.

Lemma update_users_run (c : User.t -> bool) (set : User.t -> User.t) (w : World) :
  (next_statement_fails w = true ->
   exists e w1, execX found_rows _ (UpdateUsers c set) w = ((0%Z, Some e), w1)
                /\ committed w1 = committed w)
  /\ (next_statement_fails w = false ->
      exists w1, execX found_rows _ (UpdateUsers c set) w
                 = ((rows_affected found_rows c set (rows users (committed w)), None), w1)
                 /\ committed w1
                    = set_rows users (update_where c set (rows users (committed w)))
                        (committed w)).
Proof.
  unfold next_statement_fails. destruct w as [d x p].
  destruct p as [|[m|] p]; split; intros Hf; try discriminate;
    cbn -[rows_affected update_where]; unfold exec_update, next_fault;
    cbn -[rows_affected update_where]; repeat eexists.
Qed.

Lemma rows_affected_no_match (c : User.t -> bool) (set : User.t -> User.t) (t : list User.t) :
  existsb c t = false -> rows_affected found_rows c set t = 0%Z.
Proof.
  unfold rows_affected, count_where. induction t as [|x t IH]; simpl; [reflexivity|].
  destruct (c x); simpl; [discriminate|]. exact IH.
Qed.

Lemma rows_affected_pos_match (c : User.t -> bool) (set : User.t -> User.t) (t : list User.t) :
  rows_affected found_rows c set t <> 0%Z -> existsb c t = true.
Proof.
  intros Hn. destruct (existsb c t) eqn:E; [reflexivity|].
  elim Hn. apply rows_affected_no_match, E.
Qed.

Lemma no_user_with_id (id : N) (t : list User.t) :
  (forall x, In x t -> User.ID x <> id) -> existsb (id_is id) t = false.
Proof.
  intros Hno. apply not_true_is_false. intros Ht. apply existsb_exists in Ht.
  destruct Ht as (x & Hx & Hm). apply N.eqb_eq in Hm. exact (Hno x Hx Hm).
Qed.

(** X21. For a user key that no stored user has, [UpdateUserStatus] returns
    nil as if the update had happened, whereas [UpdateUserOnlineStatus]
    and [SetUserOffline] return "no rows affected"; none of them changes
    the store. *)
Theorem status_updates_of_missing_user (user : User.t) (w : World) :
  quiet 1 w ->
  (forall x, In x (rows users (committed w)) -> User.ID x <> User.ID user) ->
  result_of (execX found_rows) (UpdateUserStatus user) w = None
  /\ result_of (execX found_rows) (UpdateUserOnlineStatus user) w
     = Some (New "no rows affected")
  /\ result_of (execX found_rows) (SetUserOffline user) w = Some (New "no rows affected")
  /\ committed (world_of (execX found_rows) (UpdateUserStatus user) w) = committed w
  /\ committed (world_of (execX found_rows) (UpdateUserOnlineStatus user) w) = committed w
  /\ committed (world_of (execX found_rows) (SetUserOffline user) w) = committed w.
Proof.
  intros Hq Hno. apply quiet_not_failing in Hq. apply no_user_with_id in Hno.
  assert (forall set, exists w1,
            execX found_rows _ (UpdateUsers (id_is (User.ID user)) set) w = ((0%Z, None), w1)
            /\ committed w1 = committed w) as Hrun.
  { intros set. destruct (proj2 (update_users_run (id_is (User.ID user)) set w) Hq)
      as (w1 & E & Hc).
    exists w1. rewrite E, Hc, rows_affected_no_match, update_where_no_match by exact Hno.
    split; [reflexivity|apply set_rows_rows]. }
  unfold result_of, world_of, UpdateUserStatus, UpdateUserOnlineStatus, SetUserOffline.
  destruct (Hrun (set_Online (User.Online user))) as (w1 & E1 & C1).
  destruct (Hrun (set_Online false)) as (w2 & E2 & C2).
  cbn -[execX]. rewrite E1, E2. cbn. repeat split; assumption.
Qed.

(** X22. When [SetUserOffline] returns nil, a stored user has the key, every
    stored user with the key is offline afterwards, and the users with
    another key are what they were. *)
Theorem SetUserOffline_sets_offline (user : User.t) (w : World) :
  result_of (execX found_rows) (SetUserOffline user) w = None ->
  let t := rows users (committed w) in
  let t' := rows users (committed (world_of (execX found_rows) (SetUserOffline user) w)) in
  (exists x, In x t /\ User.ID x = User.ID user)
  /\ (forall x, In x t' -> User.ID x = User.ID user -> User.Online x = false)
  /\ List.filter (fun x => negb (id_is (User.ID user) x)) t'
     = List.filter (fun x => negb (id_is (User.ID user) x)) t
  /\ map User.ID t' = map User.ID t.
Proof.
  intros Hnil t t'. subst t t'. revert Hnil.
  unfold result_of, world_of, SetUserOffline.
  destruct (next_statement_fails w) eqn:Hf.
  - destruct (proj1 (update_users_run (id_is (User.ID user)) (set_Online false) w) Hf)
      as (e & w1 & E & _).
    cbn -[execX]. rewrite E. cbn. discriminate.
  - destruct (proj2 (update_users_run (id_is (User.ID user)) (set_Online false) w) Hf)
      as (w1 & E & Hc).
    cbn -[execX]. rewrite E. cbn -[rows_affected]. 
    destruct (Z.eqb_spec (rows_affected found_rows (id_is (User.ID user)) (set_Online false)
                            (t_users (committed w))) 0) as [Hz|Hz]; cbn; [discriminate|].
    intros _. rewrite Hc.
    change (t_users (set_rows users ?l ?d)) with l.
    apply rows_affected_pos_match in Hz. apply existsb_exists in Hz.
    destruct Hz as (x & Hx & Hm). apply N.eqb_eq in Hm.
    split; [exists x; auto|]. unfold update_where. split; [|split].
    + intros y Hy Hid. apply in_map_iff in Hy. destruct Hy as (z & <- & Hz).
      destruct (id_is (User.ID user) z) eqn:Ez; [reflexivity|].
      apply N.eqb_neq in Ez. contradiction.
    + apply (update_where_others (id_is (User.ID user)) (set_Online false)).
      intros z. reflexivity.
    + rewrite map_map. apply map_ext. intros z.
      destruct (id_is (User.ID user) z); reflexivity.
Qed.

(** X23. [UpdateUserStatus] and [UpdateUserOnlineStatus] send the same
    update and leave the same store; their results are equal except when
    the update went through without affecting a row, where the first
    returns nil and the second "no rows affected". *)
Theorem UpdateUserStatus_and_UpdateUserOnlineStatus_agree (user : User.t) (w : World) :
  world_of (execX found_rows) (UpdateUserStatus user) w
  = world_of (execX found_rows) (UpdateUserOnlineStatus user) w
  /\ (result_of (execX found_rows) (UpdateUserStatus user) w
      = result_of (execX found_rows) (UpdateUserOnlineStatus user) w
      \/ rows_affected found_rows (id_is (User.ID user)) (set_Online (User.Online user))
           (rows users (committed w)) = 0%Z
         /\ result_of (execX found_rows) (UpdateUserStatus user) w = None
         /\ result_of (execX found_rows) (UpdateUserOnlineStatus user) w
            = Some (New "no rows affected")).
Proof.
  unfold result_of, world_of, UpdateUserStatus, UpdateUserOnlineStatus.
  destruct (next_statement_fails w) eqn:Hf.
  - destruct (proj1 (update_users_run (id_is (User.ID user))
                       (set_Online (User.Online user)) w) Hf) as (e & w1 & E & _).
    cbn -[execX]. rewrite E. cbn. auto.
  - destruct (proj2 (update_users_run (id_is (User.ID user))
                       (set_Online (User.Online user)) w) Hf) as (w1 & E & _).
    cbn -[execX]. rewrite E. cbn -[rows_affected].
    destruct (Z.eqb_spec (rows_affected found_rows (id_is (User.ID user))
                            (set_Online (User.Online user)) (t_users (committed w))) 0)
      as [Hz|Hz]; cbn -[rows_affected]; auto.
Qed.

Lemma update_where_id (c : User.t -> bool) (t : list User.t) :
  update_where c (fun u => u) t = t.
Proof.
  unfold update_where. rewrite <- (map_id t) at 2. apply map_ext. intros x.
  destruct (c x); reflexivity.
Qed.

(** X24. [UpdatePassword] with an empty password changes no user, whatever
    the store does (the struct update skips the zero value); with a
    non-empty password and a nil result every stored user with the e-mail
    address has the new password and the other users are untouched. *)
Theorem UpdatePassword_effect (password email : string) (w : World) :
  let t := rows users (committed w) in
  let t' := rows users (committed (world_of (execX found_rows)
                                     (UpdatePassword password email) w)) in
  (password = "" -> t' = t)
  /\ (password <> "" ->
      result_of (execX found_rows) (UpdatePassword password email) w = None ->
      (forall x, In x t' -> User.Email x = email -> User.HashedPassword x = password)
      /\ List.filter (fun x => negb (email_is email x)) t'
         = List.filter (fun x => negb (email_is email x)) t
      /\ map User.Email t' = map User.Email t).
Proof.
  intros t t'. subst t t'. unfold result_of, world_of, UpdatePassword.
  set (set := if (password =? "")%string then fun u : User.t => u
              else set_HashedPassword password).
  destruct (next_statement_fails w) eqn:Hf.
  - destruct (proj1 (update_users_run (email_is email) set w) Hf) as (e & w1 & E & Hc).
    cbn -[execX]. rewrite E. cbn. rewrite Hc. split; [reflexivity|]. intros _ H; discriminate H.
  - destruct (proj2 (update_users_run (email_is email) set w) Hf) as (w1 & E & Hc).
    cbn -[execX]. rewrite E. cbn -[rows_affected]. rewrite Hc.
    change (t_users (set_rows users ?l ?d)) with l. split.
    + intros ->. unfold set. cbn. apply update_where_id.
    + intros Hne _. apply String.eqb_neq in Hne. unfold set. rewrite Hne.
      unfold update_where. split; [|split].
      * intros y Hy Hm. apply in_map_iff in Hy. destruct Hy as (z & <- & Hz).
        destruct (email_is email z) eqn:Ez; [reflexivity|].
        apply String.eqb_neq in Ez. contradiction.
      * apply (update_where_others (email_is email) (set_HashedPassword password)).
        intros z. reflexivity.
      * rewrite map_map. apply map_ext. intros z.
        destruct (email_is email z); reflexivity.
Qed.

(** X25. On one store, the numbers [GetOnlineUserCount] and
    [GetRegisteredUsersCountByLGA] return are at most the number
    [GetTotalUserCount] returns, which is the number of users [GetAllUsers]
    returns: all the stored users. *)
Theorem user_counts_agree (lga : string) (w : World) (online inLGA total : Z)
    (all : list User.t) :
  quiet 1 w ->
  result_of exec GetOnlineUserCount w = Ok online ->
  result_of exec (GetRegisteredUsersCountByLGA lga) w = Ok inLGA ->
  result_of exec GetTotalUserCount w = Ok total ->
  result_of exec GetAllUsers w = Ok all ->
  (0 <= online <= total)%Z /\ (0 <= inLGA <= total)%Z
  /\ total = Z.of_nat (length all)
  /\ all = rows users (committed w).
Proof.
  intros Hq. unfold GetOnlineUserCount, GetTotalUserCount, GetAllUsers,
    GetRegisteredUsersCountByLGA.
  rewrite !result_of_bind_call.
  rewrite (count_quiet users is_online w Hq), (count_quiet users any_user w Hq),
    (count_quiet users (lga_name_is lga) w Hq).
  destruct (exec_read_quiet (fun d => Ok (select Model_ (rows users d))) w 0 Hq)
    as (w1 & E & _).
  cbn -[count_where select]. cbn -[count_where select] in E. rewrite E.
  cbn -[count_where select]. intros [= <-] [= <-] [= <-] [= <-].
  assert (forall l : list User.t, select Model_ l = l) as Hsel.
  { intros l. unfold select. cbn. apply filter_matches_nil. }
  rewrite Hsel. unfold count_where.
  assert (forall l : list User.t, List.filter any_user l = l) as Hany
    by (induction l as [|a l IH]; [reflexivity|cbn; rewrite IH; reflexivity]).
  rewrite Hany.
  pose proof (filter_length_le is_online (t_users (committed w))).
  pose proof (filter_length_le (lga_name_is lga) (t_users (committed w))).
  repeat split; lia.
Qed.

End UserExtras.

(** ** Post creation handler: responses and stored posts *)

Section HandlerExtras.
Import IO Server Trace TraceMore HandlerSpec.
Variable oor : float -> N.
Variable host : string -> string.

Ltac post_cbn :=
  cbn -[lookup String.eqb FormatUint float64_to_uint String.append PostForm insert singletonM
        next_post_id].

Ltac post_cases :=
  repeat (post_cbn;
          try unfold create_post;
          match goal with
          | |- context [match files ?c !! ?k with _ => _ end] =>
              destruct (files c !! k) as [[? ?]|] eqn:?
          | |- context [match validate_file ?e ?f with _ => _ end] =>
              destruct (validate_file e f) eqn:?
          | |- context [match validate_and_get_claims ?e ?a ?b with _ => _ end] =>
              destruct (validate_and_get_claims e a b) eqn:?
          | |- context [match ?m !! "id" with _ => _ end] =>
              destruct (m !! "id") as [[]|] eqn:?
          | |- context [match create_s3_client ?e with _ => _ end] =>
              destruct (create_s3_client e) eqn:?
          | |- context [put_object ?e ?i] =>
              destruct (put_object e i) as [? [?|]] eqn:?
          | |- context [match create_post_fault ?e ?p with _ => _ end] =>
              destruct (create_post_fault e p) eqn:?
          | |- context [if ?b then _ else _] => destruct b eqn:?
          end).

(** X26. The handler answers every request with exactly one response; its
    status is 200, 400, 401 or 500, and writing it is the last thing the
    handler does. *)
Theorem handler_answers_once (e : Env) (s : Server.Server) (c : Request) (ps : list Post) :
  let tr := trace_of IO.exec (handleCreatePost oor host s c) {| env := e; posts := ps |} in
  exists code,
    statuses tr = [code]
    /\ In code [200%Z; 400%Z; 401%Z; 500%Z]
    /\ match rev tr with
       | last :: _ => status_of last = Some code
       | [] => False
       end.
Proof.
  intros tr. subst tr. unfold trace_of, handleCreatePost, FormFile.
  post_cases.
  all: eexists; split; [reflexivity|]; split; [cbn; tauto|reflexivity].
Qed.

(** X27. The handler answers 200 exactly when a post was stored.  Then one
    post was added: it has a key, its title, category and description are
    those of the form, and the response carries it as stored.  With any
    other answer the stored posts are what they were. *)
Theorem handler_200_iff_stored (e : Env) (s : Server.Server) (c : Request) (ps : list Post) :
  let w := {| env := e; posts := ps |} in
  let tr := trace_of IO.exec (handleCreatePost oor host s c) w in
  let ps' := posts (world_of IO.exec (handleCreatePost oor host s c) w) in
  (statuses tr = [200%Z] ->
   exists stored,
     ps' = ps ++ [stored]
     /\ Post_ID stored <> 0%N
     /\ Title stored = PostForm c "title"
     /\ PostCategory stored = PostForm c "post_category"
     /\ PostDescription stored = PostForm c "post_description"
     /\ omap response_post tr = [stored])
  /\ (statuses tr <> [200%Z] -> ps' = ps).
Proof.
  intros w tr ps'. subst w tr ps'. unfold trace_of, world_of, handleCreatePost, FormFile.
  post_cases.
  all: split; [intros Hs; try discriminate Hs | intros Hs; try reflexivity].
  - eexists. split; [reflexivity|]. split; [unfold next_post_id; cbn; lia|].
    repeat split.
  - elim Hs. reflexivity.
Qed.

(** X28. The post repository is only called after an upload went through,
    and a failing insert is answered 500 with the stored posts unchanged:
    the one object that was uploaded stays in the bucket, as the failed
    insert is followed by the response and by nothing else. *)
Theorem failed_insert_leaves_upload (e : Env) (s : Server.Server) (c : Request)
    (ps : list Post) :
  let w := {| env := e; posts := ps |} in
  let tr := trace_of IO.exec (handleCreatePost oor host s c) w in
  existsb is_CreatePost tr = true ->
  length (List.filter is_PutObject tr) = 1%nat
  /\ (statuses tr = [500%Z] ->
      posts (world_of IO.exec (handleCreatePost oor host s c) w) = ps
      /\ map is_CreatePost (firstn 2 (rev tr)) = [false; true]
      /\ map is_JSON (firstn 2 (rev tr)) = [true; false]).
Proof.
  intros w tr. subst w tr. unfold trace_of, world_of, handleCreatePost, FormFile.
  post_cases.
  all: intros Hc; try discriminate Hc.
  all: split; [reflexivity|]; intros Hs; try discriminate Hs; repeat split.
Qed.

(** X29. A token whose id claim is missing or not a number is answered 400
    before anything else happens: no storage client is created, nothing
    is uploaded and no post is created, even when file and form are
    complete. *)
Theorem non_numeric_id_is_rejected (e : Env) (s : Server.Server) (c : Request)
    (ps : list Post) (claims : MapClaims) :
  let w := {| env := e; posts := ps |} in
  let tr := trace_of IO.exec (handleCreatePost oor host s c) w in
  file_ok e c = true ->
  token_from_header e c <> "" ->
  validate_and_get_claims e (token_from_header e c) (JWTSecret (Config_ s)) = Ok claims ->
  (forall f, claims !! "id" <> Some (JNumber f)) ->
  statuses tr = [400%Z]
  /\ existsb is_CreateS3Client tr = false
  /\ existsb is_PutObject tr = false
  /\ existsb is_CreatePost tr = false.
Proof.
  intros w tr Hfile Htoken Hclaims Hid. subst w tr.
  apply String.eqb_neq in Htoken. unfold file_ok in Hfile.
  unfold trace_of, handleCreatePost, FormFile.
  destruct (files c !! "postImage") as [[file fh]|]; [|discriminate Hfile].
  post_cbn. destruct (validate_file e fh); [discriminate Hfile|].
  post_cbn. rewrite Htoken. post_cbn. rewrite Hclaims. post_cbn.
  destruct (claims !! "id") as [[| | f | | |]|] eqn:E; try (repeat split; fail).
  elim (Hid f). reflexivity.
Qed.

End HandlerExtras.

(** ** The further properties on sample data *)

Section RewardWitnesses.
Import IncidentReportRepo IncidentReportRepoMore RewardSpec.

Lemma UpdateReward_lookup_failure_witness :
  result_of exec (UpdateReward 7 Sample.reward_arg) SampleMore.reward_world_down
  = Some (New "connection lost")
  /\ committed (world_of exec (UpdateReward 7 Sample.reward_arg) SampleMore.reward_world_down)
     = committed SampleMore.reward_world_down
  /\ length (trace_of exec (UpdateReward 7 Sample.reward_arg) SampleMore.reward_world_down)
     = 1%nat.
Proof.
  exact (UpdateReward_lookup_failure 7 Sample.reward_arg SampleMore.reward_world_down
           "connection lost" [] eq_refl).
Defined.

Lemma UpdateReward_idempotent_witness :
  let w1 := world_of exec (UpdateReward 7 Sample.reward_arg) Sample.reward_world in
  committed (world_of exec (UpdateReward 7 Sample.reward_arg) w1) = committed w1.
Proof.
  exact (UpdateReward_idempotent 7 Sample.reward_arg Sample.reward_world
           sample_rewards_wf eq_refl eq_refl eq_refl).
Defined.

Lemma UpdateReward_inserts_for_reward_user_witness :
  let t' := rows rewards
              (committed (world_of exec (UpdateReward 8 SampleMore.reward_new)
                            Sample.reward_world)) in
  List.filter (user_id_is 8) t' = []
  /\ count_where (user_id_is 9) t' = 1%Z.
Proof.
  apply (UpdateReward_inserts_for_reward_user 8 SampleMore.reward_new Sample.reward_world);
    [reflexivity | discriminate | reflexivity].
Defined.

Lemma GetRewardByUserID_after_UpdateReward_witness :
  exists row,
    result_of exec (GetRewardByUserID 7)
      (world_of exec (UpdateReward 7 Sample.reward_arg) Sample.reward_world) = Ok row
    /\ Reward.UserID row = 7%N
    /\ Reward.RewardType row = "report"
    /\ Reward.Point row = 10%Z
    /\ Reward.IncidentReportID row = "report-2"
    /\ (3%Z <> 0%Z -> Reward.Balance row = 3%Z).
Proof.
  exact (GetRewardByUserID_after_UpdateReward 7 Sample.reward_arg Sample.reward_world
           sample_rewards_wf eq_refl eq_refl (List.Forall_nil _)).
Defined.

Lemma HasPreviousReports_after_first_reward_witness :
  result_of exec (HasPreviousReports 9)
    (world_of exec (UpdateReward 9 SampleMore.reward_new) Sample.reward_world)
  = (true, None).
Proof.
  exact (HasPreviousReports_after_first_reward 9 SampleMore.reward_new Sample.reward_world
           eq_refl eq_refl eq_refl (List.Forall_nil _)).
Defined.

End RewardWitnesses.

Section ListingWitnesses.
Import IncidentReportRepo IncidentReportRepoMore Paging Listings.

Lemma listing_page_shape_witness :
  (length [Sample.report1] <= 20)%nat
  /\ Forall (fun r => listing_filter (ByState "Lagos") r = true
                      /\ In r (rows incident_reports (committed Sample.world1)))
       [Sample.report1]
  /\ Sorted (desc timeof_incidence) [Sample.report1].
Proof.
  exact (listing_page_shape (ByState "Lagos") 1 Sample.world1 [Sample.report1] eq_refl).
Defined.

Lemma nonpositive_page_is_first_page_witness :
  result_of exec (listing_fn All (-4)) Sample.world1
  = result_of exec (listing_fn All 1) Sample.world1.
Proof.
  apply (nonpositive_page_is_first_page All (-4) Sample.world1); [lia | lia].
Defined.

Lemma sample_many_distinct :
  distinct_times
    (List.filter (listing_filter (ByState "Lagos"))
       (rows incident_reports (committed SampleMore.busy_world))) = true.
Proof. vm_compute. reflexivity. Defined.

Lemma sample_many_perm :
  Permutation (rev SampleMore.many_reports)
    (List.filter (listing_filter (ByState "Lagos"))
       (rows incident_reports (committed SampleMore.busy_world))).
Proof.
  assert (List.filter (listing_filter (ByState "Lagos"))
            (rows incident_reports (committed SampleMore.busy_world))
          = SampleMore.many_reports) as -> by (vm_compute; reflexivity).
  apply Permutation_sym, Permutation_rev.
Defined.

Lemma sample_many_sorted : Sorted (desc timeof_incidence) (rev SampleMore.many_reports).
Proof.
  vm_compute. repeat first [constructor | (intros Hc; discriminate Hc)].
Defined.

Lemma pages_tile_result_set_witness :
  concat (map (fun p => rows_of (result_of exec (listing_fn (ByState "Lagos") (Z.of_nat p))
                                   SampleMore.busy_world)) (seq 1 3))
  = firstn (3 * 20) (rev SampleMore.many_reports).
Proof.
  apply (pages_tile_result_set (ByState "Lagos") 3 SampleMore.busy_world
           (rev SampleMore.many_reports));
    [apply List.Forall_nil | reflexivity | exact sample_many_distinct
    | exact sample_many_perm | exact sample_many_sorted].
Defined.

Lemma inverted_time_window_is_empty_witness :
  result_of exec (GetAllReportsByStateByTime "Lagos" 1800000000 1600000000 1) Sample.world1
  = Ok [].
Proof.
  apply (inverted_time_window_is_empty "Lagos" 1800000000 1600000000 1 Sample.world1);
    [reflexivity | apply List.Forall_nil].
Defined.

Lemma saved_report_is_listed_witness :
  exists l,
    result_of exec (listing_fn (ByReportType "Crime") 1)
      (world_of (execX true) (SaveIncidentReport SampleMore.report2) Sample.world1) = Ok l
    /\ In SampleMore.report2_stored l.
Proof.
  apply (saved_report_is_listed true (ByReportType "Crime") SampleMore.report2
           SampleMore.report2_stored Sample.world1);
    [reflexivity | reflexivity | cbn; lia | apply List.Forall_nil].
Defined.

Lemma UpdateIncidentReport_upserts_witness :
  rows incident_reports
    (committed (world_of (execX true) (UpdateIncidentReport SampleMore.report5)
                  Sample.world1))
  = [Sample.report1; SampleMore.report5]
  /\ result_of (execX true) (UpdateIncidentReport SampleMore.report5)
       SampleMore.world1_second_fails
     = Err (Errorf "failed to update report: %v" (New "connection lost"))
  /\ rows incident_reports
       (committed (world_of (execX true) (UpdateIncidentReport SampleMore.report5)
                     SampleMore.world1_second_fails))
     = [Sample.report1]
  /\ rows incident_reports
       (committed (world_of (execX true) (UpdateIncidentReport SampleMore.report1_edited)
                     Sample.world1))
     = [SampleMore.report1_edited].
Proof.
  split; [|split; [|split]].
  - exact (proj1 (proj2 (proj1 (UpdateIncidentReport_upserts true SampleMore.report5
                                  Sample.world1) (List.Forall_nil _)))).
  - exact (proj1 (proj1 (proj2 (UpdateIncidentReport_upserts true SampleMore.report5
                                  SampleMore.world1_second_fails))
                    eq_refl "connection lost" [] eq_refl)).
  - exact (proj1 (proj2 (proj1 (proj2 (UpdateIncidentReport_upserts true SampleMore.report5
                                         SampleMore.world1_second_fails))
                           eq_refl "connection lost" [] eq_refl))).
  - exact (proj1 (proj2 (proj1 (UpdateIncidentReport_upserts true SampleMore.report1_edited
                                  Sample.world1) (List.Forall_nil _)))).
Defined.

Lemma GetTotalReportCount_counts_report_types_witness :
  result_of exec GetTotalReportCount
    (world_of exec (SaveStateLgaReportType Sample.lga1 Sample.state1 Sample.report_type1
                      Sample.sub_report1) Sample.quiet_world) = Ok 1%Z
  /\ result_of exec GetTotalReportCount
       (world_of (execX true) (SaveIncidentReport SampleMore.report2) Sample.quiet_world)
     = Ok 0%Z.
Proof.
  destruct (GetTotalReportCount_counts_report_types true Sample.lga1 Sample.state1
              Sample.report_type1 Sample.sub_report1 SampleMore.report2
              (IncidentReport.set_ID 1 SampleMore.report2) Sample.quiet_world 0
              (List.Forall_nil _) eq_refl) as [H1 H2].
  split; [exact (H1 eq_refl (List.Forall_nil _)) | exact (H2 eq_refl (List.Forall_nil _))].
Defined.

End ListingWitnesses.

Section AuthWitnesses.
Import AuthRepo AuthRepoUsers IncidentReportRepoMore.

Lemma IsTokenInBlacklist_fails_open_witness :
  result_of exec (IsTokenInBlacklist "revoked-token") SampleMore.blacklisted_world_down
  = false.
Proof.
  exact (IsTokenInBlacklist_fails_open "revoked-token" SampleMore.blacklisted_world_down
           eq_refl).
Defined.

Lemma AddToBlackList_then_IsTokenInBlacklist_witness :
  let w1 := world_of exec (AddToBlackList SampleMore.blacklist_entry)
              Sample.blacklisted_world in
  result_of exec (IsTokenInBlacklist "  signed-out-token ") w1 = true
  /\ result_of exec (IsTokenInBlacklist "revoked-token") w1 = true.
Proof.
  destruct (AddToBlackList_then_IsTokenInBlacklist SampleMore.blacklist_entry
              Sample.blacklisted_world eq_refl (List.Forall_nil _) (List.Forall_nil _))
    as [H1 H2].
  split; [exact (H1 "  signed-out-token " eq_refl) | exact (H2 "revoked-token" eq_refl)].
Defined.

Lemma CreateUser_then_FindUserByID_witness :
  User.ID SampleMore.user_ada <> 0%N
  /\ result_of exec (FindUserByID (User.ID SampleMore.user_ada))
       (world_of (execX true) (CreateUser (Some SampleMore.user_new)) Sample.quiet_world)
     = Ok SampleMore.user_ada.
Proof.
  exact (CreateUser_then_FindUserByID true SampleMore.user_new SampleMore.user_ada
           Sample.quiet_world eq_refl (List.Forall_nil _)).
Defined.

Lemma IsEmailExist_after_CreateUser_witness :
  (result_of exec (IsEmailExist "ada@example.com") Sample.quiet_world = None
   <-> forall x, In x (rows users (committed Sample.quiet_world)) ->
                 User.Email x <> "ada@example.com")
  /\ result_of exec (IsEmailExist "ada@example.com")
       (world_of (execX true) (CreateUser (Some SampleMore.user_new)) Sample.quiet_world)
     = Some (New "email already in use").
Proof.
  destruct (IsEmailExist_after_CreateUser true SampleMore.user_new SampleMore.user_ada
              "ada@example.com" Sample.quiet_world (List.Forall_nil _)) as [H1 H2].
  split; [exact H1 | exact (H2 eq_refl (List.Forall_nil _))].
Defined.

Lemma FindUserByUsername_matches_either_column_witness :
  exists u, result_of exec (FindUserByUsername "bob@example.com") SampleMore.users_world
            = Ok u.
Proof.
  exact (proj1 (proj2 (FindUserByUsername_matches_either_column "bob@example.com"
                         SampleMore.users_world (List.Forall_nil _)))
           SampleMore.user_bob (or_intror (or_introl eq_refl)) (or_introl eq_refl)).
Defined.

Lemma user_lookups_report_not_found_witness :
  exists u, result_of exec (FindUserByID 2) SampleMore.users_world = Ok u /\ User.ID u = 2%N.
Proof.
  exact (proj1 (proj2 (proj2 (user_lookups_report_not_found 2 "nobody@example.com"
                                SampleMore.users_world (List.Forall_nil _))))
           SampleMore.user_bob (or_intror (or_introl eq_refl)) eq_refl).
Defined.

Lemma sample_eve_not_stored (x : User.t) :
  In x (rows users (committed SampleMore.users_world)) ->
  User.ID x <> User.ID SampleMore.user_eve.
Proof. intros [<-|[<-|[]]]; discriminate. Defined.

Lemma status_updates_of_missing_user_witness :
  result_of (execX false) (UpdateUserStatus SampleMore.user_eve) SampleMore.users_world = None
  /\ result_of (execX false) (UpdateUserOnlineStatus SampleMore.user_eve)
       SampleMore.users_world = Some (New "no rows affected").
Proof.
  destruct (status_updates_of_missing_user false SampleMore.user_eve SampleMore.users_world
              (List.Forall_nil _) sample_eve_not_stored) as (H1 & H2 & _).
  split; [exact H1 | exact H2].
Defined.

Lemma SetUserOffline_sets_offline_witness :
  let t' := rows users
              (committed (world_of (execX false) (SetUserOffline SampleMore.user_ada)
                            SampleMore.users_world)) in
  (exists x, In x [SampleMore.user_ada; SampleMore.user_bob]
             /\ User.ID x = User.ID SampleMore.user_ada)
  /\ (forall x, In x t' -> User.ID x = User.ID SampleMore.user_ada -> User.Online x = false)
  /\ List.filter (fun x => negb (id_is (User.ID SampleMore.user_ada) x)) t'
     = List.filter (fun x => negb (id_is (User.ID SampleMore.user_ada) x))
         [SampleMore.user_ada; SampleMore.user_bob]
  /\ map User.ID t' = map User.ID [SampleMore.user_ada; SampleMore.user_bob].
Proof.
  exact (SetUserOffline_sets_offline false SampleMore.user_ada SampleMore.users_world
           eq_refl).
Defined.

Lemma user_counts_agree_witness :
  (0 <= 1 <= 2)%Z /\ (0 <= 1 <= 2)%Z
  /\ 2%Z = Z.of_nat (length [SampleMore.user_ada; SampleMore.user_bob])
  /\ [SampleMore.user_ada; SampleMore.user_bob]
     = rows users (committed SampleMore.users_world).
Proof.
  exact (user_counts_agree "Ikeja" SampleMore.users_world 1 1 2
           [SampleMore.user_ada; SampleMore.user_bob]
           (List.Forall_nil _) eq_refl eq_refl eq_refl eq_refl).
Defined.

End AuthWitnesses.

Section HandlerWitnesses.
Import IO Server Trace TraceMore HandlerSpec.

Lemma failed_insert_leaves_upload_witness :
  let w := {| env := SampleMore.env_db_down; posts := [] |} in
  let tr := trace_of IO.exec
              (handleCreatePost Sample.oor0 Sample.host0 Sample.server0 Sample.req_ok) w in
  length (List.filter is_PutObject tr) = 1%nat
  /\ (statuses tr = [500%Z] ->
      posts (world_of IO.exec
               (handleCreatePost Sample.oor0 Sample.host0 Sample.server0 Sample.req_ok) w)
      = []
      /\ map is_CreatePost (firstn 2 (rev tr)) = [false; true]
      /\ map is_JSON (firstn 2 (rev tr)) = [true; false]).
Proof.
  exact (failed_insert_leaves_upload Sample.oor0 Sample.host0 SampleMore.env_db_down
           Sample.server0 Sample.req_ok [] eq_refl).
Defined.

Lemma sample_text_id_token_present :
  token_from_header SampleMore.env_text_id Sample.req_ok <> "".
Proof. discriminate. Defined.

Lemma sample_text_id_not_number (f : float) :
  SampleMore.claims_text_id !! "id" <> Some (JNumber f).
Proof. discriminate. Defined.

Lemma non_numeric_id_is_rejected_witness :
  let tr := trace_of IO.exec
              (handleCreatePost Sample.oor0 Sample.host0 Sample.server0 Sample.req_ok)
              {| env := SampleMore.env_text_id; posts := [] |} in
  statuses tr = [400%Z]
  /\ existsb is_CreateS3Client tr = false
  /\ existsb is_PutObject tr = false
  /\ existsb is_CreatePost tr = false.
Proof.
  exact (non_numeric_id_is_rejected Sample.oor0 Sample.host0 SampleMore.env_text_id
           Sample.server0 Sample.req_ok [] SampleMore.claims_text_id
           eq_refl sample_text_id_token_present eq_refl sample_text_id_not_number).
Defined.

End HandlerWitnesses.
